(** * Quantum random number generator: encoders and randomness tests

    A shallow embedding of [quantum_core.py] (class
    [QuantumRandomNumberGenerator]), [utils.py] (classes [FileManager],
    [RandomnessTests] and [FormatConverter]), the labels and the analyze
    command of [main.py] and the running average of [visualizer.py].

    - Python [int] is [Z]; a list of measurements is [list Z].
    - Python [float] and [numpy.float64] are IEEE 754 binary64 values,
      here [spec_float] at precision 53 and maximal exponent 1024 with the
      operations of the standard library's [SpecFloat] (round to nearest,
      ties to even).
    - A raised exception is the [Raise] branch of [result].
    - [scipy.stats.chi2.cdf], [scipy.stats.norm.cdf], [numpy.log2] and the
      C library's [pow], which CPython calls for [x ** 2], are foreign
      functions: the embedding takes them as arguments and the theorems
      state which of their properties they use.
    - The quantum simulator is outside the source: the outcome counts of a
      job are an argument of [generate_random_bits].
    - [random.randint] is an argument as well.  The files are a map from
      names to texts that is passed along; what [open] and [write] do to
      it, and whether they raise, is the operating system's answer, an
      argument too.
    - A list has at most [sys.maxsize] elements; the theorems on the
      statistics say so where they need it. *)

From Stdlib Require Import ZArith QArith List String Ascii Bool Lia.
From Stdlib Require Import DecimalString HexadecimalString DecimalZ HexadecimalZ.
From Stdlib Require Import SpecFloat Permutation.
Import ListNotations.

Local Open Scope string_scope.
Local Open Scope Z_scope.

(** ** Exceptions and results *)

(** The classes raised by the code are [ValueError], [ZeroDivisionError]
    and [OverflowError], and [OSError] (with its subclasses) where a file
    is opened.  [EmptySequenceError] and [DegenerateInputError] are the
    classes named by the specification's taxonomy; no code path constructs
    them. *)
Inductive exn : Type :=
| ValueError
| ZeroDivisionError
| OverflowError
| OSError
| EmptySequenceError
| DegenerateInputError.

Inductive result (A : Type) : Type :=
| Ok (a : A)
| Raise (e : exn).

Arguments Ok {A} a.
Arguments Raise {A} e.

Definition bind {A B : Type} (r : result A) (k : A -> result B) : result B :=
  match r with
  | Ok a => k a
  | Raise e => Raise e
  end.

Notation "x <- r ;; k" := (bind r (fun x => k))
  (at level 61, r at next level, right associativity).

(** ** Binary64 arithmetic *)

Module F.

Definition prec : Z := 53.
Definition emax : Z := 1024.

Definition float : Type := spec_float.

Definition add : float -> float -> float := SFadd prec emax.
Definition sub : float -> float -> float := SFsub prec emax.
Definition mul : float -> float -> float := SFmul prec emax.
Definition div : float -> float -> float := SFdiv prec emax.
Definition sqrt : float -> float := SFsqrt prec emax.
Definition abs : float -> float := SFabs.
Definition ltb : float -> float -> bool := SFltb.
Definition leb : float -> float -> bool := SFleb.
Definition valid : float -> bool := valid_binary prec emax.

Definition is_nan (x : float) : bool :=
  match x with S754_nan => true | _ => false end.

Definition is_inf (x : float) : bool :=
  match x with S754_infinity _ => true | _ => false end.

Definition is_zero (x : float) : bool :=
  match x with S754_zero _ => true | _ => false end.

(** Neither NaN nor an infinity. *)
Definition is_finite (x : float) : bool :=
  match x with
  | S754_zero _ | S754_finite _ _ _ => true
  | _ => false
  end.

(** Zero, or finite with magnitude below [2 ^ k]. *)
Definition below (k : Z) (x : float) : Prop :=
  match x with
  | S754_zero _ => True
  | S754_finite _ m e => Zdigits2 (Zpos m) + e <= k
  | _ => False
  end.

(** Not zero and not NaN, of magnitude at least [2 ^ (k - 1)]. *)
Definition above (k : Z) (x : float) : Prop :=
  match x with
  | S754_finite _ m e => k <= Zdigits2 (Zpos m) + e
  | S754_infinity _ => True
  | _ => False
  end.

(** The rational a finite double stands for. *)
Definition to_Q (x : float) : option Q :=
  match x with
  | S754_zero _ => Some (0 # 1)
  | S754_finite s m e =>
      Some (Qmake ((if s then -1 else 1) * Zpos m * 2 ^ Z.max e 0)
                  (Z.to_pos (2 ^ Z.max (- e) 0)))
  | _ => None
  end.

Definition sign (x : float) : bool :=
  match x with
  | S754_zero s | S754_infinity s | S754_finite s _ _ => s
  | S754_nan => false
  end.

Definition zero : float := S754_zero false.
Definition one : float := S754_finite false 4503599627370496 (-52).
Definition two : float := S754_finite false 4503599627370496 (-51).
Definition half : float := S754_finite false 4503599627370496 (-53).
(** The doubles nearest to 0.05, 0.95 and 0.85. *)
Definition c0_05 : float := S754_finite false 7205759403792794 (-57).
Definition c0_95 : float := S754_finite false 8556839292003942 (-53).
Definition c0_85 : float := S754_finite false 7656119366529843 (-53).
Definition hundred : float := S754_finite false 7036874417766400 (-46).
Definition five : float := S754_finite false 5629499534213120 (-50).
(** The doubles nearest to 0.97 and 0.985, and 2.25. *)
Definition c0_97 : float := S754_finite false 8736983277098762 (-53).
Definition c0_985 : float := S754_finite false 8872091265919877 (-53).
Definition c2_25 : float := S754_finite false 5066549580791808 (-51).

End F.

(** ** Python's numeric operators *)

(** [float(z)], also the implicit conversion of an [int] operand that
    meets a [float]: the nearest double, [OverflowError] beyond the range. *)
Definition float_of_int (z : Z) : result F.float :=
  match binary_normalize F.prec F.emax z 0 false with
  | S754_infinity _ => Raise OverflowError
  | f => Ok f
  end.

(** [a / b] on two [int]s: the exact quotient rounded once to the nearest
    double; [ZeroDivisionError] on a zero divisor, [OverflowError] when the
    quotient is beyond the range. *)
Definition int_truediv (a b : Z) : result F.float :=
  if b =? 0 then Raise ZeroDivisionError
  else if a =? 0 then Ok (S754_zero (b <? 0))
  else
    let '(mz, ez, lz) := SFdiv_core_binary F.prec F.emax (Z.abs a) 0 (Z.abs b) 0 in
    match binary_round_aux F.prec F.emax (xorb (a <? 0) (b <? 0)) mz ez lz with
    | S754_infinity _ => Raise OverflowError
    | f => Ok f
    end.

(** [x / y] on two Python [float]s. *)
Definition float_truediv (x y : F.float) : result F.float :=
  if F.is_zero y then Raise ZeroDivisionError else Ok (F.div x y).

(** [x ** 2] on a Python [float], as CPython's [float_pow] computes it.
    NaN, the infinities, the zeros, 1.0 and -1.0 are answered without the
    C library: NaN, [inf], 0.0 and 1.0.  Any other operand goes, without
    its sign, to the C library's [pow]; [pow2 x] stands for
    [pow(x, 2.0)].  An infinite answer raises [OverflowError]. *)
Definition float_pow2 (pow2 : F.float -> F.float) (x : F.float)
  : result F.float :=
  match x with
  | S754_nan => Ok S754_nan
  | S754_infinity _ => Ok (S754_infinity false)
  | S754_zero _ => Ok (S754_zero false)
  | S754_finite _ m e =>
      let iv := S754_finite false m e in
      if SFeqb iv F.one then Ok F.one
      else
        match pow2 iv with
        | S754_infinity _ => Raise OverflowError
        | ix => Ok ix
        end
  end.

(** [x > y], false on NaN. *)
Definition float_gt (x y : F.float) : bool := F.ltb y x.

(** ** Python's strings *)

(** [str(z)] on an [int]. *)
Definition str (z : Z) : string :=
  DecimalString.NilZero.string_of_int (Z.to_int z).

(** [hex(z)] on an [int]: lowercase digits after [0x], the sign first. *)
Definition hex (z : Z) : string :=
  ((if (z <? 0)%Z then "-0x" else "0x") ++
   HexadecimalString.NilZero.string_of_int (Z.to_hex_int (Z.abs z)))%string.

(** [''.join(l)]. *)
Definition join (l : list string) : string := String.concat "" l.

(** [s.ljust(width, fill)]. *)
Definition ljust (width : nat) (fill : ascii) (s : string) : string :=
  (s ++ string_of_list_ascii (repeat fill (width - String.length s)))%string.

(** [s[:n]]. *)
Definition prefix_slice (n : nat) (s : string) : string := substring 0 n s.

Definition digit_value (c : ascii) : option Z :=
  let n := Z.of_nat (nat_of_ascii c) in
  if (48 <=? n) && (n <=? 57) then Some (n - 48)
  else if (97 <=? n) && (n <=? 122) then Some (n - 87)
  else if (65 <=? n) && (n <=? 90) then Some (n - 55)
  else None.

Fixpoint parse_digits (base acc : Z) (s : string) : result Z :=
  match s with
  | EmptyString => Ok acc
  | String c rest =>
      match digit_value c with
      | Some d =>
          if d <? base then parse_digits base (base * acc + d) rest
          else Raise ValueError
      | None => Raise ValueError
      end
  end.

(** [int(s, base)] on the strings the code builds, which hold digits and
    minus signs only: an optional sign, then at least one digit of the
    base; [ValueError] otherwise.  (Surrounding white space, underscores
    and a base prefix, which [int] also accepts, never occur in them.) *)
Definition int_of_str (s : string) (base : Z) : result Z :=
  match s with
  | EmptyString => Raise ValueError
  | String "-"%char EmptyString => Raise ValueError
  | String "+"%char EmptyString => Raise ValueError
  | String "-"%char rest => v <- parse_digits base 0 rest ;; Ok (- v)
  | String "+"%char rest => parse_digits base 0 rest
  | _ => parse_digits base 0 s
  end.

(** ** Python's lists *)

(** [l.count(x)]. *)
Definition count (x : Z) (l : list Z) : Z :=
  Z.of_nat (count_occ Z.eq_dec l x).

(** [len(l)]. *)
Definition len {A : Type} (l : list A) : Z := Z.of_nat (List.length l).

(** [[x] * n]: empty when [n] is not positive. *)
Definition replicate (x : Z) (n : Z) : list Z := repeat x (Z.to_nat n).

(** ** quantum_core.py: class QuantumRandomNumberGenerator *)

(** The outcome counts of a job, a [dict] from bit strings to counts, in
    the order [items()] yields them. *)
Definition counts_dict : Type := list (string * Z).

(** The attributes the methods read and write.  The simulator itself is
    outside the embedding: its answer to a job is an argument of
    [generate_random_bits]. *)
Record QRNG : Type := {
  measurements : list Z;
  counts : counts_dict
}.

(** [__init__] and [reset]. *)
Definition init : QRNG := {| measurements := []; counts := [] |}.
Definition reset (self : QRNG) : QRNG := {| measurements := []; counts := [] |}.

(** The loop of [generate_random_bits]: for each item, [int(bitstring)]
    and [measurements.extend([bit] * count)]. *)
Fixpoint extend_from_counts (items : counts_dict) (acc : list Z)
  : result (list Z) :=
  match items with
  | [] => Ok acc
  | (bitstring, n) :: rest =>
      bit <- int_of_str bitstring 10 ;;
      extend_from_counts rest (acc ++ replicate bit n)
  end.

(** [generate_random_bits], where [job_counts] is what
    [result.get_counts(circuit)] returned for the job.  [self.counts] is
    assigned before the loop, [self.measurements] after it. *)
Definition generate_random_bits (self : QRNG) (job_counts : counts_dict)
  : QRNG * result (list Z) :=
  match extend_from_counts job_counts [] with
  | Ok ms => ({| measurements := ms; counts := job_counts |}, Ok ms)
  | Raise e =>
      ({| measurements := measurements self; counts := job_counts |}, Raise e)
  end.

Definition to_binary_string (self : QRNG) : result string :=
  match measurements self with
  | [] => Raise ValueError
  | ms => Ok (join (map str ms))
  end.

Definition to_decimal (self : QRNG) : result Z :=
  binary_str <- to_binary_string self ;;
  int_of_str binary_str 2.

Definition to_hex (self : QRNG) : result string :=
  decimal <- to_decimal self ;;
  Ok (hex decimal).

Definition to_float (self : QRNG) : result F.float :=
  binary_str <- to_binary_string self ;;
  let binary_str := prefix_slice 32 (ljust 32 "0"%char binary_str) in
  decimal <- int_of_str binary_str 2 ;;
  int_truediv decimal (2 ^ 32).

(** [numpy.log2] on a double.  Zero, negative numbers, infinities and NaN
    are answered as numpy does (with a warning, never an exception); on a
    positive finite double the answer is the foreign function's, [log2]. *)
Definition np_log2 (log2 : F.float -> F.float) (x : F.float) : F.float :=
  match x with
  | S754_nan => S754_nan
  | S754_zero _ => S754_infinity true
  | S754_infinity false => S754_infinity false
  | S754_infinity true => S754_nan
  | S754_finite true _ _ => S754_nan
  | S754_finite false _ _ => log2 x
  end.

(** [entropy = 0] followed by the two guarded [entropy -= p * np.log2(p)].
    The initial [int] 0 meets a double as [+0.0]. *)
Definition shannon_entropy_of (log2 : F.float -> F.float)
    (prob_0 prob_1 : F.float) : F.float :=
  let entropy := F.zero in
  let entropy :=
    if float_gt prob_0 F.zero
    then F.sub entropy (F.mul prob_0 (np_log2 log2 prob_0))
    else entropy in
  let entropy :=
    if float_gt prob_1 F.zero
    then F.sub entropy (F.mul prob_1 (np_log2 log2 prob_1))
    else entropy in
  entropy.

Module Statistics.
Record t : Type := {
  total_measurements : Z;
  count_0 : Z;
  count_1 : Z;
  probability_0 : F.float;
  probability_1 : F.float;
  shannon_entropy : F.float;
  max_entropy : F.float;
  entropy_ratio : F.float
}.
End Statistics.

Definition get_statistics (log2 : F.float -> F.float) (self : QRNG)
  : result Statistics.t :=
  match measurements self with
  | [] => Raise ValueError
  | ms =>
      let total := len ms in
      let count_0 := count 0 ms in
      let count_1 := count 1 ms in
      prob_0 <- int_truediv count_0 total ;;
      prob_1 <- int_truediv count_1 total ;;
      let entropy := shannon_entropy_of log2 prob_0 prob_1 in
      Ok {| Statistics.total_measurements := total;
            Statistics.count_0 := count_0;
            Statistics.count_1 := count_1;
            Statistics.probability_0 := prob_0;
            Statistics.probability_1 := prob_1;
            Statistics.shannon_entropy := entropy;
            Statistics.max_entropy := F.one;
            Statistics.entropy_ratio := F.div entropy F.one |}
  end.

(** ** utils.py: class RandomnessTests *)

Module ChiSquare.
Record t : Type := {
  chi_square_statistic : F.float;
  p_value : F.float;
  passes_test : bool;
  interpretation : string
}.
End ChiSquare.

(** One class's term [(count - expected_count) ** 2 / expected_count]. *)
Definition chi_square_term (pow2 : F.float -> F.float) (count_i : Z)
    (expected_count : F.float) : result F.float :=
  c <- float_of_int count_i ;;
  sq <- float_pow2 pow2 (F.sub c expected_count) ;;
  float_truediv sq expected_count.

(** Lines 104-111: the statistic. *)
Definition chi_square_statistic_of (pow2 : F.float -> F.float)
    (measurements : list Z) (expected_prob : F.float) : result F.float :=
  let count_0 := count 0 measurements in
  let count_1 := count 1 measurements in
  let total := len measurements in
  t <- float_of_int total ;;
  let expected_count := F.mul t expected_prob in
  term_0 <- chi_square_term pow2 count_0 expected_count ;;
  term_1 <- chi_square_term pow2 count_1 expected_count ;;
  Ok (F.add term_0 term_1).

Definition chi_square_test (chi2_cdf pow2 : F.float -> F.float)
    (measurements : list Z) (expected_prob : F.float)
  : result ChiSquare.t :=
  chi_square <- chi_square_statistic_of pow2 measurements expected_prob ;;
  let p_value := F.sub F.one (chi2_cdf chi_square) in
  Ok {| ChiSquare.chi_square_statistic := chi_square;
        ChiSquare.p_value := p_value;
        ChiSquare.passes_test := float_gt p_value F.c0_05;
        ChiSquare.interpretation :=
          if float_gt p_value F.c0_05 then "Random" else "Not random" |}.

Module Runs.
Record t : Type := {
  runs_count : Z;
  expected_runs : F.float;
  z_score : F.float;
  p_value : F.float;
  passes_test : bool;
  interpretation : string
}.
End Runs.

(** The loop of [runs_test]: [runs = 1], then for [i] in
    [range(1, len(measurements))] one more run whenever
    [measurements[i] != measurements[i-1]]. *)
Definition count_runs (measurements : list Z) : Z :=
  fold_left
    (fun runs i =>
       if nth i measurements 0 =? nth (i - 1) measurements 0
       then runs else runs + 1)
    (seq 1 (List.length measurements - 1)) 1.

(** Lines 134-151: the runs, their expectation and the z-score. *)
Definition runs_statistic (measurements : list Z)
  : result (Z * F.float * F.float) :=
  let runs := count_runs measurements in
  let n0 := count 0 measurements in
  let n1 := count 1 measurements in
  let n := len measurements in
  q <- int_truediv (2 * n0 * n1) n ;;
  let expected_runs := F.add q F.one in
  variance <- int_truediv (2 * n0 * n1 * (2 * n0 * n1 - n)) (n ^ 2 * (n - 1)) ;;
  r <- float_of_int runs ;;
  let z_score := F.div (F.sub r expected_runs) (F.sqrt variance) in
  Ok (runs, expected_runs, z_score).

Definition runs_test (norm_cdf : F.float -> F.float)
    (measurements : list Z) : result Runs.t :=
  st <- runs_statistic measurements ;;
  let '(runs, expected_runs, z_score) := st in
  let p_value := F.mul F.two (F.sub F.one (norm_cdf (F.abs z_score))) in
  Ok {| Runs.runs_count := runs;
        Runs.expected_runs := expected_runs;
        Runs.z_score := z_score;
        Runs.p_value := p_value;
        Runs.passes_test := float_gt p_value F.c0_05;
        Runs.interpretation :=
          if float_gt p_value F.c0_05 then "Random" else "Clustered" |}.

Module Entropy.
Record t : Type := {
  shannon_entropy : F.float;
  max_entropy : F.float;
  entropy_ratio : F.float;
  quality : string
}.
End Entropy.

Definition entropy_test (log2 : F.float -> F.float) (measurements : list Z)
  : result Entropy.t :=
  let total := len measurements in
  let count_0 := count 0 measurements in
  let count_1 := count 1 measurements in
  prob_0 <- int_truediv count_0 total ;;
  prob_1 <- int_truediv count_1 total ;;
  let entropy := shannon_entropy_of log2 prob_0 prob_1 in
  let max_entropy := F.one in
  let entropy_ratio := F.div entropy max_entropy in
  Ok {| Entropy.shannon_entropy := entropy;
        Entropy.max_entropy := max_entropy;
        Entropy.entropy_ratio := entropy_ratio;
        Entropy.quality :=
          if float_gt entropy_ratio F.c0_95 then "Excellent"
          else if float_gt entropy_ratio F.c0_85 then "Good"
          else "Poor" |}.

(** ** utils.py: class FormatConverter *)

Definition binary_to_decimal (binary_str : string) : result Z :=
  int_of_str binary_str 2.

Definition binary_to_hex (binary_str : string) : result string :=
  decimal <- int_of_str binary_str 2 ;;
  Ok (hex decimal).

Definition binary_to_float (binary_str : string) : result F.float :=
  let binary_str := prefix_slice 32 (ljust 32 "0"%char binary_str) in
  decimal <- int_of_str binary_str 2 ;;
  int_truediv decimal (2 ^ 32).

(** ** Vocabulary of the statements *)

(** A list whose elements are the two bit values. *)
Definition BitSequence (l : list Z) : Prop :=
  Forall (fun b => b = 0 \/ b = 1) l.

(** [sys.maxsize], the largest length of a list. *)
Definition sys_maxsize : Z := 2 ^ 63 - 1.

(** The double nearest to an integer. *)
Definition nearest (z : Z) : F.float :=
  binary_normalize F.prec F.emax z 0 false.

(** The square of a double as [**] gives it: the value of the C library's
    [pow] at the magnitude of the operand, but for the operands that
    CPython answers itself. *)
Definition square (pow2 : F.float -> F.float) (x : F.float) : F.float :=
  match x with
  | S754_nan => S754_nan
  | S754_infinity _ => S754_infinity false
  | S754_zero _ => F.zero
  | S754_finite _ _ _ =>
      if SFeqb (F.abs x) F.one then F.one else pow2 (F.abs x)
  end.

(** The statistic as the specification writes it: the sum over the two
    classes of [(observed - expected) ^ 2 / expected], both with
    [expected = total * expected_prob], in binary64 arithmetic. *)
Definition chi_square_formula (pow2 : F.float -> F.float) (l : list Z)
    (expected_prob : F.float) : F.float :=
  let expected := F.mul (nearest (len l)) expected_prob in
  let d0 := F.sub (nearest (count 0 l)) expected in
  let d1 := F.sub (nearest (count 1 l)) expected in
  F.add (F.div (square pow2 d0) expected) (F.div (square pow2 d1) expected).

(** The entropy as the specification writes it: minus the sum of
    [p * log2(p)] over the probabilities that are greater than zero, the
    terms taken off 0.0 one after the other in binary64 arithmetic. *)
Definition entropy_formula (log2 : F.float -> F.float)
    (probabilities : list F.float) : F.float :=
  fold_left (fun entropy p => F.sub entropy (F.mul p (log2 p)))
            (filter (fun p => float_gt p F.zero) probabilities) F.zero.

(** The number of adjacent pairs of a list whose two values differ. *)
Fixpoint changes (l : list Z) : Z :=
  match l with
  | x :: ((y :: _) as tl) => (if x =? y then 0 else 1) + changes tl
  | _ => 0
  end.

(** The digit of a bit, and the binary numeral of a bit sequence. *)
Definition bit_char (b : Z) : ascii := if b =? 0 then "0"%char else "1"%char.

Definition bit_string (l : list Z) : string :=
  string_of_list_ascii (map bit_char l).

(** The unsigned integer a bit sequence spells, first bit most
    significant. *)
Definition bits_value (l : list Z) : Z :=
  fold_left (fun acc b => 2 * acc + b) l 0.

(** The first 32 bits of a sequence, a shorter one padded with zeros on the
    right. *)
Definition first_32 (l : list Z) : list Z :=
  firstn 32 (l ++ repeat 0 (32 - List.length l)).

(** ** What the theorems use of the foreign functions *)

(** [scipy.stats.chi2.cdf(x, df=1)] is zero at zero, and a double between
    0.97 and 1 from 5 on (the distribution has 97.4% of its mass below 5). *)
Definition chi2_cdf_spec (chi2_cdf : F.float -> F.float) : Prop :=
  F.is_zero (chi2_cdf F.zero) = true /\
  forall x, F.leb F.five x = true ->
    F.valid (chi2_cdf x) = true /\
    F.leb F.c0_97 (chi2_cdf x) = true /\
    F.leb (chi2_cdf x) F.one = true.

(** [scipy.stats.norm.cdf] answers NaN with NaN, and is a double between
    0.985 and 1 from 2.25 on (the standard normal distribution has 98.7%
    of its mass below 2.25). *)
Definition norm_cdf_spec (norm_cdf : F.float -> F.float) : Prop :=
  norm_cdf S754_nan = S754_nan /\
  forall x, F.leb F.c2_25 x = true ->
    F.valid (norm_cdf x) = true /\
    F.leb F.c0_985 (norm_cdf x) = true /\
    F.leb (norm_cdf x) F.one = true.

(** Step functions that bound the two distribution functions from below;
    they show that the two properties above can be met. *)
Definition chi2_cdf_step (x : F.float) : F.float :=
  if F.is_nan x then S754_nan
  else if F.leb F.five x then F.c0_97
  else F.zero.

Definition norm_cdf_step (x : F.float) : F.float :=
  if F.is_nan x then S754_nan
  else if F.leb F.c2_25 x then F.c0_985
  else if F.leb F.zero x then F.half
  else F.zero.

(** [numpy.log2] is zero at 1.0, and on a positive double below 4 a
    finite double of magnitude below [2 ^ 12]. *)
Definition log2_spec (log2 : F.float -> F.float) : Prop :=
  F.is_zero (log2 F.one) = true /\
  forall m e, -1074 < Zdigits2 (Zpos m) + e <= 2 ->
    F.below 12 (log2 (S754_finite false m e)).

(** The integer part of the binary logarithm; it shows that the property
    above can be met. *)
Definition log2_floor (x : F.float) : F.float :=
  match x with
  | S754_finite false m e => nearest (Zdigits2 (Zpos m) + e - 1)
  | _ => S754_nan
  end.

(** The C library's [pow(x, 2.0)] returns the square itself where the
    square is a double (its error is below one unit in the last place),
    and no infinity on a double of magnitude below [2 ^ 480]. *)
Definition pow2_spec (pow2 : F.float -> F.float) : Prop :=
  (forall (x : F.float) (q r : Q),
      F.to_Q x = Some q -> F.to_Q (F.mul x x) = Some r -> Qeq r (q * q) ->
      pow2 x = F.mul x x) /\
  (forall m e, Zdigits2 (Zpos m) + e <= 480 ->
      F.is_inf (pow2 (S754_finite false m e)) = false).

(** The correctly rounded square; it shows that the property above can be
    met. *)
Definition pow2_nearest (x : F.float) : F.float := F.mul x x.


(** * The converters, the file writers and the commands *)

(** ** More of Python's strings and lists *)

(** The binary digits of a positive integer, the most significant first. *)
Fixpoint binary_digits (p : positive) : string :=
  match p with
  | xH => "1"
  | xO q => binary_digits q ++ "0"
  | xI q => binary_digits q ++ "1"
  end.

(** [bin(z)] on an [int]: the digits after [0b], the sign first. *)
Definition bin (z : Z) : string :=
  match z with
  | Z0 => "0b0"
  | Zpos p => "0b" ++ binary_digits p
  | Zneg p => "-0b" ++ binary_digits p
  end.

(** [s[n:]]: empty when [s] has at most [n] characters. *)
Fixpoint suffix_slice (n : nat) (s : string) : string :=
  match n, s with
  | O, _ => s
  | S _, EmptyString => EmptyString
  | S k, String _ rest => suffix_slice k rest
  end.

(** The white space [int] skips around a numeral: tab, line feed, vertical
    tab, form feed, carriage return and space. *)
Definition is_space (c : ascii) : bool :=
  let n := Z.of_nat (nat_of_ascii c) in
  ((9 <=? n) && (n <=? 13)) || (n =? 32).

Fixpoint lstrip (s : string) : string :=
  match s with
  | String c rest => if is_space c then lstrip rest else s
  | EmptyString => s
  end.

Fixpoint all_space (s : string) : bool :=
  match s with
  | String c rest => is_space c && all_space rest
  | EmptyString => true
  end.

Definition is_digit_of (base : Z) (c : ascii) : bool :=
  match digit_value c with
  | Some d => d <? base
  | None => false
  end.

(** The digits of a numeral, single underscores between them allowed, up
    to white space that runs to the end of the string. *)
Fixpoint parse_numeral (base acc : Z) (after_underscore : bool) (s : string)
  : result Z :=
  match s with
  | EmptyString => if after_underscore then Raise ValueError else Ok acc
  | String c rest =>
      if Ascii.eqb c "_" then
        if after_underscore then Raise ValueError
        else parse_numeral base acc true rest
      else if is_digit_of base c then
        match digit_value c with
        | Some d => parse_numeral base (base * acc + d) false rest
        | None => Raise ValueError
        end
      else if after_underscore then Raise ValueError
      else if all_space s then Ok acc
      else Raise ValueError
  end.

(** The prefix [int(s, base)] skips for the bases 2, 8 and 16, with the one
    underscore that may follow it. *)
Definition strip_base_prefix (base : Z) (s : string) : string :=
  match s with
  | String c0 (String c1 rest) =>
      if Ascii.eqb c0 "0" &&
         (((base =? 16) && (Ascii.eqb c1 "x" || Ascii.eqb c1 "X"))
          || ((base =? 8) && (Ascii.eqb c1 "o" || Ascii.eqb c1 "O"))
          || ((base =? 2) && (Ascii.eqb c1 "b" || Ascii.eqb c1 "B")))
      then match rest with
           | String c2 rest' => if Ascii.eqb c2 "_" then rest' else rest
           | EmptyString => rest
           end
      else s
  | _ => s
  end.

(** [int(s, base)] on any string of ASCII characters, for a base from 2 to
    36: white space, an optional sign, an optional prefix of the base, a
    digit, then digits and single underscores, white space; [ValueError]
    otherwise. *)
Definition int_of_text (s : string) (base : Z) : result Z :=
  let s := lstrip s in
  let negative :=
    match s with
    | String c _ => Ascii.eqb c "-"
    | EmptyString => false
    end in
  let s :=
    match s with
    | String c rest => if Ascii.eqb c "-" || Ascii.eqb c "+" then rest else s
    | EmptyString => s
    end in
  let s := strip_base_prefix base s in
  match s with
  | String c _ =>
      if is_digit_of base c then
        v <- parse_numeral base 0 false s ;;
        Ok (if negative then - v else v)
      else Raise ValueError
  | EmptyString => Raise ValueError
  end.

(** [sum(l)] on a list of [int]s. *)
Definition sum (l : list Z) : Z := fold_left Z.add l 0.

(** [l[start:stop]]: a negative index counts from the end, and both are
    clipped to the list. *)
Definition slice (l : list Z) (start stop : Z) : list Z :=
  let n := len l in
  let clip i := if i <? 0 then Z.max (i + n) 0 else Z.min i n in
  firstn (Z.to_nat (clip stop - clip start)) (skipn (Z.to_nat (clip start)) l).

(** ** utils.py: the rest of class FormatConverter *)

Definition decimal_to_binary (decimal : Z) : string :=
  suffix_slice 2 (bin decimal).

Definition hex_to_binary (hex_str : string) : result string :=
  v <- int_of_text hex_str 16 ;;
  Ok (suffix_slice 2 (bin v)).

(** ** utils.py: class FileManager *)

(** The files the writers touch: the text a name holds, if any. *)
Definition file_system : Type := string -> option string.

(** The operating system's answer to [with open(filename, 'w') as f:
    f.write(text)]: the files afterwards, and whether the block raised
    ([OSError] for a name that cannot be opened, [ValueError] for a name
    with a NUL character). *)
Definition os_write_t : Type :=
  file_system -> string -> string -> file_system * result unit.

(** What the block leaves when nothing goes wrong: the name holds the
    text, the other names what they held. *)
Definition write_file (fs : file_system) (filename text : string)
  : file_system :=
  fun name => if String.eqb name filename then Some text else fs name.

(** An operating system that refuses the empty name and writes every other
    file; it is the one of the examples. *)
Definition os_write_named : os_write_t :=
  fun fs filename text =>
    if String.eqb filename "" then (fs, Raise OSError)
    else (write_file fs filename text, Ok tt).

(** Both writers, up to the line they print at the end. *)
Definition save_as_binary_file (os_write : os_write_t)
    (measurements : list Z) (filename : string) (fs : file_system)
  : file_system * result unit :=
  let binary_str := join (map str measurements) in
  os_write fs filename binary_str.

(** The number is read before the file is opened: when [int] raises, no
    file is touched. *)
Definition save_as_hex_file (os_write : os_write_t)
    (measurements : list Z) (filename : string) (fs : file_system)
  : file_system * result unit :=
  let binary_str := join (map str measurements) in
  let binary_str :=
    ljust ((String.length binary_str + 3) / 4 * 4)%nat "0"%char binary_str in
  match int_of_text binary_str 2 with
  | Ok v => os_write fs filename (suffix_slice 2 (hex v))
  | Raise e => (fs, Raise e)
  end.

(** ** utils.py: RandomnessTests.compare_with_classical_random *)

Module Classical.
Record t : Type := {
  count_0 : Z;
  count_1 : Z;
  probability_0 : F.float;
  probability_1 : F.float
}.
End Classical.

(** [randint i] is what the [i]-th call of [random.randint(0, 1)]
    answers; [range(num_samples)] is empty when [num_samples] is not
    positive. *)
Definition compare_with_classical_random (randint : nat -> Z)
    (num_samples : Z) : result Classical.t :=
  let classical_bits := map randint (seq 0 (Z.to_nat num_samples)) in
  let count_0 := count 0 classical_bits in
  let count_1 := count 1 classical_bits in
  prob_0 <- int_truediv count_0 num_samples ;;
  prob_1 <- int_truediv count_1 num_samples ;;
  Ok {| Classical.count_0 := count_0;
        Classical.count_1 := count_1;
        Classical.probability_0 := prob_0;
        Classical.probability_1 := prob_1 |}.

(** ** main.py *)

(** Line 51, the label [generate_command] prints beside the entropy ratio
    of [get_statistics]. *)
Definition quality_label (entropy_ratio : F.float) : string :=
  if float_gt entropy_ratio F.c0_95 then "Excellent"
  else if float_gt entropy_ratio F.c0_85 then "Good"
  else "Poor".

(** Lines 104-106, the overall assessment of [analyze_command]. *)
Definition overall_assessment (chi_square : ChiSquare.t) (runs : Runs.t)
    (entropy : Entropy.t) : string :=
  let all_pass :=
    ChiSquare.passes_test chi_square && Runs.passes_test runs in
  if all_pass && float_gt (Entropy.entropy_ratio entropy) F.c0_95
  then "EXCELLENT"
  else if all_pass then "GOOD"
  else "NEEDS IMPROVEMENT".

(** [analyze_command] up to its printing: the bits of a fresh generator,
    the three tests in turn with the default [expected_prob], the
    assessment. *)
Definition analyze_command
    (chi2_cdf pow2 norm_cdf log2 : F.float -> F.float)
    (job_counts : counts_dict) : result string :=
  measurements <- snd (generate_random_bits init job_counts) ;;
  chi_square <- chi_square_test chi2_cdf pow2 measurements F.half ;;
  runs <- runs_test norm_cdf measurements ;;
  entropy <- entropy_test log2 measurements ;;
  Ok (overall_assessment chi_square runs entropy).

(** ** visualizer.py: the running average of plot_bit_sequence *)

(** Lines 164-168: one average per index of
    [range(len(measurements) - window_size + 1)]. *)
Fixpoint running_avg_loop (measurements : list Z) (window_size : Z)
    (indices : list nat) (running_avg : list F.float)
  : result (list F.float) :=
  match indices with
  | [] => Ok running_avg
  | i :: rest =>
      let window :=
        slice measurements (Z.of_nat i) (Z.of_nat i + window_size) in
      avg <- int_truediv (sum window) (len window) ;;
      running_avg_loop measurements window_size rest
        (running_avg ++ [avg])%list
  end.

Definition running_avg (measurements : list Z) (window_size : Z)
  : result (list F.float) :=
  running_avg_loop measurements window_size
    (seq 0 (Z.to_nat (len measurements - window_size + 1))) [].

(** ** More vocabulary *)

(** [numpy.log2] is exact at one half. *)
Definition log2_half_spec (log2 : F.float -> F.float) : Prop :=
  log2 F.half = S754_finite true 4503599627370496 (-52).

(** [counts.get(key, 0)]: the count a job reports for an outcome. *)
Fixpoint get_count (key : string) (d : counts_dict) : Z :=
  match d with
  | [] => 0
  | (k, v) :: rest => if String.eqb k key then v else get_count key rest
  end.

(** A bit sequence without its leading zeros. *)
Fixpoint strip_zeros (l : list Z) : list Z :=
  match l with
  | 0 :: rest => strip_zeros rest
  | _ => l
  end.






(** * Facts about binary64 rounding *)

(** The constants are the doubles Python reads from the literals of the
    source and of the statements. *)
Lemma literal_doubles :
  float_of_int 0 = Ok F.zero /\ float_of_int 1 = Ok F.one /\
  float_of_int 2 = Ok F.two /\ int_truediv 1 2 = Ok F.half /\
  int_truediv 5 100 = Ok F.c0_05 /\ int_truediv 95 100 = Ok F.c0_95 /\
  int_truediv 85 100 = Ok F.c0_85 /\ float_of_int 100 = Ok F.hundred /\
  float_of_int 5 = Ok F.five /\ int_truediv 97 100 = Ok F.c0_97 /\
  int_truediv 985 1000 = Ok F.c0_985 /\ int_truediv 225 100 = Ok F.c2_25.
Proof. vm_compute. repeat split. Qed.

(** ** Digits *)

Lemma digits2_pos_size (p : positive) : digits2_pos p = Pos.size p.
Proof. induction p; simpl; congruence. Qed.

Lemma Zdigits2_log2 (m : Z) : 0 < m -> Zdigits2 m = Z.log2 m + 1.
Proof.
  destruct m as [|p|p]; try lia. intros _.
  unfold Zdigits2. rewrite digits2_pos_size.
  destruct p; simpl; lia.
Qed.

Lemma Zdigits2_nonneg (m : Z) : 0 <= Zdigits2 m.
Proof. destruct m; simpl; lia. Qed.

Lemma Zdigits2_pos (m : Z) : 0 < m -> 1 <= Zdigits2 m.
Proof.
  intros H. rewrite Zdigits2_log2 by assumption.
  pose proof (Z.log2_nonneg m). lia.
Qed.

Lemma Zdigits2_bounds (m : Z) :
  0 < m -> 2 ^ (Zdigits2 m - 1) <= m < 2 ^ Zdigits2 m.
Proof.
  intros H. rewrite Zdigits2_log2 by assumption.
  replace (Z.log2 m + 1 - 1) with (Z.log2 m) by lia.
  apply Z.log2_spec; assumption.
Qed.

Lemma Zdigits2_le_of_lt (m k : Z) : 0 <= m -> 0 <= k -> m < 2 ^ k -> Zdigits2 m <= k.
Proof.
  intros Hm Hk H.
  destruct (Z.eq_dec m 0) as [->|Hne]; [simpl; lia|].
  rewrite Zdigits2_log2 by lia.
  assert (Z.log2 m < k) by (apply Z.log2_lt_pow2; lia). lia.
Qed.

Lemma Zdigits2_ge_of_le (m k : Z) : 0 <= k -> 2 ^ k <= m -> k + 1 <= Zdigits2 m.
Proof.
  intros Hk H.
  assert (0 < m) by (pose proof (Z.pow_pos_nonneg 2 k); lia).
  rewrite Zdigits2_log2 by lia.
  assert (k <= Z.log2 m) by (apply Z.log2_le_pow2; lia). lia.
Qed.

Lemma Zdigits2_mono (a b : Z) : 0 <= a <= b -> Zdigits2 a <= Zdigits2 b.
Proof.
  intros [Ha Hab].
  destruct (Z.eq_dec a 0) as [->|Hne]; [apply Zdigits2_nonneg|].
  rewrite !Zdigits2_log2 by lia.
  pose proof (Z.log2_le_mono a b Hab). lia.
Qed.

Lemma Zdigits2_succ_le (m : Z) : 0 <= m -> Zdigits2 (m + 1) <= Zdigits2 m + 1.
Proof.
  intros Hm.
  destruct (Z.eq_dec m 0) as [->|Hne]; [simpl; lia|].
  apply Zdigits2_le_of_lt; [lia| pose proof (Zdigits2_nonneg m); lia |].
  pose proof (Zdigits2_bounds m ltac:(lia)) as [_ Hu].
  rewrite Z.pow_add_r by (pose proof (Zdigits2_nonneg m); lia).
  lia.
Qed.

Lemma Zdigits2_div_pow2 (m n : Z) :
  0 <= m -> 0 <= n -> Zdigits2 (m / 2 ^ n) = Z.max 0 (Zdigits2 m - n).
Proof.
  intros Hm Hn.
  destruct (Z.eq_dec m 0) as [->|Hne].
  { rewrite Z.div_0_l by (pose proof (Z.pow_pos_nonneg 2 n); lia). simpl. lia. }
  pose proof (Zdigits2_bounds m ltac:(lia)) as [Hl Hu].
  pose proof (Zdigits2_pos m ltac:(lia)) as Hd.
  assert (H2n : 0 < 2 ^ n) by (apply Z.pow_pos_nonneg; lia).
  destruct (Z_lt_le_dec (Zdigits2 m - n) 1) as [Hsmall|Hbig].
  - assert (m < 2 ^ n).
    { eapply Z.lt_le_trans; [exact Hu|]. apply Z.pow_le_mono_r; lia. }
    rewrite Z.div_small by lia. simpl. lia.
  - assert (Hq : 2 ^ (Zdigits2 m - n - 1) <= m / 2 ^ n < 2 ^ (Zdigits2 m - n)).
    { split.
      - apply Z.div_le_lower_bound; [lia|].
        rewrite <- Z.pow_add_r by lia.
        replace (n + (Zdigits2 m - n - 1)) with (Zdigits2 m - 1) by lia. exact Hl.
      - apply Z.div_lt_upper_bound; [lia|].
        rewrite <- Z.pow_add_r by lia.
        replace (n + (Zdigits2 m - n)) with (Zdigits2 m) by lia. exact Hu. }
    destruct Hq as [Hq1 Hq2].
    assert (Zdigits2 (m / 2 ^ n) <= Zdigits2 m - n).
    { apply Zdigits2_le_of_lt; try lia; apply Z.div_pos; lia. }
    assert (Zdigits2 m - n - 1 + 1 <= Zdigits2 (m / 2 ^ n)).
    { apply Zdigits2_ge_of_le; lia. }
    lia.
Qed.

Lemma Zdigits2_mul_pow2 (m n : Z) :
  0 < m -> 0 <= n -> Zdigits2 (m * 2 ^ n) = Zdigits2 m + n.
Proof.
  intros Hm Hn.
  assert (H2n : 0 < 2 ^ n) by (apply Z.pow_pos_nonneg; lia).
  rewrite !Zdigits2_log2 by nia.
  rewrite Z.log2_mul_pow2 by lia. lia.
Qed.

(** ** Right shifts *)

Lemma shr_1_m (mrs : shr_record) :
  0 <= shr_m mrs -> shr_m (shr_1 mrs) = shr_m mrs / 2.
Proof.
  destruct mrs as [m r s]. simpl. intros H.
  destruct m as [|[p|p|]|p]; simpl shr_m; try reflexivity; try lia.
  - apply Z.div_unique with (r := 1); lia.
  - apply Z.div_unique with (r := 0); lia.
Qed.

Lemma shr_m_iter (p : positive) :
  forall mrs, 0 <= shr_m mrs ->
    shr_m (iter_pos shr_1 p mrs) = shr_m mrs / 2 ^ Zpos p.
Proof.
  assert (Hnn : forall a b, 0 <= a -> 0 < b -> 0 <= a / b)
    by (intros; apply Z.div_pos; lia).
  induction p as [p IH|p IH|]; intros mrs Hm; simpl iter_pos.
  - assert (H1 : 0 <= shr_m (shr_1 mrs))
      by (rewrite shr_1_m by assumption; apply Hnn; lia).
    assert (Hp : 0 < 2 ^ Zpos p) by (apply Z.pow_pos_nonneg; lia).
    rewrite IH; [rewrite IH by assumption | rewrite IH by assumption; apply Hnn; lia].
    rewrite shr_1_m by assumption.
    rewrite !Z.div_div by lia.
    f_equal. rewrite Pos2Z.inj_xI.
    replace (2 * Zpos p + 1) with (1 + Zpos p + Zpos p) by lia.
    rewrite !Z.pow_add_r by lia. change (2 ^ 1) with 2. ring.
  - assert (Hp : 0 < 2 ^ Zpos p) by (apply Z.pow_pos_nonneg; lia).
    rewrite IH; [rewrite IH by assumption | rewrite IH by assumption; apply Hnn; lia].
    rewrite !Z.div_div by lia.
    f_equal. rewrite <- Z.pow_add_r by lia. f_equal. lia.
  - rewrite shr_1_m by assumption. reflexivity.
Qed.

Lemma shr_record_of_loc_m (m : Z) (l : location) :
  shr_m (shr_record_of_loc m l) = m.
Proof. destruct l as [|[]]; reflexivity. Qed.

Lemma shr_fexp_spec (m e : Z) (l : location) :
  0 <= m ->
  let e' := Z.max e (fexp F.prec F.emax (Zdigits2 m + e)) in
  shr_m (fst (shr_fexp F.prec F.emax m e l)) = m / 2 ^ (e' - e) /\
  snd (shr_fexp F.prec F.emax m e l) = e'.
Proof.
  intros Hm e'. subst e'. unfold shr_fexp, shr.
  set (f := fexp F.prec F.emax (Zdigits2 m + e)).
  destruct (f - e) as [|p|p] eqn:E; simpl fst; simpl snd.
  - rewrite shr_record_of_loc_m.
    replace (Z.max e f - e) with 0 by lia. rewrite Z.div_1_r. lia.
  - rewrite shr_m_iter by (rewrite shr_record_of_loc_m; assumption).
    rewrite shr_record_of_loc_m.
    replace (Z.max e f - e) with (Zpos p) by lia. lia.
  - rewrite shr_record_of_loc_m.
    replace (Z.max e f - e) with 0 by lia. rewrite Z.div_1_r. lia.
Qed.

Lemma round_nearest_even_bounds (m : Z) (l : location) :
  m <= round_nearest_even m l <= m + 1.
Proof.
  destruct l as [|[]]; simpl; try lia.
  destruct (Z.even m); lia.
Qed.

(** The shape of a rounded result: the mantissa after the first shift is
    rounded up by at most one, then shifted once more when that carried. *)
Lemma binary_round_aux_spec (s : bool) (mx ex : Z) (lx : location) :
  0 <= mx ->
  exists mr e1 e2 : Z,
    e1 = Z.max ex (fexp F.prec F.emax (Zdigits2 mx + ex)) /\
    mx / 2 ^ (e1 - ex) <= mr <= mx / 2 ^ (e1 - ex) + 1 /\
    e2 = Z.max e1 (fexp F.prec F.emax (Zdigits2 mr + e1)) /\
    binary_round_aux F.prec F.emax s mx ex lx =
      match mr / 2 ^ (e2 - e1) with
      | Z0 => S754_zero s
      | Zpos m =>
          if e2 <=? F.emax - F.prec then S754_finite s m e2
          else S754_infinity s
      | Zneg _ => S754_nan
      end.
Proof.
  intros Hm. unfold binary_round_aux.
  pose proof (shr_fexp_spec mx ex lx Hm) as [H1 H2].
  destruct (shr_fexp F.prec F.emax mx ex lx) as [mrs' e'] eqn:E1.
  simpl fst in H1. simpl snd in H2.
  set (mr := round_nearest_even (shr_m mrs') (loc_of_shr_record mrs')).
  pose proof (round_nearest_even_bounds (shr_m mrs') (loc_of_shr_record mrs')) as Hr.
  fold mr in Hr.
  assert (Hq : 0 <= shr_m mrs').
  { rewrite H1. apply Z.div_pos; [assumption|]. apply Z.pow_pos_nonneg; lia. }
  assert (Hmr : 0 <= mr) by lia.
  pose proof (shr_fexp_spec mr e' loc_Exact Hmr) as [H3 H4].
  destruct (shr_fexp F.prec F.emax mr e' loc_Exact) as [mrs'' e''] eqn:E2.
  simpl fst in H3. simpl snd in H4.
  exists mr, e', e''.
  rewrite <- H2 in H1. rewrite <- H4 in H3.
  split; [exact H2|].
  split; [rewrite <- H1; exact Hr|].
  split; [exact H4|].
  rewrite H3. reflexivity.
Qed.

Lemma fexp_unfold (e : Z) : fexp F.prec F.emax e = Z.max (e - 53) (-1074).
Proof. reflexivity. Qed.

Lemma div_pow2_nonneg (m n : Z) : 0 <= m -> 0 <= m / 2 ^ n.
Proof.
  intros Hm. destruct (Z_lt_le_dec n 0) as [Hn|Hn].
  - rewrite Z.pow_neg_r by assumption. rewrite Z.div_0_r. lia.
  - apply Z.div_pos; [assumption|]. apply Z.pow_pos_nonneg; lia.
Qed.

(** Rounding keeps a number that is below [2 ^ k] below [2 ^ (k + 1)] and in
    range. *)
Lemma binary_round_aux_below (s : bool) (mx ex : Z) (lx : location) (k : Z) :
  0 <= mx -> Zdigits2 mx + ex <= k -> -1074 <= k <= 971 ->
  F.below (k + 1) (binary_round_aux F.prec F.emax s mx ex lx).
Proof.
  intros Hm HM Hk.
  destruct (binary_round_aux_spec s mx ex lx Hm)
    as (mr & e1 & e2 & He1 & Hmr & He2 & ->).
  rewrite fexp_unfold in He1, He2.
  pose proof (Zdigits2_nonneg mx) as Hd.
  assert (He1x : 0 <= e1 - ex) by lia.
  pose proof (Zdigits2_div_pow2 mx (e1 - ex) Hm He1x) as Hq.
  pose proof (div_pow2_nonneg mx (e1 - ex) Hm) as Hq0.
  set (q := mx / 2 ^ (e1 - ex)) in *.
  assert (Hdr : Zdigits2 mr <= Zdigits2 q + 1).
  { transitivity (Zdigits2 (q + 1)).
    - apply Zdigits2_mono; lia.
    - apply Zdigits2_succ_le; lia. }
  assert (Hmr0 : 0 <= mr) by lia.
  assert (He21 : 0 <= e2 - e1) by lia.
  pose proof (Zdigits2_div_pow2 mr (e2 - e1) Hmr0 He21) as Hd2.
  pose proof (div_pow2_nonneg mr (e2 - e1) Hmr0) as Hm2.
  destruct (mr / 2 ^ (e2 - e1)) as [|m|m] eqn:E.
  - exact I.
  - pose proof (Zdigits2_pos (Zpos m) ltac:(lia)) as Hp.
    assert (He2' : e2 <= 971) by lia.
    unfold F.emax, F.prec.
    replace (e2 <=? 1024 - 53) with true by (symmetry; apply Z.leb_le; lia).
    unfold F.below. lia.
  - lia.
Qed.

(** A number of magnitude at least [2 ^ -1074] does not round to zero. *)
Lemma binary_round_aux_lower (s : bool) (mx ex : Z) (lx : location) :
  0 < mx -> -1074 < Zdigits2 mx + ex ->
  match binary_round_aux F.prec F.emax s mx ex lx with
  | S754_finite s' m e => s' = s /\ Zdigits2 mx + ex <= Zdigits2 (Zpos m) + e
  | S754_infinity s' => s' = s
  | _ => False
  end.
Proof.
  intros Hm HM.
  destruct (binary_round_aux_spec s mx ex lx ltac:(lia))
    as (mr & e1 & e2 & He1 & Hmr & He2 & ->).
  rewrite fexp_unfold in He1, He2.
  pose proof (Zdigits2_pos mx Hm) as Hd.
  assert (He1x : 0 <= e1 - ex) by lia.
  pose proof (Zdigits2_div_pow2 mx (e1 - ex) ltac:(lia) He1x) as Hq.
  pose proof (div_pow2_nonneg mx (e1 - ex) ltac:(lia)) as Hq0.
  set (q := mx / 2 ^ (e1 - ex)) in *.
  assert (Hq1 : 0 < q).
  { destruct (Z.eq_dec q 0) as [E|E]; [|lia].
    rewrite E in Hq. simpl in Hq. lia. }
  assert (Hdr : Zdigits2 q <= Zdigits2 mr) by (apply Zdigits2_mono; lia).
  assert (Hmr0 : 0 <= mr) by lia.
  assert (He21 : 0 <= e2 - e1) by lia.
  pose proof (Zdigits2_div_pow2 mr (e2 - e1) Hmr0 He21) as Hd2.
  pose proof (div_pow2_nonneg mr (e2 - e1) Hmr0) as Hm2.
  pose proof (Zdigits2_pos mr ltac:(lia)) as Hdmr.
  destruct (mr / 2 ^ (e2 - e1)) as [|m|m] eqn:E.
  - simpl in Hd2. lia.
  - destruct (e2 <=? F.emax - F.prec); [|reflexivity].
    split; [reflexivity|]. lia.
  - lia.
Qed.

Lemma Zdigits2_mul_le (a b : Z) :
  0 < a -> 0 < b -> Zdigits2 (a * b) <= Zdigits2 a + Zdigits2 b.
Proof.
  intros Ha Hb.
  pose proof (Zdigits2_bounds a Ha) as [_ Hua].
  pose proof (Zdigits2_bounds b Hb) as [_ Hub].
  pose proof (Zdigits2_nonneg a). pose proof (Zdigits2_nonneg b).
  apply Zdigits2_le_of_lt; [nia|lia|].
  rewrite Z.pow_add_r by lia. nia.
Qed.

Lemma Zdigits2_mul_ge (a b : Z) :
  0 < a -> 0 < b -> Zdigits2 a + Zdigits2 b - 1 <= Zdigits2 (a * b).
Proof.
  intros Ha Hb.
  pose proof (Zdigits2_bounds a Ha) as [Hla _].
  pose proof (Zdigits2_bounds b Hb) as [Hlb _].
  pose proof (Zdigits2_pos a Ha). pose proof (Zdigits2_pos b Hb).
  assert (H2 : 2 ^ (Zdigits2 a - 1 + (Zdigits2 b - 1)) <= a * b).
  { rewrite Z.pow_add_r by lia.
    assert (0 < 2 ^ (Zdigits2 a - 1)) by (apply Z.pow_pos_nonneg; lia).
    assert (0 < 2 ^ (Zdigits2 b - 1)) by (apply Z.pow_pos_nonneg; lia).
    nia. }
  apply Zdigits2_ge_of_le in H2; lia.
Qed.

(** ** Left alignment and normalisation *)

Lemma shl_align_spec (mx : positive) (ex ex' : Z) :
  snd (shl_align mx ex ex') = Z.min ex ex' /\
  Zpos (fst (shl_align mx ex ex')) = Zpos mx * 2 ^ (ex - Z.min ex ex').
Proof.
  unfold shl_align. destruct (ex' - ex) as [|d|d] eqn:E; simpl fst; simpl snd.
  - replace (Z.min ex ex') with ex by lia.
    rewrite Z.sub_diag. simpl. lia.
  - replace (Z.min ex ex') with ex by lia.
    rewrite Z.sub_diag. simpl. lia.
  - replace (Z.min ex ex') with ex' by lia. split; [reflexivity|].
    change (Pos.iter xO mx d) with (shift_pos d mx).
    rewrite shift_pos_correct.
    replace (ex - ex') with (Zpos d) by lia.
    change (Z.pow_pos 2 d) with (2 ^ Zpos d). lia.
Qed.

Lemma shl_align_digits (mx : positive) (ex ex' : Z) :
  Zdigits2 (Zpos (fst (shl_align mx ex ex'))) + snd (shl_align mx ex ex')
  = Zdigits2 (Zpos mx) + ex.
Proof.
  destruct (shl_align_spec mx ex ex') as [H1 H2].
  rewrite H1, H2. rewrite Zdigits2_mul_pow2 by lia. lia.
Qed.

Lemma binary_round_below (s : bool) (mx : positive) (ex k : Z) :
  Zdigits2 (Zpos mx) + ex <= k -> -1074 <= k <= 971 ->
  F.below (k + 1) (binary_round F.prec F.emax s mx ex).
Proof.
  intros HM Hk. unfold binary_round.
  pose proof (shl_align_digits mx ex
                (fexp F.prec F.emax (Zpos (digits2_pos mx) + ex))) as Hd.
  destruct (shl_align mx ex (fexp F.prec F.emax (Zpos (digits2_pos mx) + ex)))
    as [mz ez].
  simpl fst in Hd. simpl snd in Hd.
  apply binary_round_aux_below; lia.
Qed.

Lemma binary_round_lower (s : bool) (mx : positive) (ex : Z) :
  -1074 < Zdigits2 (Zpos mx) + ex ->
  F.above (Zdigits2 (Zpos mx) + ex) (binary_round F.prec F.emax s mx ex) /\
  F.sign (binary_round F.prec F.emax s mx ex) = s.
Proof.
  intros HM. unfold binary_round.
  pose proof (shl_align_digits mx ex
                (fexp F.prec F.emax (Zpos (digits2_pos mx) + ex))) as Hd.
  destruct (shl_align mx ex (fexp F.prec F.emax (Zpos (digits2_pos mx) + ex)))
    as [mz ez].
  simpl fst in Hd. simpl snd in Hd.
  pose proof (binary_round_aux_lower s (Zpos mz) ez loc_Exact ltac:(lia) ltac:(lia)) as H.
  destruct (binary_round_aux F.prec F.emax s (Zpos mz) ez loc_Exact);
    unfold F.above, F.sign; try tauto.
  destruct H as [-> H]. split; [lia|reflexivity].
Qed.

Lemma Zdigits2_abs (m : Z) : Zdigits2 (Z.abs m) = Zdigits2 m.
Proof. destruct m; reflexivity. Qed.

Lemma binary_normalize_below (m e : Z) (sz : bool) (k : Z) :
  Zdigits2 m + e <= k -> -1074 <= k <= 971 ->
  F.below (k + 1) (binary_normalize F.prec F.emax m e sz).
Proof.
  intros HM Hk. destruct m as [|p|p]; simpl binary_normalize.
  - exact I.
  - apply binary_round_below; assumption.
  - apply binary_round_below; assumption.
Qed.

(** ** Conversions from [int] *)

Lemma float_of_int_below (z k : Z) :
  Zdigits2 z <= k -> 0 <= k <= 971 ->
  exists f, float_of_int z = Ok f /\ F.below (k + 1) f.
Proof.
  intros Hz Hk. unfold float_of_int.
  pose proof (binary_normalize_below z 0 false k ltac:(lia) ltac:(lia)) as H.
  destruct (binary_normalize F.prec F.emax z 0 false) as [s|s| |s m e] eqn:E;
    try contradiction; eexists; split; try reflexivity; exact H.
Qed.

Lemma float_of_int_pos (z k : Z) :
  0 < z -> Zdigits2 z <= k -> 0 <= k <= 971 ->
  exists m e, float_of_int z = Ok (S754_finite false m e) /\
    Zdigits2 z <= Zdigits2 (Zpos m) + e <= k + 1.
Proof.
  intros Hz Hd Hk.
  destruct (float_of_int_below z k Hd Hk) as (f & Hf & Hb).
  unfold float_of_int in *.
  destruct z as [|p|p]; try lia.
  simpl binary_normalize in *.
  pose proof (binary_round_lower false p 0
                ltac:(pose proof (Zdigits2_pos (Zpos p)); lia)) as [Ha Hs].
  destruct (binary_round F.prec F.emax false p 0) as [s|s| |s m e];
    try discriminate; try contradiction.
  injection Hf as <-. simpl in Hs. subst s.
  exists m, e. split; [reflexivity|].
  unfold F.above in Ha. unfold F.below in Hb. lia.
Qed.

(** ** Products and differences *)

Lemma mul_below (x y : F.float) (a b : Z) :
  F.below a x -> F.below b y -> -1074 <= a + b <= 971 ->
  F.below (a + b + 1) (F.mul x y).
Proof.
  intros Hx Hy Hk.
  destruct x as [sx|sx| |sx mx ex]; try contradiction;
    destruct y as [sy|sy| |sy my ey]; try contradiction;
    try exact I.
  unfold F.below in Hx, Hy.
  unfold F.mul, SFmul.
  apply binary_round_aux_below; try lia.
  rewrite Pos2Z.inj_mul.
  pose proof (Zdigits2_mul_le (Zpos mx) (Zpos my) ltac:(lia) ltac:(lia)). lia.
Qed.

Lemma mul_above (x y : F.float) (a b : Z) :
  F.above a x -> F.above b y -> -1074 < a + b - 1 ->
  F.above (a + b - 1) (F.mul x y).
Proof.
  intros Hx Hy Hk.
  destruct x as [sx|sx| |sx mx ex]; try contradiction;
    destruct y as [sy|sy| |sy my ey]; try contradiction;
    try exact I.
  unfold F.above in Hx, Hy.
  unfold F.mul, SFmul.
  pose proof (Zdigits2_mul_ge (Zpos mx) (Zpos my) ltac:(lia) ltac:(lia)) as Hd.
  pose proof (binary_round_aux_lower (xorb sx sy) (Zpos (mx * my)) (ex + ey)
                loc_Exact ltac:(lia)) as H.
  rewrite Pos2Z.inj_mul in H. specialize (H ltac:(lia)).
  rewrite Pos2Z.inj_mul.
  destruct (binary_round_aux F.prec F.emax (xorb sx sy) (Zpos mx * Zpos my)
              (ex + ey) loc_Exact); unfold F.above; try tauto.
  lia.
Qed.

Lemma above_not_zero (k : Z) (x : F.float) : F.above k x -> F.is_zero x = false.
Proof. destruct x; simpl; tauto. Qed.

Lemma below_finite (k : Z) (x : F.float) : F.below k x -> F.is_finite x = true.
Proof. destruct x; simpl; tauto. Qed.

Lemma below_not_inf (k : Z) (x : F.float) : F.below k x -> F.is_inf x = false.
Proof. destruct x; simpl; tauto. Qed.

Lemma below_weaken (k k' : Z) (x : F.float) : F.below k x -> k <= k' -> F.below k' x.
Proof. destruct x; simpl; try tauto. intros. lia. Qed.

Lemma aligned_lt (mx : positive) (ex ez a : Z) :
  ez <= ex -> Zdigits2 (Zpos mx) + ex <= a ->
  Zpos (fst (shl_align mx ex ez)) < 2 ^ (a - ez).
Proof.
  intros He Ha.
  destruct (shl_align_spec mx ex ez) as [_ H2]. rewrite H2.
  replace (Z.min ex ez) with ez by lia.
  pose proof (Zdigits2_bounds (Zpos mx) ltac:(lia)) as [_ Hu].
  pose proof (Zdigits2_pos (Zpos mx) ltac:(lia)).
  assert (Zpos mx * 2 ^ (ex - ez) < 2 ^ Zdigits2 (Zpos mx) * 2 ^ (ex - ez)).
  { apply Z.mul_lt_mono_pos_r; [apply Z.pow_pos_nonneg; lia|assumption]. }
  rewrite <- Z.pow_add_r in H0 by lia.
  eapply Z.lt_le_trans; [exact H0|]. apply Z.pow_le_mono_r; lia.
Qed.

Lemma sub_below (x y : F.float) (a b : Z) :
  F.below a x -> F.below b y -> -1074 <= Z.max a b <= 969 ->
  F.below (Z.max a b + 2) (F.sub x y).
Proof.
  intros Hx Hy Hk.
  destruct x as [sx|sx| |sx mx ex]; try contradiction;
    destruct y as [sy|sy| |sy my ey]; try contradiction.
  - destruct sx, sy; exact I.
  - change (F.sub (S754_zero sx) (S754_finite sy my ey))
      with (S754_finite (negb sy) my ey).
    unfold F.below in *. lia.
  - change (F.sub (S754_finite sx mx ex) (S754_zero sy))
      with (S754_finite sx mx ex).
    unfold F.below in *. lia.
  - unfold F.below in Hx, Hy. unfold F.sub, SFsub.
    set (ez := Z.min ex ey).
    pose proof (aligned_lt mx ex ez (Z.max a b) ltac:(lia) ltac:(lia)) as Hmx.
    pose proof (aligned_lt my ey ez (Z.max a b) ltac:(lia) ltac:(lia)) as Hmy.
    set (mx' := Zpos (fst (shl_align mx ex ez))) in *.
    set (my' := Zpos (fst (shl_align my ey ez))) in *.
    assert (Hx0 : 0 < mx') by (unfold mx'; lia).
    assert (Hy0 : 0 < my') by (unfold my'; lia).
    pose proof (Zdigits2_pos (Zpos mx) ltac:(lia)).
    set (d := cond_Zopp sx mx' - cond_Zopp sy my').
    assert (Hd : Z.abs d < 2 ^ (Z.max a b - ez + 1)).
    { rewrite Z.pow_add_r by lia. change (2 ^ 1) with 2.
      unfold d, cond_Zopp. destruct sx, sy; lia. }
    assert (Hdig : Zdigits2 d <= Z.max a b - ez + 1).
    { rewrite <- Zdigits2_abs. apply Zdigits2_le_of_lt; lia. }
    replace (Z.max a b + 2) with (Z.max a b + 1 + 1) by lia.
    apply binary_normalize_below; lia.
Qed.

(** ** Counts and lengths *)

Lemma count_bounds (x : Z) (l : list Z) : 0 <= count x l <= len l.
Proof.
  unfold count, len. pose proof (count_occ_bound Z.eq_dec x l). lia.
Qed.

Lemma len_nonneg {A : Type} (l : list A) : 0 <= len l.
Proof. unfold len. lia. Qed.

Lemma Zdigits2_maxsize (z : Z) : 0 <= z <= sys_maxsize -> Zdigits2 z <= 63.
Proof.
  intros [H0 H1]. apply Zdigits2_le_of_lt; try lia.
  unfold sys_maxsize in H1. lia.
Qed.

Lemma float_of_int_nearest (z : Z) (f : F.float) :
  float_of_int z = Ok f -> f = nearest z.
Proof.
  unfold float_of_int, nearest.
  destruct (binary_normalize F.prec F.emax z 0 false); congruence.
Qed.

(** ** The chi-square statistic raises nothing on a valid input *)

Lemma pow2_nearest_spec : pow2_spec pow2_nearest.
Proof.
  split; [reflexivity|].
  intros m e Hm. unfold pow2_nearest.
  apply (below_not_inf (480 + 480 + 1)).
  apply mul_below; unfold F.below; lia.
Qed.

Lemma float_pow2_square (pow2 : F.float -> F.float) (x : F.float) :
  pow2_spec pow2 -> F.below 480 x ->
  float_pow2 pow2 x = Ok (square pow2 x).
Proof.
  intros [_ Hfin] Hx.
  destruct x as [s|s| |s m e]; try contradiction; try reflexivity.
  unfold float_pow2, square. cbn [F.abs SFabs].
  destruct (SFeqb (S754_finite false m e) F.one); [reflexivity|].
  specialize (Hfin m e Hx).
  destruct (pow2 (S754_finite false m e)); try reflexivity; discriminate.
Qed.

Lemma chi_square_term_ok (pow2 : F.float -> F.float) (c : Z) (e : F.float) :
  pow2_spec pow2 ->
  0 <= c <= sys_maxsize -> F.below 66 e -> F.is_zero e = false ->
  chi_square_term pow2 c e =
    Ok (F.div (square pow2 (F.sub (nearest c) e)) e).
Proof.
  intros Hpow Hc He Hz. unfold chi_square_term.
  destruct (float_of_int_below c 63 (Zdigits2_maxsize c Hc) ltac:(lia))
    as (fc & Hfc & Hb).
  rewrite Hfc. simpl bind.
  apply float_of_int_nearest in Hfc. subst fc.
  pose proof (sub_below (nearest c) e 64 66 Hb He ltac:(lia)) as Hd.
  change (Z.max 64 66 + 2) with 68 in Hd.
  rewrite (float_pow2_square pow2 _ Hpow)
    by (eapply below_weaken; [exact Hd|lia]).
  simpl bind.
  unfold float_truediv. rewrite Hz. reflexivity.
Qed.

(** ** Comparisons of canonical doubles *)

Lemma valid_finite (s : bool) (m : positive) (e : Z) :
  F.valid (S754_finite s m e) = true ->
  Z.max (Zdigits2 (Zpos m) + e - 53) (-1074) = e /\ e <= 971.
Proof.
  unfold F.valid, valid_binary, bounded, canonical_mantissa.
  rewrite andb_true_iff, Z.eqb_eq, Z.leb_le, fexp_unfold.
  unfold F.emax, F.prec. change (Zpos (digits2_pos m)) with (Zdigits2 (Zpos m)).
  lia.
Qed.

Lemma ltb_zero_finite (s : bool) (m : positive) (e : Z) :
  F.ltb F.zero (S754_finite s m e) = true -> s = false.
Proof. destruct s; cbv; congruence. Qed.

Lemma pos_compare_cont_eq (a b : positive) :
  Pos.compare_cont Eq a b = (Zpos a ?= Zpos b).
Proof. reflexivity. Qed.

(** A canonical double strictly between 0 and 1. *)
Lemma prob_range (p : F.float) :
  F.valid p = true -> F.ltb F.zero p = true -> F.ltb p F.one = true ->
  F.below 0 p /\ F.above (-1073) p.
Proof.
  intros Hv H0 H1.
  destruct p as [s|s| |s m e]; try (destruct s; discriminate); try discriminate.
  apply ltb_zero_finite in H0. subst s.
  apply valid_finite in Hv. destruct Hv as [Hc He].
  pose proof (Zdigits2_pos (Zpos m) ltac:(lia)) as Hd.
  unfold F.ltb, SFltb, SFcompare, F.one in H1.
  rewrite pos_compare_cont_eq in H1.
  unfold F.below, F.above.
  destruct (Z.compare_spec e (-52)) as [E|E|E]; try discriminate.
  - destruct (Z.compare_spec (Zpos m) 4503599627370496) as [E'|E'|E'];
      try discriminate.
    assert (Zdigits2 (Zpos m) <= 52) by (apply Zdigits2_le_of_lt; lia).
    lia.
  - lia.
Qed.

Lemma chi_square_statistic_ok (pow2 : F.float -> F.float) (l : list Z)
    (p : F.float) :
  pow2_spec pow2 -> 0 < len l <= sys_maxsize ->
  F.valid p = true -> F.ltb F.zero p = true -> F.ltb p F.one = true ->
  chi_square_statistic_of pow2 l p = Ok (chi_square_formula pow2 l p).
Proof.
  intros Hpow Hl Hv H0 H1.
  destruct (prob_range p Hv H0 H1) as [Hpb Hpa].
  unfold chi_square_statistic_of, chi_square_formula.
  destruct (float_of_int_pos (len l) 63 ltac:(lia)
              (Zdigits2_maxsize (len l) ltac:(lia)) ltac:(lia))
    as (mt & et & Ht & Hmag).
  pose proof (Zdigits2_pos (len l) ltac:(lia)) as Hdl.
  rewrite Ht. simpl bind.
  apply float_of_int_nearest in Ht. rewrite <- Ht.
  set (e := F.mul (S754_finite false mt et) p).
  assert (Heb : F.below 65 e).
  { apply (mul_below (S754_finite false mt et) p 64 0); try assumption; try lia.
    unfold F.below. lia. }
  assert (Hea : F.above (-1073) e).
  { replace (-1073) with (1 + -1073 - 1) by lia.
    apply (mul_above (S754_finite false mt et) p 1 (-1073)); try assumption; try lia.
    unfold F.above. lia. }
  pose proof (above_not_zero _ _ Hea) as Hez.
  pose proof (count_bounds 0 l). pose proof (count_bounds 1 l).
  assert (Heb' : F.below 66 e) by (eapply below_weaken; [exact Heb|lia]).
  rewrite !(chi_square_term_ok pow2) by (try assumption; lia).
  reflexivity.
Qed.

(** ** Exact cases of rounding *)

Lemma shr_1_double (z : Z) :
  0 <= z ->
  shr_1 {| shr_m := 2 * z; shr_r := false; shr_s := false |}
  = {| shr_m := z; shr_r := false; shr_s := false |}.
Proof. destruct z as [|p|p]; try lia; reflexivity. Qed.

Lemma shr_iter_exact (p : positive) :
  forall z, 0 <= z ->
    iter_pos shr_1 p {| shr_m := z * 2 ^ Zpos p; shr_r := false; shr_s := false |}
    = {| shr_m := z; shr_r := false; shr_s := false |}.
Proof.
  induction p as [p IH|p IH|]; intros z Hz; cbn [iter_pos].
  - assert (Hp : 0 < 2 ^ Zpos p) by (apply Z.pow_pos_nonneg; lia).
    replace (z * 2 ^ Zpos p~1) with (2 * (z * 2 ^ Zpos p * 2 ^ Zpos p)).
    + rewrite shr_1_double by nia. rewrite IH by nia. apply IH; assumption.
    + rewrite Pos2Z.inj_xI.
      replace (2 * Zpos p + 1) with (1 + Zpos p + Zpos p) by lia.
      rewrite !Z.pow_add_r by lia. change (2 ^ 1) with 2. ring.
  - assert (Hp : 0 < 2 ^ Zpos p) by (apply Z.pow_pos_nonneg; lia).
    replace (z * 2 ^ Zpos p~0) with (z * 2 ^ Zpos p * 2 ^ Zpos p).
    + rewrite IH by nia. apply IH; assumption.
    + rewrite <- Z.mul_assoc, <- Z.pow_add_r by lia. do 2 f_equal. lia.
  - change (2 ^ 1) with 2. rewrite Z.mul_comm. apply shr_1_double; assumption.
Qed.

(** A mantissa that is canonical once [n] trailing zero bits are dropped
    is returned as it is. *)
Lemma binary_round_aux_exact (s : bool) (m : positive) (e n : Z) :
  0 <= n ->
  Z.max (Zdigits2 (Zpos m) + n + e - 53) (-1074) = e + n ->
  e + n <= 971 ->
  binary_round_aux F.prec F.emax s (Zpos m * 2 ^ n) e loc_Exact
  = S754_finite s m (e + n).
Proof.
  intros Hn Hc He.
  unfold binary_round_aux, shr_fexp.
  rewrite Zdigits2_mul_pow2 by lia.
  rewrite fexp_unfold.
  replace (Z.max (Zdigits2 (Zpos m) + n + e - 53) (-1074) - e) with n by lia.
  assert (Hfst : shr (shr_record_of_loc (Zpos m * 2 ^ n) loc_Exact) e n
                 = ({| shr_m := Zpos m; shr_r := false; shr_s := false |}, e + n)).
  { unfold shr. destruct n as [|p|p]; try lia.
    - rewrite Z.mul_1_r, Z.add_0_r. reflexivity.
    - unfold shr_record_of_loc. rewrite shr_iter_exact by lia. reflexivity. }
  rewrite Hfst.
  cbn [shr_m loc_of_shr_record round_nearest_even].
  rewrite fexp_unfold.
  replace (Z.max (Zdigits2 (Zpos m) + (e + n) - 53) (-1074) - (e + n)) with 0 by lia.
  cbn [shr shr_record_of_loc shr_m].
  unfold F.emax, F.prec.
  replace (e + n <=? 1024 - 53) with true by (symmetry; apply Z.leb_le; lia).
  reflexivity.
Qed.

(** An integer of at most 53 bits in the normal range is normalised
    without rounding. *)
Lemma binary_round_exact (s : bool) (m : positive) (e : Z) :
  Zdigits2 (Zpos m) <= 53 ->
  -1074 <= Zdigits2 (Zpos m) + e - 53 <= 971 ->
  exists mz : positive,
    Zpos mz = Zpos m * 2 ^ (53 - Zdigits2 (Zpos m)) /\
    binary_round F.prec F.emax s m e
    = S754_finite s mz (Zdigits2 (Zpos m) + e - 53).
Proof.
  intros Hd He. unfold binary_round.
  change (Zpos (digits2_pos m)) with (Zdigits2 (Zpos m)).
  rewrite fexp_unfold.
  replace (Z.max (Zdigits2 (Zpos m) + e - 53) (-1074))
    with (Zdigits2 (Zpos m) + e - 53) by lia.
  set (e' := Zdigits2 (Zpos m) + e - 53).
  destruct (shl_align_spec m e e') as [H1 H2].
  pose proof (shl_align_digits m e e') as H3.
  destruct (shl_align m e e') as [mz ez]. simpl fst in *. simpl snd in *.
  replace (Z.min e e') with e' in * by lia. subst ez.
  exists mz. split.
  - rewrite H2. f_equal. f_equal. lia.
  - pose proof (binary_round_aux_exact s mz e' 0 ltac:(lia)) as H.
    rewrite Z.mul_1_r, !Z.add_0_r in H. apply H; lia.
Qed.

Lemma mul_two_exact (m : positive) (e : Z) :
  Zdigits2 (Zpos m) = 53 -> -1075 <= e <= 970 ->
  F.mul F.two (S754_finite false m e) = S754_finite false m (e + 1).
Proof.
  intros Hd He. unfold F.mul, F.two, SFmul.
  change (xorb false false) with false.
  rewrite Pos2Z.inj_mul, Z.mul_comm.
  change (Zpos 4503599627370496) with (2 ^ 52).
  rewrite binary_round_aux_exact by lia.
  f_equal. lia.
Qed.

(** [1.0 - c] on a canonical double [c] of [[0.5, 1)] is exact. *)
Lemma sub_one_exact (m : positive) :
  Zpos m < 2 ^ 53 ->
  exists r : positive,
    Zpos r = 2 ^ 53 - Zpos m /\
    F.sub F.one (S754_finite false m (-53))
    = binary_round F.prec F.emax false r (-53).
Proof.
  intros Hm.
  destruct (2 ^ 53 - Zpos m) as [|r|r] eqn:E; try lia.
  exists r. split; [reflexivity|].
  unfold F.sub, F.one, SFsub.
  change (Z.min (-52) (-53)) with (-53).
  change (fst (shl_align 4503599627370496 (-52) (-53))) with 9007199254740992%positive.
  change (fst (shl_align m (-53) (-53))) with m.
  unfold cond_Zopp.
  change (Zpos 9007199254740992) with (2 ^ 53).
  rewrite E. reflexivity.
Qed.

(** ** One minus a probability close to one *)

Lemma close_to_one_shape (c : F.float) (c0 : positive) :
  F.valid c = true ->
  F.leb (S754_finite false c0 (-53)) c = true ->
  F.leb c F.one = true ->
  c = F.one \/
  exists m, c = S754_finite false m (-53) /\ Zpos c0 <= Zpos m < 2 ^ 53.
Proof.
  intros Hv H0 H1.
  destruct c as [s|s| |s m e]; try (destruct s; discriminate); try discriminate.
  destruct s; try discriminate.
  apply valid_finite in Hv. destruct Hv as [Hc He].
  unfold F.leb, SFleb, SFcompare, F.one in H0, H1.
  rewrite pos_compare_cont_eq in H0, H1.
  pose proof (Zdigits2_bounds (Zpos m) ltac:(lia)) as [Hl Hu].
  destruct (Z.compare_spec e (-52)) as [E|E|E]; try discriminate.
  - left. subst e.
    destruct (Z.compare_spec (Zpos m) 4503599627370496) as [E'|E'|E'];
      try discriminate.
    + injection E' as ->. reflexivity.
    + exfalso.
      assert (Hd : Zdigits2 (Zpos m) = 53) by lia.
      rewrite Hd in Hl. change (2 ^ (53 - 1)) with 4503599627370496 in Hl. lia.
  - destruct (Z.compare_spec (-53) e) as [E0|E0|E0]; try discriminate; try lia.
    right. subst e.
    destruct (Z.compare_spec (Zpos c0) (Zpos m)) as [E'|E'|E'];
      try discriminate; exists m; (split; [reflexivity|]);
      assert (Hd : Zdigits2 (Zpos m) = 53) by lia;
      rewrite Hd in Hu; lia.
Qed.

Lemma one_minus_small (c : F.float) (c0 : positive) (k : Z) :
  F.valid c = true ->
  F.leb (S754_finite false c0 (-53)) c = true ->
  F.leb c F.one = true ->
  2 ^ 53 - Zpos c0 < 2 ^ k -> 1 <= k <= 53 ->
  F.sub F.one c = S754_zero false \/
  exists m e, F.sub F.one c = S754_finite false m e /\
    Zdigits2 (Zpos m) = 53 /\ -105 <= e <= k - 106.
Proof.
  intros Hv H0 H1 Hk Hk'.
  destruct (close_to_one_shape c c0 Hv H0 H1) as [->|(m & -> & Hm)].
  - left. reflexivity.
  - right.
    destruct (sub_one_exact m ltac:(lia)) as (r & Hr & ->).
    assert (Hdr : Zdigits2 (Zpos r) <= k) by (apply Zdigits2_le_of_lt; lia).
    pose proof (Zdigits2_pos (Zpos r) ltac:(lia)) as Hd1.
    destruct (binary_round_exact false r (-53) ltac:(lia) ltac:(lia))
      as (mz & Hmz & ->).
    exists mz, (Zdigits2 (Zpos r) + -53 - 53). split; [reflexivity|].
    split; [|lia].
    rewrite Hmz. rewrite Zdigits2_mul_pow2 by lia. lia.
Qed.

Lemma small_not_above_0_05 (x : F.float) :
  (x = S754_zero false \/
   exists m e, x = S754_finite false m e /\ e <= -58) ->
  float_gt x F.c0_05 = false.
Proof.
  intros [->|(m & e & -> & He)]; [reflexivity|].
  unfold float_gt, F.ltb, SFltb, SFcompare, F.c0_05.
  destruct (Z.compare_spec (-57) e) as [E|E|E]; try lia; reflexivity.
Qed.

(** [1 - c] does not exceed 0.05 when [c] is a double of [[0.97, 1]]. *)
Lemma chi_p_value_small (c : F.float) :
  F.valid c = true -> F.leb F.c0_97 c = true -> F.leb c F.one = true ->
  float_gt (F.sub F.one c) F.c0_05 = false.
Proof.
  intros Hv H0 H1. apply small_not_above_0_05.
  destruct (one_minus_small c _ 48 Hv H0 H1 ltac:(lia) ltac:(lia))
    as [->|(m & e & -> & Hd & He)]; [left; reflexivity|].
  right. exists m, e. split; [reflexivity|lia].
Qed.

(** [2 * (1 - c)] does not exceed 0.05 when [c] is a double of
    [[0.985, 1]]. *)
Lemma runs_p_value_small (c : F.float) :
  F.valid c = true -> F.leb F.c0_985 c = true -> F.leb c F.one = true ->
  float_gt (F.mul F.two (F.sub F.one c)) F.c0_05 = false.
Proof.
  intros Hv H0 H1. apply small_not_above_0_05.
  destruct (one_minus_small c _ 47 Hv H0 H1 ltac:(lia) ltac:(lia))
    as [->|(m & e & -> & Hd & He)]; [left; reflexivity|].
  right. rewrite mul_two_exact by lia.
  exists m, (e + 1). split; [reflexivity|lia].
Qed.

Lemma chi2_cdf_step_spec : chi2_cdf_spec chi2_cdf_step.
Proof.
  split; [reflexivity|].
  intros x Hx. unfold chi2_cdf_step. rewrite Hx.
  destruct x; try discriminate; simpl F.is_nan; cbv iota;
    repeat split; reflexivity.
Qed.

Lemma norm_cdf_step_spec : norm_cdf_spec norm_cdf_step.
Proof.
  split; [reflexivity|].
  intros x Hx. unfold norm_cdf_step. rewrite Hx.
  destruct x; try discriminate; simpl F.is_nan; cbv iota;
    repeat split; reflexivity.
Qed.

(** ** Quotients *)

Lemma Zdigits2_div_le (a b : Z) :
  0 <= a -> 0 < b -> Zdigits2 (a / b) <= Z.max 0 (Zdigits2 a - Zdigits2 b + 1).
Proof.
  intros Ha Hb.
  pose proof (Zdigits2_bounds b Hb) as [Hl _].
  pose proof (Zdigits2_pos b Hb) as Hd.
  assert (H2 : 0 < 2 ^ (Zdigits2 b - 1)) by (apply Z.pow_pos_nonneg; lia).
  replace (Zdigits2 a - Zdigits2 b + 1) with (Zdigits2 a - (Zdigits2 b - 1)) by lia.
  rewrite <- (Zdigits2_div_pow2 a (Zdigits2 b - 1)) by lia.
  apply Zdigits2_mono. split.
  - apply Z.div_pos; lia.
  - apply Z.div_le_compat_l; lia.
Qed.

Lemma div_core_spec (m1 e1 m2 e2 : Z) :
  0 < m1 -> 0 < m2 ->
  exists q e' l,
    SFdiv_core_binary F.prec F.emax m1 e1 m2 e2 = (q, e', l) /\
    0 <= q /\
    e' <= fexp F.prec F.emax (Zdigits2 m1 + e1 - (Zdigits2 m2 + e2)) /\
    Zdigits2 q + e' <= Z.max e' (Zdigits2 m1 + e1 - (Zdigits2 m2 + e2) + 1).
Proof.
  intros H1 H2. unfold SFdiv_core_binary.
  set (e' := Z.min (fexp F.prec F.emax (Zdigits2 m1 + e1 - (Zdigits2 m2 + e2)))
                   (e1 - e2)).
  set (sh := e1 - e2 - e').
  assert (Hsh : 0 <= sh) by (unfold sh, e'; lia).
  set (m' := match sh with
             | 0 => m1
             | Zpos _ => Z.shiftl m1 sh
             | Zneg _ => 0
             end).
  assert (Hm' : m' = m1 * 2 ^ sh).
  { unfold m'. destruct sh as [|p|p] eqn:E; try lia.
    apply Z.shiftl_mul_pow2. lia. }
  assert (Hm'0 : 0 < m').
  { rewrite Hm'. apply Z.mul_pos_pos; [assumption|]. apply Z.pow_pos_nonneg; lia. }
  pose proof (Z_div_mod m' m2 ltac:(lia)) as Hdm.
  unfold Z.div in *.
  pose proof (Zdigits2_div_le m' m2 ltac:(lia) H2) as Hq.
  pose proof (Z.div_pos m' m2 ltac:(lia) H2) as Hq0.
  unfold Z.div in Hq, Hq0.
  destruct (Z.div_eucl m' m2) as [q r].
  exists q, e', (new_location m2 r).
  split; [reflexivity|]. split; [exact Hq0|]. split; [unfold e'; lia|].
  rewrite Hm', Zdigits2_mul_pow2 in Hq by lia.
  unfold sh in Hq. lia.
Qed.

Lemma div_core_below (s : bool) (m1 e1 m2 e2 k : Z) :
  0 < m1 -> 0 < m2 ->
  Zdigits2 m1 + e1 - (Zdigits2 m2 + e2) + 1 <= k -> -1074 <= k <= 971 ->
  F.below (k + 1)
    (let '(q, e', l) := SFdiv_core_binary F.prec F.emax m1 e1 m2 e2 in
     binary_round_aux F.prec F.emax s q e' l).
Proof.
  intros H1 H2 Hk Hk'.
  destruct (div_core_spec m1 e1 m2 e2 H1 H2) as (q & e' & l & -> & Hq & He & Hd).
  rewrite fexp_unfold in He.
  apply binary_round_aux_below; lia.
Qed.

Lemma int_truediv_below (a b k : Z) :
  b <> 0 -> Zdigits2 a - Zdigits2 b + 1 <= k -> -1074 <= k <= 971 ->
  exists f, int_truediv a b = Ok f /\ F.below (k + 1) f.
Proof.
  intros Hb Hk Hk'. unfold int_truediv.
  replace (b =? 0) with false by (symmetry; apply Z.eqb_neq; assumption).
  destruct (a =? 0) eqn:Ea.
  - eexists. split; [reflexivity|exact I].
  - apply Z.eqb_neq in Ea.
    pose proof (div_core_below (xorb (a <? 0) (b <? 0)) (Z.abs a) 0 (Z.abs b) 0 k
                  ltac:(lia) ltac:(lia)) as H.
    rewrite !Zdigits2_abs in H. specialize (H ltac:(lia) Hk').
    destruct (SFdiv_core_binary F.prec F.emax (Z.abs a) 0 (Z.abs b) 0)
      as [[q e'] l].
    destruct (binary_round_aux F.prec F.emax (xorb (a <? 0) (b <? 0)) q e' l);
      try contradiction; eexists; split; try reflexivity; exact H.
Qed.

Lemma div_below (x y : F.float) (a b : Z) :
  F.below a x -> F.above b y -> F.is_inf y = false ->
  -1074 <= a - b + 1 <= 971 ->
  F.below (a - b + 2) (F.div x y).
Proof.
  intros Hx Hy Hi Hk.
  destruct y as [sy|sy| |sy my ey]; try contradiction; try discriminate.
  destruct x as [sx|sx| |sx mx ex]; try contradiction; [exact I|].
  unfold F.below in Hx. unfold F.above in Hy.
  unfold F.div, SFdiv.
  replace (a - b + 2) with (a - b + 1 + 1) by lia.
  apply div_core_below; lia.
Qed.

(** * Runs *)

Lemma changes_cons2 (x y : Z) (l : list Z) :
  changes (x :: y :: l) = (if x =? y then 0 else 1) + changes (y :: l).
Proof. reflexivity. Qed.

Lemma fold_runs_shift (x : Z) (l : list Z) (s : list nat) :
  forall acc, (forall i, In i s -> (1 <= i)%nat) ->
    fold_left
      (fun runs i =>
         if nth i (x :: l) 0 =? nth (i - 1) (x :: l) 0 then runs else runs + 1)
      (map S s) acc
    = fold_left
        (fun runs i => if nth i l 0 =? nth (i - 1) l 0 then runs else runs + 1)
        s acc.
Proof.
  induction s as [|i s IH]; intros acc Hs; [reflexivity|].
  cbn [map fold_left].
  assert (Hi : (1 <= i)%nat) by (apply Hs; left; reflexivity).
  replace (S i - 1)%nat with (S (i - 1)) by lia.
  cbn [nth].
  destruct i as [|i]; [lia|].
  apply IH. intros j Hj. apply Hs. right. exact Hj.
Qed.

Lemma count_runs_acc (l : list Z) :
  forall acc,
    fold_left
      (fun runs i => if nth i l 0 =? nth (i - 1) l 0 then runs else runs + 1)
      (seq 1 (List.length l - 1)) acc
    = acc + changes l.
Proof.
  induction l as [|x l IH]; intros acc; [simpl; lia|].
  destruct l as [|y l].
  - simpl. lia.
  - replace (List.length (x :: y :: l) - 1)%nat with (S (List.length l))
      by (simpl; lia).
    cbn [seq fold_left].
    change (nth 1 (x :: y :: l) 0) with y.
    change (nth (1 - 1) (x :: y :: l) 0) with x.
    rewrite <- seq_shift.
    rewrite fold_runs_shift
      by (intros i Hi; apply in_seq in Hi; lia).
    replace (List.length l) with (List.length (y :: l) - 1)%nat
      by (simpl; lia).
    rewrite IH, changes_cons2.
    rewrite (Z.eqb_sym y x). destruct (x =? y); lia.
Qed.

Lemma count_runs_changes (l : list Z) : count_runs l = 1 + changes l.
Proof. unfold count_runs. apply count_runs_acc. Qed.

Lemma changes_bounds (l : list Z) : 0 <= changes l <= Z.max 0 (len l - 1).
Proof.
  unfold len. induction l as [|x l IH]; [simpl; lia|].
  destruct l as [|y l]; [simpl; lia|].
  rewrite changes_cons2. cbn [List.length] in *.
  destruct (x =? y); lia.
Qed.

Lemma count_cons (x y : Z) (l : list Z) :
  count x (y :: l) = (if y =? x then 1 else 0) + count x l.
Proof.
  unfold count. cbn [count_occ].
  destruct (Z.eq_dec y x) as [E|E].
  - rewrite (proj2 (Z.eqb_eq y x) E). lia.
  - rewrite (proj2 (Z.eqb_neq y x) E). lia.
Qed.

Lemma BitSequence_counts (l : list Z) :
  BitSequence l -> count 0 l + count 1 l = len l.
Proof.
  induction 1 as [|b l Hb _ IH]; [reflexivity|].
  rewrite !count_cons. unfold len in *. cbn [List.length].
  destruct Hb as [-> | ->]; simpl Z.eqb; lia.
Qed.

Lemma no_ones_changes (l : list Z) :
  BitSequence l -> count 1 l = 0 -> changes l = 0.
Proof.
  induction 1 as [|b l Hb Hl IH]; [reflexivity|].
  rewrite count_cons. intros Hc.
  pose proof (count_bounds 1 l) as Hb1.
  destruct Hb as [-> | ->]; simpl Z.eqb in Hc; [|lia].
  destruct Hl as [|c l Hc' Hl]; [reflexivity|].
  rewrite count_cons in Hc, IH.
  pose proof (count_bounds 1 l).
  destruct Hc' as [-> | ->]; simpl Z.eqb in Hc; [|lia].
  rewrite changes_cons2. simpl Z.eqb. rewrite IH by (simpl Z.eqb; lia). reflexivity.
Qed.

Lemma no_zeros_changes (l : list Z) :
  BitSequence l -> count 0 l = 0 -> changes l = 0.
Proof.
  induction 1 as [|b l Hb Hl IH]; [reflexivity|].
  rewrite count_cons. intros Hc.
  pose proof (count_bounds 0 l) as Hb1.
  destruct Hb as [-> | ->]; simpl Z.eqb in Hc; [lia|].
  destruct Hl as [|c l Hc' Hl]; [reflexivity|].
  rewrite count_cons in Hc, IH.
  pose proof (count_bounds 0 l).
  destruct Hc' as [-> | ->]; simpl Z.eqb in Hc; [lia|].
  rewrite changes_cons2. simpl Z.eqb. rewrite IH by (simpl Z.eqb; lia). reflexivity.
Qed.

(** * The runs test on degenerate inputs *)

Lemma int_truediv_zero_l (b : Z) :
  0 < b -> int_truediv 0 b = Ok F.zero.
Proof.
  intros Hb. unfold int_truediv.
  replace (b =? 0) with false by (symmetry; apply Z.eqb_neq; lia).
  replace (b <? 0) with false by (symmetry; apply Z.ltb_ge; lia).
  reflexivity.
Qed.

Lemma runs_statistic_short (l : list Z) :
  len l < 2 -> runs_statistic l = Raise ZeroDivisionError.
Proof.
  destruct l as [|x [|y l]]; unfold len; cbn [List.length]; try lia; intros _.
  - reflexivity.
  - unfold runs_statistic. rewrite !count_cons.
    destruct (x =? 0), (x =? 1); reflexivity.
Qed.

Lemma runs_statistic_single_valued (l : list Z) :
  2 <= len l -> BitSequence l -> count 0 l = 0 \/ count 1 l = 0 ->
  runs_statistic l = Ok (1, F.one, S754_nan).
Proof.
  intros Hl Hb Hc. unfold runs_statistic.
  assert (Hch : changes l = 0)
    by (destruct Hc; [apply no_zeros_changes|apply no_ones_changes]; assumption).
  rewrite count_runs_changes, Hch.
  assert (Hp : 2 * count 0 l * count 1 l = 0) by (destruct Hc as [-> | ->]; lia).
  rewrite Hp. rewrite Z.mul_0_l.
  rewrite int_truediv_zero_l by lia. cbn [bind].
  rewrite int_truediv_zero_l by nia.
  reflexivity.
Qed.

Lemma runs_test_of_statistic (norm_cdf : F.float -> F.float) (l : list Z)
    (runs : Z) (expected z : F.float) :
  runs_statistic l = Ok (runs, expected, z) ->
  runs_test norm_cdf l =
    Ok {| Runs.runs_count := runs;
          Runs.expected_runs := expected;
          Runs.z_score := z;
          Runs.p_value := F.mul F.two (F.sub F.one (norm_cdf (F.abs z)));
          Runs.passes_test :=
            float_gt (F.mul F.two (F.sub F.one (norm_cdf (F.abs z)))) F.c0_05;
          Runs.interpretation :=
            if float_gt (F.mul F.two (F.sub F.one (norm_cdf (F.abs z)))) F.c0_05
            then "Random"%string else "Clustered"%string |}.
Proof. intros H. unfold runs_test. rewrite H. reflexivity. Qed.

Lemma runs_test_raises (norm_cdf : F.float -> F.float) (l : list Z) (e : exn) :
  runs_statistic l = Raise e -> runs_test norm_cdf l = Raise e.
Proof. intros H. unfold runs_test. rewrite H. reflexivity. Qed.

(** C1, as the code has it: the runs test raises [ZeroDivisionError] on a
    sequence shorter than two; on a single-valued bit sequence of length
    at least two it raises nothing and returns one run, an expectation of
    1.0 and a NaN z-score, hence (the normal distribution function answering
    NaN with NaN) a NaN p-value, a failed test and the label [Clustered]. *)
Theorem runs_test_degenerate_inputs :
  forall (norm_cdf : F.float -> F.float) (l : list Z),
    (len l < 2 -> runs_test norm_cdf l = Raise ZeroDivisionError) /\
    (2 <= len l -> BitSequence l -> count 0 l = 0 \/ count 1 l = 0 ->
     exists r,
       runs_test norm_cdf l = Ok r /\
       Runs.runs_count r = 1 /\
       Runs.expected_runs r = F.one /\
       Runs.z_score r = S754_nan /\
       (norm_cdf S754_nan = S754_nan ->
        Runs.p_value r = S754_nan /\
        Runs.passes_test r = false /\
        Runs.interpretation r = "Clustered"%string)).
Proof.
  intros norm_cdf l. split.
  - intros Hl. apply runs_test_raises, runs_statistic_short, Hl.
  - intros Hl Hb Hc.
    pose proof (runs_statistic_single_valued l Hl Hb Hc) as Hs.
    eexists. split; [apply runs_test_of_statistic; exact Hs|].
    cbn [Runs.runs_count Runs.expected_runs Runs.z_score Runs.p_value
         Runs.passes_test Runs.interpretation F.abs SFabs].
    repeat split. all: rewrite H; reflexivity.
Qed.

Lemma runs_test_degenerate_inputs_witness :
  runs_test norm_cdf_step [] = Raise ZeroDivisionError /\
  exists r,
    runs_test norm_cdf_step [0; 0; 0] = Ok r /\
    Runs.runs_count r = 1 /\
    Runs.expected_runs r = F.one /\
    Runs.z_score r = S754_nan /\
    (norm_cdf_step S754_nan = S754_nan ->
     Runs.p_value r = S754_nan /\
     Runs.passes_test r = false /\
     Runs.interpretation r = "Clustered"%string).
Proof.
  split.
  - apply (proj1 (runs_test_degenerate_inputs norm_cdf_step [])).
    vm_compute. reflexivity.
  - apply (proj2 (runs_test_degenerate_inputs norm_cdf_step [0; 0; 0])).
    + vm_compute. discriminate.
    + repeat (constructor; [lia|]); constructor.
    + right. reflexivity.
Defined.

(** C1 fails as stated: on the all-zero sequence [[0; 0]] the runs test
    raises nothing at all, and its z-score is NaN. *)
Lemma runs_test_all_zero_returns_nan :
  runs_statistic [0; 0] = Ok (1, F.one, S754_nan) /\
  ~ (exists norm_cdf e, runs_test norm_cdf [0; 0] = Raise e).
Proof.
  split; [vm_compute; reflexivity|].
  intros (norm_cdf & e & H).
  rewrite (runs_test_of_statistic norm_cdf [0; 0] 1 F.one S754_nan) in H
    by (vm_compute; reflexivity).
  discriminate.
Qed.

(** * The chi-square test *)

Lemma chi_square_test_of_statistic (chi2_cdf pow2 : F.float -> F.float)
    (l : list Z) (p stat : F.float) :
  chi_square_statistic_of pow2 l p = Ok stat ->
  chi_square_test chi2_cdf pow2 l p =
    Ok {| ChiSquare.chi_square_statistic := stat;
          ChiSquare.p_value := F.sub F.one (chi2_cdf stat);
          ChiSquare.passes_test :=
            float_gt (F.sub F.one (chi2_cdf stat)) F.c0_05;
          ChiSquare.interpretation :=
            if float_gt (F.sub F.one (chi2_cdf stat)) F.c0_05
            then "Random"%string else "Not random"%string |}.
Proof. intros H. unfold chi_square_test. rewrite H. reflexivity. Qed.

Lemma sub_one_zero (x : F.float) :
  F.is_zero x = true -> F.sub F.one x = F.one.
Proof. destruct x as [[]|[]| |]; try discriminate; reflexivity. Qed.

(** Where the correctly rounded square of a double is the square itself,
    it is what [pow] returns. *)
Lemma pow2_exact (pow2 : F.float -> F.float) (x : F.float) :
  pow2_spec pow2 ->
  match F.to_Q x, F.to_Q (F.mul x x) with
  | Some q, Some r => Qeq_bool r (q * q) = true
  | _, _ => False
  end ->
  pow2 x = F.mul x x.
Proof.
  intros [Hexact _] H.
  destruct (F.to_Q x) as [q|] eqn:Eq; [|contradiction].
  destruct (F.to_Q (F.mul x x)) as [r|] eqn:Er; [|contradiction].
  apply (Hexact x q r Eq Er). apply Qeq_bool_iff. exact H.
Qed.

Lemma chi_square_formula_at (pow2 : F.float -> F.float) (l : list Z)
    (p e d0 d1 : F.float) :
  F.mul (nearest (len l)) p = e ->
  F.sub (nearest (count 0 l)) e = d0 ->
  F.sub (nearest (count 1 l)) e = d1 ->
  chi_square_formula pow2 l p
  = F.add (F.div (square pow2 d0) e) (F.div (square pow2 d1) e).
Proof. intros <- <- <-. reflexivity. Qed.

Lemma square_finite (pow2 : F.float -> F.float) (s : bool) (m : positive)
    (e : Z) :
  SFeqb (S754_finite false m e) F.one = false ->
  square pow2 (S754_finite s m e) = pow2 (S754_finite false m e).
Proof. intros H. unfold square. cbn [F.abs SFabs]. rewrite H. reflexivity. Qed.

(** C2: when the C library's [pow] returns the exact square where that is
    a double and stays finite, the chi-square test on a non-empty sequence
    and an expected probability strictly between 0 and 1 raises nothing,
    its statistic is the sum over the two classes of
    (observed - expected)^2 / expected with expected = total *
    expected_prob, and it passes exactly when the p-value exceeds 0.05.
    100 zeros give the statistic 100.0 and a failed test; 50 zeros and 50
    ones give the statistic 0, the p-value 1.0 and a passed test. *)
Theorem chi_square_test_statistic_and_verdict :
  forall chi2_cdf pow2 : F.float -> F.float,
    chi2_cdf_spec chi2_cdf -> pow2_spec pow2 ->
    (forall (l : list Z) (expected_prob : F.float),
        0 < len l <= sys_maxsize ->
        F.valid expected_prob = true ->
        F.ltb F.zero expected_prob = true ->
        F.ltb expected_prob F.one = true ->
        exists r,
          chi_square_test chi2_cdf pow2 l expected_prob = Ok r /\
          ChiSquare.chi_square_statistic r
          = chi_square_formula pow2 l expected_prob /\
          ChiSquare.passes_test r = float_gt (ChiSquare.p_value r) F.c0_05) /\
    (exists r,
        chi_square_test chi2_cdf pow2 (repeat 0 100) F.half = Ok r /\
        ChiSquare.chi_square_statistic r = F.hundred /\
        ChiSquare.passes_test r = false) /\
    (exists r,
        chi_square_test chi2_cdf pow2 (repeat 0 50 ++ repeat 1 50) F.half
        = Ok r /\
        ChiSquare.chi_square_statistic r = F.zero /\
        ChiSquare.p_value r = F.one /\
        ChiSquare.passes_test r = true).
Proof.
  intros chi2_cdf pow2 [Hzero Hlarge] Hpow. split; [|split].
  - intros l p Hl Hv H0 H1.
    eexists. split.
    + apply chi_square_test_of_statistic.
      apply chi_square_statistic_ok; assumption.
    + split; reflexivity.
  - pose proof (pow2_exact pow2 (S754_finite false 7036874417766400 (-47))
                  Hpow ltac:(cbv; reflexivity)) as H50.
    eexists. split.
    + apply (chi_square_test_of_statistic chi2_cdf pow2 _ _ F.hundred).
      rewrite (chi_square_statistic_ok pow2 _ F.half Hpow)
        by first [reflexivity
                 |vm_compute; split; [reflexivity|discriminate]].
      rewrite (chi_square_formula_at pow2 _ _
                 (S754_finite false 7036874417766400 (-47))
                 (S754_finite false 7036874417766400 (-47))
                 (S754_finite true 7036874417766400 (-47)))
        by (vm_compute; reflexivity).
      rewrite !square_finite by (vm_compute; reflexivity).
      rewrite H50. vm_compute. reflexivity.
    + split; [reflexivity|].
      cbn [ChiSquare.passes_test].
      destruct (Hlarge F.hundred eq_refl) as (Hv & Hl & Hu).
      apply chi_p_value_small; assumption.
  - eexists. split.
    + apply (chi_square_test_of_statistic chi2_cdf pow2 _ _ F.zero).
      cbv. reflexivity.
    + cbn [ChiSquare.chi_square_statistic ChiSquare.p_value
           ChiSquare.passes_test].
      rewrite (sub_one_zero _ Hzero). repeat split.
Qed.

Lemma chi_square_test_statistic_and_verdict_witness :
  (exists r,
      chi_square_test chi2_cdf_step pow2_nearest [0; 1; 1] F.half = Ok r /\
      ChiSquare.chi_square_statistic r
      = chi_square_formula pow2_nearest [0; 1; 1] F.half /\
      ChiSquare.passes_test r = float_gt (ChiSquare.p_value r) F.c0_05) /\
  (exists r,
      chi_square_test chi2_cdf_step pow2_nearest (repeat 0 100) F.half
      = Ok r /\
      ChiSquare.chi_square_statistic r = F.hundred /\
      ChiSquare.passes_test r = false).
Proof.
  pose proof (chi_square_test_statistic_and_verdict chi2_cdf_step
                pow2_nearest chi2_cdf_step_spec pow2_nearest_spec)
    as (Hall & H100 & _).
  split; [|exact H100].
  apply Hall.
  - vm_compute. split; [reflexivity|discriminate].
  - reflexivity.
  - reflexivity.
  - reflexivity.
Defined.

(** ** When the chi-square test divides by zero *)

Lemma valid_above (s : bool) (m : positive) (e : Z) :
  F.valid (S754_finite s m e) = true -> F.above (-1073) (S754_finite s m e).
Proof.
  intros Hv. apply valid_finite in Hv.
  pose proof (Zdigits2_pos (Zpos m) ltac:(lia)).
  unfold F.above. lia.
Qed.

Lemma nearest_len (l : list Z) :
  len l <= sys_maxsize ->
  float_of_int (len l) = Ok (nearest (len l)) /\
  F.below 64 (nearest (len l)) /\
  (len l = 0 -> nearest (len l) = F.zero) /\
  (0 < len l -> F.above 1 (nearest (len l))).
Proof.
  intros Hl. pose proof (len_nonneg l) as H0.
  destruct (float_of_int_below (len l) 63
              (Zdigits2_maxsize (len l) ltac:(lia)) ltac:(lia)) as (f & Hf & Hb).
  pose proof (float_of_int_nearest _ _ Hf) as ->.
  split; [exact Hf|]. split; [exact Hb|]. split.
  - intros ->. reflexivity.
  - intros Hpos.
    destruct (float_of_int_pos (len l) 63 Hpos
                (Zdigits2_maxsize (len l) ltac:(lia)) ltac:(lia))
      as (m & e & Hm & Hmag).
    rewrite Hf in Hm. injection Hm as ->.
    pose proof (Zdigits2_pos (len l) Hpos). unfold F.above. lia.
Qed.

Lemma expected_count_zero_iff (l : list Z) (p : F.float) :
  len l <= sys_maxsize -> F.valid p = true ->
  F.is_zero (F.mul (nearest (len l)) p) = true <->
  (len l = 0 /\ F.is_finite p = true) \/ F.is_zero p = true.
Proof.
  intros Hl Hv. pose proof (len_nonneg l) as H0.
  destruct (nearest_len l Hl) as (_ & Hb & Hz & Ha).
  destruct (Z.eq_dec (len l) 0) as [E|E].
  - rewrite (Hz E).
    destruct p as [[]|[]| |s m e]; simpl; intuition congruence.
  - specialize (Ha ltac:(lia)).
    destruct (nearest (len l)) as [t|t| |t mt et] eqn:Et; try contradiction.
    destruct p as [sp|sp| |sp mp ep];
      try solve [simpl; intuition (try congruence; try lia)].
    pose proof (valid_above sp mp ep Hv) as Hp.
      pose proof (mul_above (S754_finite t mt et) (S754_finite sp mp ep)
                    1 (-1073) Ha Hp ltac:(lia)) as Hm.
    apply above_not_zero in Hm.
    split.
    + intros H. rewrite Hm in H. discriminate.
    + intros [[H _]|H]; [lia|discriminate].
Qed.

Lemma float_pow2_exn (pow2 : F.float -> F.float) (x : F.float) (e : exn) :
  float_pow2 pow2 x = Raise e -> e = OverflowError.
Proof.
  unfold float_pow2. destruct x as [s|s| |s m ex]; try discriminate.
  destruct (SFeqb (S754_finite false m ex) F.one); [discriminate|].
  destruct (pow2 (S754_finite false m ex)); try discriminate.
  intros H. injection H as <-. reflexivity.
Qed.

Lemma chi_square_term_exn (pow2 : F.float -> F.float) (c : Z) (e : F.float)
    (x : exn) :
  chi_square_term pow2 c e = Raise x ->
  x = OverflowError \/ (x = ZeroDivisionError /\ F.is_zero e = true).
Proof.
  unfold chi_square_term.
  destruct (float_of_int c) as [fc|e0] eqn:Ec; cbn [bind].
  - destruct (float_pow2 pow2 (F.sub fc e)) as [sq|e1] eqn:Es; cbn [bind].
    + unfold float_truediv. destruct (F.is_zero e); [|discriminate].
      intros H. injection H as <-. right. split; reflexivity.
    + intros H. injection H as <-. left.
      eapply float_pow2_exn. exact Es.
  - unfold float_of_int in Ec.
    destruct (binary_normalize F.prec F.emax c 0 false); try discriminate.
    injection Ec as <-. intros H. injection H as <-. left. reflexivity.
Qed.

Lemma chi_square_statistic_exn (pow2 : F.float -> F.float) (l : list Z)
    (p : F.float) (x : exn) :
  chi_square_statistic_of pow2 l p = Raise x ->
  x = OverflowError \/
  (x = ZeroDivisionError /\ F.is_zero (F.mul (nearest (len l)) p) = true).
Proof.
  unfold chi_square_statistic_of.
  destruct (float_of_int (len l)) as [t|e0] eqn:Et; cbn [bind].
  - apply float_of_int_nearest in Et. subst t.
    destruct (chi_square_term pow2 (count 0 l) _) as [t0|e0] eqn:E0;
      cbn [bind].
    + destruct (chi_square_term pow2 (count 1 l) _) as [t1|e1] eqn:E1;
        cbn [bind]; [discriminate|].
      intros H. injection H as <-. eapply chi_square_term_exn; eassumption.
    + intros H. injection H as <-. eapply chi_square_term_exn; eassumption.
  - unfold float_of_int in Et.
    destruct (binary_normalize F.prec F.emax (len l) 0 false); try discriminate.
    injection Et as <-. intros H. injection H as <-. left. reflexivity.
Qed.

Lemma chi_square_term_zero (pow2 : F.float -> F.float) (c : Z)
    (e : F.float) :
  pow2_spec pow2 ->
  0 <= c <= sys_maxsize -> F.is_zero e = true ->
  chi_square_term pow2 c e = Raise ZeroDivisionError.
Proof.
  intros Hpow Hc Hz. unfold chi_square_term.
  destruct (float_of_int_below c 63 (Zdigits2_maxsize c Hc) ltac:(lia))
    as (fc & Hfc & Hb).
  rewrite Hfc. cbn [bind].
  assert (He : F.below 64 e) by (destruct e; try discriminate; exact I).
  pose proof (sub_below fc e 64 64 Hb He ltac:(lia)) as Hd.
  change (Z.max 64 64 + 2) with 66 in Hd.
  rewrite (float_pow2_square pow2 _ Hpow)
    by (eapply below_weaken; [exact Hd|lia]).
  cbn [bind].
  unfold float_truediv. rewrite Hz. reflexivity.
Qed.

Lemma chi_square_statistic_zde_iff (pow2 : F.float -> F.float)
    (l : list Z) (p : F.float) :
  pow2_spec pow2 -> len l <= sys_maxsize ->
  chi_square_statistic_of pow2 l p = Raise ZeroDivisionError <->
  F.is_zero (F.mul (nearest (len l)) p) = true.
Proof.
  intros Hpow Hl. split.
  - intros H. apply chi_square_statistic_exn in H.
    destruct H as [H|[_ H]]; [discriminate|exact H].
  - intros Hz. unfold chi_square_statistic_of.
    destruct (nearest_len l Hl) as (Hf & _).
    rewrite Hf. cbn [bind].
    pose proof (count_bounds 0 l).
    rewrite (chi_square_term_zero pow2) by (try assumption; lia).
    reflexivity.
Qed.

(** With the expected probability 1.0 the expected count of a non-empty
    list is not zero, and the statistic is computed. *)
Lemma chi_square_statistic_one (pow2 : F.float -> F.float) (l : list Z) :
  pow2_spec pow2 -> 0 < len l <= sys_maxsize ->
  F.is_zero (F.mul (nearest (len l)) F.one) = false /\
  exists stat, chi_square_statistic_of pow2 l F.one = Ok stat.
Proof.
  intros Hpow Hl.
  destruct (nearest_len l ltac:(lia)) as (Hf & Hb & _ & Ha).
  specialize (Ha ltac:(lia)).
  assert (Hez : F.is_zero (F.mul (nearest (len l)) F.one) = false).
  { apply (above_not_zero 1).
    replace 1 with (1 + 1 - 1) at 1 by lia.
    apply mul_above; [exact Ha| |lia].
    unfold F.above, F.one. change (Zdigits2 (Zpos 4503599627370496)) with 53.
    lia. }
  split; [exact Hez|].
  assert (Heb : F.below 66 (F.mul (nearest (len l)) F.one)).
  { apply (mul_below (nearest (len l)) F.one 64 1); [exact Hb| |lia].
    unfold F.below, F.one. change (Zdigits2 (Zpos 4503599627370496)) with 53.
    lia. }
  pose proof (count_bounds 0 l). pose proof (count_bounds 1 l).
  unfold chi_square_statistic_of. rewrite Hf. cbn [bind].
  rewrite !(chi_square_term_ok pow2) by (try assumption; lia).
  cbn [bind]. eexists. reflexivity.
Qed.

(** C8, as the code has it: the chi-square test raises
    [ZeroDivisionError] exactly when expected_count = total * expected_prob
    is zero, which is when total is 0 (and expected_prob is finite) or
    expected_prob is zero; it never raises [DegenerateInputError]; with
    the expected probability 1.0 the expected count of a non-empty list is
    not zero and the test returns a result, raising nothing.  The C
    library's [pow] is taken to return the exact square where that is a
    double and no infinity below [2 ^ 480]. *)
Theorem chi_square_test_division_by_zero :
  forall (chi2_cdf pow2 : F.float -> F.float) (l : list Z)
         (expected_prob : F.float),
    pow2_spec pow2 ->
    len l <= sys_maxsize -> F.valid expected_prob = true ->
    (chi_square_test chi2_cdf pow2 l expected_prob = Raise ZeroDivisionError
     <-> F.is_zero (F.mul (nearest (len l)) expected_prob) = true) /\
    (F.is_zero (F.mul (nearest (len l)) expected_prob) = true <->
     (len l = 0 /\ F.is_finite expected_prob = true) \/
     F.is_zero expected_prob = true) /\
    chi_square_test chi2_cdf pow2 l expected_prob
    <> Raise DegenerateInputError /\
    (0 < len l ->
     F.is_zero (F.mul (nearest (len l)) F.one) = false /\
     exists r, chi_square_test chi2_cdf pow2 l F.one = Ok r).
Proof.
  intros chi2_cdf pow2 l p Hpow Hl Hv. split; [|split; [|split]].
  - rewrite <- (chi_square_statistic_zde_iff pow2 l p Hpow Hl).
    unfold chi_square_test.
    destruct (chi_square_statistic_of pow2 l p); cbn [bind];
      split; congruence.
  - apply expected_count_zero_iff; assumption.
  - unfold chi_square_test.
    destruct (chi_square_statistic_of pow2 l p) as [st|e] eqn:E; cbn [bind];
      [discriminate|].
    apply chi_square_statistic_exn in E.
    destruct E as [->|[-> _]]; discriminate.
  - intros Hpos.
    destruct (chi_square_statistic_one pow2 l Hpow ltac:(lia))
      as (Hz & stat & Hs).
    split; [exact Hz|].
    eexists. apply (chi_square_test_of_statistic chi2_cdf pow2 _ _ _ Hs).
Qed.

Lemma chi_square_test_division_by_zero_witness :
  ((chi_square_test chi2_cdf_step pow2_nearest [] F.half
    = Raise ZeroDivisionError
    <-> F.is_zero (F.mul (nearest (len (@nil Z))) F.half) = true) /\
   (F.is_zero (F.mul (nearest (len (@nil Z))) F.half) = true <->
    (len (@nil Z) = 0 /\ F.is_finite F.half = true) \/
    F.is_zero F.half = true) /\
   chi_square_test chi2_cdf_step pow2_nearest [] F.half
   <> Raise DegenerateInputError) /\
  F.is_zero (F.mul (nearest (len [0; 1; 1])) F.one) = false /\
  exists r, chi_square_test chi2_cdf_step pow2_nearest [0; 1; 1] F.one = Ok r.
Proof.
  split.
  - pose proof (chi_square_test_division_by_zero chi2_cdf_step pow2_nearest
                  [] F.half pow2_nearest_spec
                  ltac:(vm_compute; discriminate) eq_refl)
      as (H1 & H2 & H3 & _).
    split; [exact H1|]. split; [exact H2|exact H3].
  - apply (chi_square_test_division_by_zero chi2_cdf_step pow2_nearest
             [0; 1; 1] F.one pow2_nearest_spec
             ltac:(vm_compute; discriminate) eq_refl).
    vm_compute. reflexivity.
Defined.

(** C8 fails as stated: with expected_prob = 1.0 on [[0; 1]] the expected
    count is 2.0 and the chi-square test raises nothing, whatever the C
    library's [pow] returns: both differences are -1.0, whose square
    CPython answers itself. *)
Lemma chi_square_test_expected_prob_one :
  chi_square_statistic_of pow2_nearest [0; 1] F.one = Ok F.one /\
  ~ (exists chi2_cdf pow2 e,
        chi_square_test chi2_cdf pow2 [0; 1] F.one = Raise e).
Proof.
  split; [vm_compute; reflexivity|].
  intros (chi2_cdf & pow2 & e & H).
  rewrite (chi_square_test_of_statistic chi2_cdf pow2 [0; 1] F.one F.one) in H
    by (cbv; reflexivity).
  discriminate.
Qed.

(** * The runs test on sequences of length at least two *)

Lemma count_runs_bounds (l : list Z) : 1 <= count_runs l <= Z.max 1 (len l).
Proof.
  rewrite count_runs_changes. pose proof (changes_bounds l). lia.
Qed.

Lemma runs_statistic_returns (l : list Z) :
  2 <= len l <= sys_maxsize ->
  exists q variance r,
    int_truediv (2 * count 0 l * count 1 l) (len l) = Ok q /\
    runs_statistic l =
      Ok (1 + changes l, F.add q F.one,
          F.div (F.sub r (F.add q F.one)) (F.sqrt variance)).
Proof.
  intros Hl. unfold runs_statistic.
  pose proof (count_bounds 0 l) as H0. pose proof (count_bounds 1 l) as H1.
  set (n0 := count 0 l) in *. set (n1 := count 1 l) in *. set (n := len l) in *.
  unfold sys_maxsize in Hl.
  assert (Hp : 0 <= 2 * n0 * n1 < 2 ^ 127) by nia.
  assert (Hdp : Zdigits2 (2 * n0 * n1) <= 127)
    by (apply Zdigits2_le_of_lt; lia).
  pose proof (Zdigits2_pos n ltac:(lia)) as Hdn.
  destruct (int_truediv_below (2 * n0 * n1) n 127 ltac:(lia) ltac:(lia) ltac:(lia))
    as (q & Hq & _).
  set (num := 2 * n0 * n1 * (2 * n0 * n1 - n)).
  assert (Hnum : Z.abs num < 2 ^ 254).
  { unfold num. rewrite Z.abs_mul.
    change (2 ^ 254) with (2 ^ 127 * 2 ^ 127).
    apply Z.mul_lt_mono_nonneg; lia. }
  assert (Hdnum : Zdigits2 num <= 254).
  { rewrite <- Zdigits2_abs. apply Zdigits2_le_of_lt; lia. }
  assert (Hden : 0 < n ^ 2 * (n - 1)) by nia.
  pose proof (Zdigits2_pos _ Hden) as Hdden.
  destruct (int_truediv_below num (n ^ 2 * (n - 1)) 254
              ltac:(lia) ltac:(lia) ltac:(lia)) as (variance & Hv & _).
  pose proof (count_runs_bounds l) as Hr. fold n in Hr.
  destruct (float_of_int_below (count_runs l) 63
              ltac:(apply Zdigits2_maxsize; unfold sys_maxsize; lia)
              ltac:(lia)) as (r & Hfr & _).
  exists q, variance, r. split; [exact Hq|].
  rewrite Hq. cbn [bind]. fold num. rewrite Hv. cbn [bind].
  rewrite Hfr. cbn [bind]. rewrite count_runs_changes. reflexivity.
Qed.

Lemma runs_test_alternating (norm_cdf : F.float -> F.float) :
  norm_cdf_spec norm_cdf ->
  exists r,
    runs_test norm_cdf [0; 1; 0; 1; 0; 1; 0; 1] = Ok r /\
    Runs.runs_count r = 8 /\
    Runs.expected_runs r = F.five /\
    Runs.passes_test r = false /\
    Runs.interpretation r = "Clustered"%string.
Proof.
  intros [_ Hlarge].
  set (z := S754_finite false 5159521548050054 (-51)).
  assert (Hs : runs_statistic [0; 1; 0; 1; 0; 1; 0; 1] = Ok (8, F.five, z))
    by (vm_compute; reflexivity).
  eexists. split; [apply runs_test_of_statistic; exact Hs|].
  cbn [Runs.runs_count Runs.expected_runs Runs.passes_test
       Runs.interpretation].
  destruct (Hlarge (F.abs z) eq_refl) as (Hv & Hl & Hu).
  rewrite (runs_p_value_small _ Hv Hl Hu).
  repeat split.
Qed.

(** C3, as the code has it: the loop counts one run plus one per adjacent
    pair of differing values, so at least one; on a sequence of length at
    least two the test returns that count and the expectation
    (2*n0*n1)/n + 1.  On [[0,1,0,1,0,1,0,1]] it returns 8 runs, with
    n0 = n1 = 4, the expectation 5.0, and a z-score of 2.29 whose two-sided
    p-value is below 0.05: the test fails, labelled [Clustered]. *)
Theorem runs_test_runs_and_expectation :
  forall norm_cdf : F.float -> F.float,
    norm_cdf_spec norm_cdf ->
    (forall l : list Z, count_runs l = 1 + changes l /\ 1 <= count_runs l) /\
    (forall l : list Z,
        2 <= len l <= sys_maxsize ->
        exists r q,
          runs_test norm_cdf l = Ok r /\
          Runs.runs_count r = 1 + changes l /\
          int_truediv (2 * count 0 l * count 1 l) (len l) = Ok q /\
          Runs.expected_runs r = F.add q F.one) /\
    (exists r,
        runs_test norm_cdf [0; 1; 0; 1; 0; 1; 0; 1] = Ok r /\
        Runs.runs_count r = 8 /\
        count 0 [0; 1; 0; 1; 0; 1; 0; 1] = 4 /\
        count 1 [0; 1; 0; 1; 0; 1; 0; 1] = 4 /\
        Runs.expected_runs r = F.five /\
        Runs.passes_test r = false /\
        Runs.interpretation r = "Clustered"%string).
Proof.
  intros norm_cdf Hspec. split; [|split].
  - intros l. split; [apply count_runs_changes|apply count_runs_bounds].
  - intros l Hl.
    destruct (runs_statistic_returns l Hl) as (q & variance & r & Hq & Hs).
    eexists. exists q. split; [apply runs_test_of_statistic; exact Hs|].
    repeat split. exact Hq.
  - destruct (runs_test_alternating norm_cdf Hspec) as (r & H1 & H2 & H3 & H4 & H5).
    exists r. repeat split; assumption.
Qed.

Lemma runs_test_runs_and_expectation_witness :
  (count_runs [0; 0; 1] = 1 + changes [0; 0; 1] /\ 1 <= count_runs [0; 0; 1]) /\
  (exists r q,
      runs_test norm_cdf_step [0; 0; 1] = Ok r /\
      Runs.runs_count r = 1 + changes [0; 0; 1] /\
      int_truediv (2 * count 0 [0; 0; 1] * count 1 [0; 0; 1]) (len [0; 0; 1])
        = Ok q /\
      Runs.expected_runs r = F.add q F.one).
Proof.
  pose proof (runs_test_runs_and_expectation norm_cdf_step norm_cdf_step_spec)
    as (H1 & H2 & _).
  split; [apply H1|].
  apply H2. vm_compute. split; discriminate.
Defined.

(** C3 fails as stated: whatever double between 0.985 and 1 the normal
    distribution function returns at the z-score 2.29, the runs test does
    not pass on [[0,1,0,1,0,1,0,1]]. *)
Lemma runs_test_alternating_does_not_pass :
  ~ (exists norm_cdf r,
        norm_cdf_spec norm_cdf /\
        runs_test norm_cdf [0; 1; 0; 1; 0; 1; 0; 1] = Ok r /\
        Runs.passes_test r = true).
Proof.
  intros (norm_cdf & r & Hspec & Hr & Hp).
  destruct (runs_test_alternating norm_cdf Hspec) as (r' & Hr' & _ & _ & Hp' & _).
  rewrite Hr in Hr'. injection Hr' as <-. congruence.
Qed.

(** * Exact quotients *)

Lemma div_core_exact (m1 e1 m2 e2 : Z) :
  0 < m1 -> 0 < m2 ->
  let e' := Z.min (fexp F.prec F.emax (Zdigits2 m1 + e1 - (Zdigits2 m2 + e2)))
                  (e1 - e2) in
  SFdiv_core_binary F.prec F.emax m1 e1 m2 e2
  = ((m1 * 2 ^ (e1 - e2 - e')) / m2, e',
     new_location m2 ((m1 * 2 ^ (e1 - e2 - e')) mod m2)).
Proof.
  intros H1 H2 e'. unfold SFdiv_core_binary. fold e'.
  set (sh := e1 - e2 - e').
  assert (Hsh : 0 <= sh) by (unfold sh, e'; lia).
  set (m' := match sh with
             | 0 => m1
             | Zpos _ => Z.shiftl m1 sh
             | Zneg _ => 0
             end).
  assert (Hm' : m' = m1 * 2 ^ sh).
  { unfold m'. destruct sh as [|p|p] eqn:E; try lia.
    apply Z.shiftl_mul_pow2. lia. }
  rewrite Hm'. unfold Z.div, Z.modulo.
  destruct (Z.div_eucl (m1 * 2 ^ sh) m2) as [q r]. reflexivity.
Qed.

Lemma new_location_zero (n : Z) : new_location n 0 = loc_Exact.
Proof. unfold new_location. destruct (Z.even n); reflexivity. Qed.

(** [n / n] is 1.0. *)
Lemma int_truediv_self (n : Z) : 0 < n -> int_truediv n n = Ok F.one.
Proof.
  intros Hn. unfold int_truediv.
  replace (n =? 0) with false by (symmetry; apply Z.eqb_neq; lia).
  replace (Z.abs n) with n by lia.
  rewrite (div_core_exact n 0 n 0 Hn Hn).
  replace (Zdigits2 n + 0 - (Zdigits2 n + 0)) with 0 by lia.
  change (Z.min (fexp F.prec F.emax 0) (0 - 0)) with (-53).
  change (0 - 0 - -53) with 53.
  rewrite Z.mul_comm, Z.div_mul, Z.mod_mul by lia.
  rewrite new_location_zero.
  replace (n <? 0) with false by (symmetry; apply Z.ltb_ge; lia).
  reflexivity.
Qed.

(** [d / 2 ** 32] is exact for [0 < d < 2 ** 32]. *)
Lemma int_truediv_pow32 (d : Z) :
  0 < d < 2 ^ 32 ->
  exists m : positive,
    Zpos m = d * 2 ^ (53 - Zdigits2 d) /\
    int_truediv d (2 ^ 32) = Ok (S754_finite false m (Zdigits2 d - 85)).
Proof.
  intros Hd.
  pose proof (Zdigits2_pos d ltac:(lia)) as Hd1.
  assert (Hd2 : Zdigits2 d <= 32) by (apply Zdigits2_le_of_lt; lia).
  assert (Hp : 0 < 2 ^ (53 - Zdigits2 d)) by (apply Z.pow_pos_nonneg; lia).
  destruct (d * 2 ^ (53 - Zdigits2 d)) as [|m|m] eqn:Em; try nia.
  exists m. split; [reflexivity|].
  unfold int_truediv.
  change (2 ^ 32 =? 0) with false. cbv iota.
  replace (d =? 0) with false by (symmetry; apply Z.eqb_neq; lia).
  replace (Z.abs d) with d by lia.
  change (Z.abs (2 ^ 32)) with (2 ^ 32).
  rewrite (div_core_exact d 0 (2 ^ 32) 0 ltac:(lia) ltac:(lia)).
  change (Zdigits2 (2 ^ 32)) with 33.
  rewrite fexp_unfold.
  replace (Z.min (Z.max (Zdigits2 d + 0 - (33 + 0) - 53) (-1074)) (0 - 0))
    with (Zdigits2 d - 86) by lia.
  replace (0 - 0 - (Zdigits2 d - 86)) with (54 - Zdigits2 d + 32) by lia.
  rewrite Z.pow_add_r by lia. rewrite Z.mul_assoc.
  rewrite Z.div_mul, Z.mod_mul by lia.
  rewrite new_location_zero.
  replace (d * 2 ^ (54 - Zdigits2 d)) with (Zpos m * 2 ^ 1).
  - replace (d <? 0) with false by (symmetry; apply Z.ltb_ge; lia).
    change (2 ^ 32 <? 0) with false. change (xorb false false) with false.
    assert (Hdm : Zdigits2 (Zpos m) = 53).
    { rewrite <- Em. rewrite Zdigits2_mul_pow2 by lia. lia. }
    rewrite binary_round_aux_exact by lia.
    replace (Zdigits2 d - 86 + 1) with (Zdigits2 d - 85) by lia.
    reflexivity.
  - rewrite <- Em. rewrite <- Z.mul_assoc, <- Z.pow_add_r by lia.
    do 2 f_equal. lia.
Qed.

(** * Encoders *)

Lemma str_bit (b : Z) :
  b = 0 \/ b = 1 -> str b = String (bit_char b) EmptyString.
Proof. intros [-> | ->]; reflexivity. Qed.

Lemma join_bits (l : list Z) :
  BitSequence l -> join (map str l) = bit_string l.
Proof.
  unfold join, bit_string.
  induction 1 as [|b l Hb Hl IH]; [reflexivity|].
  cbn [map string_of_list_ascii]. rewrite <- IH, (str_bit b Hb).
  destruct l; reflexivity.
Qed.

Lemma bit_string_length (l : list Z) :
  String.length (bit_string l) = List.length l.
Proof.
  unfold bit_string. induction l as [|b l IH]; [reflexivity|].
  cbn [map string_of_list_ascii String.length List.length]. congruence.
Qed.

Lemma bit_string_app (l1 l2 : list Z) :
  bit_string (l1 ++ l2) = (bit_string l1 ++ bit_string l2)%string.
Proof.
  unfold bit_string. induction l1 as [|b l1 IH]; [reflexivity|].
  cbn [app map string_of_list_ascii append]. congruence.
Qed.

Lemma bit_string_zeros (k : nat) :
  bit_string (repeat 0 k) = string_of_list_ascii (repeat "0"%char k).
Proof. unfold bit_string. rewrite map_repeat. reflexivity. Qed.

Lemma substring_bits (n : nat) :
  forall l, substring 0 n (bit_string l) = bit_string (firstn n l).
Proof.
  unfold bit_string.
  induction n as [|n IH]; intros [|b l]; try reflexivity.
  cbn [map string_of_list_ascii substring firstn]. rewrite IH. reflexivity.
Qed.

Lemma padded_bits (l : list Z) :
  prefix_slice 32 (ljust 32 "0" (bit_string l)) = bit_string (first_32 l).
Proof.
  unfold prefix_slice, ljust, first_32.
  rewrite bit_string_length, <- bit_string_zeros, <- bit_string_app.
  apply substring_bits.
Qed.

Lemma digit_value_bit (b : Z) :
  b = 0 \/ b = 1 -> digit_value (bit_char b) = Some b.
Proof. intros [-> | ->]; reflexivity. Qed.

Lemma parse_bits (l : list Z) :
  BitSequence l ->
  forall acc,
    parse_digits 2 acc (bit_string l)
    = Ok (fold_left (fun a b => 2 * a + b) l acc).
Proof.
  unfold bit_string.
  induction 1 as [|b l Hb Hl IH]; intros acc; [reflexivity|].
  cbn [map string_of_list_ascii parse_digits fold_left].
  rewrite (digit_value_bit b Hb).
  replace (b <? 2) with true by (symmetry; apply Z.ltb_lt; lia).
  apply IH.
Qed.

Lemma int_of_str_bits (l : list Z) :
  l <> [] -> BitSequence l -> int_of_str (bit_string l) 2 = Ok (bits_value l).
Proof.
  intros Hne Hb. unfold bits_value. rewrite <- (parse_bits l Hb 0).
  destruct Hb as [|b l Hb Hl]; [congruence|].
  unfold bit_string. cbn [map string_of_list_ascii].
  destruct Hb as [-> | ->]; reflexivity.
Qed.

Lemma fold_bits_acc (l : list Z) :
  forall acc,
    fold_left (fun a b => 2 * a + b) l acc = acc * 2 ^ len l + bits_value l.
Proof.
  unfold bits_value, len.
  induction l as [|b l IH]; intros acc; [simpl; lia|].
  cbn [fold_left List.length]. rewrite (IH (2 * acc + b)), (IH (2 * 0 + b)).
  rewrite Nat2Z.inj_succ, Z.pow_succ_r by lia. ring.
Qed.

Lemma bits_value_bounds (l : list Z) :
  BitSequence l -> 0 <= bits_value l < 2 ^ len l.
Proof.
  induction 1 as [|b l Hb Hl IH]; [unfold bits_value, len; simpl; lia|].
  unfold bits_value. cbn [fold_left]. rewrite fold_bits_acc.
  unfold len in *. cbn [List.length].
  rewrite Nat2Z.inj_succ, Z.pow_succ_r by lia.
  assert (0 < 2 ^ Z.of_nat (List.length l)) by (apply Z.pow_pos_nonneg; lia).
  destruct Hb as [-> | ->]; nia.
Qed.

Lemma bits_value_one_zeros (n : nat) :
  bits_value (1 :: repeat 0 n) = 2 ^ Z.of_nat n.
Proof.
  unfold bits_value. cbn [fold_left]. rewrite fold_bits_acc.
  unfold len. rewrite repeat_length.
  replace (bits_value (repeat 0 n)) with 0; [lia|].
  unfold bits_value. induction n as [|n IH]; [reflexivity|].
  cbn [repeat fold_left]. exact IH.
Qed.

Lemma BitSequence_one_zeros (n : nat) : BitSequence (1 :: repeat 0 n).
Proof.
  constructor; [right; reflexivity|].
  induction n; constructor; [left; reflexivity|assumption].
Qed.

Lemma to_binary_string_bits (self : QRNG) :
  measurements self <> [] -> BitSequence (measurements self) ->
  to_binary_string self = Ok (bit_string (measurements self)).
Proof.
  intros Hne Hb. unfold to_binary_string.
  rewrite <- (join_bits _ Hb).
  destruct (measurements self); [congruence|reflexivity].
Qed.

Lemma to_decimal_bits (self : QRNG) :
  measurements self <> [] -> BitSequence (measurements self) ->
  to_decimal self = Ok (bits_value (measurements self)).
Proof.
  intros Hne Hb. unfold to_decimal.
  rewrite (to_binary_string_bits self Hne Hb). cbn [bind].
  apply int_of_str_bits; assumption.
Qed.

(** C5: the binary string of a non-empty bit sequence has one digit per
    bit, in the order of the sequence; read in base 2 it gives what
    [to_decimal] returns, the value with the first bit most significant; no
    width bounds that value (a one followed by [n] zeros gives [2 ^ n]). *)
Theorem to_decimal_round_trip :
  forall self : QRNG,
    measurements self <> [] -> BitSequence (measurements self) ->
    (exists s,
        to_binary_string self = Ok s /\
        s = bit_string (measurements self) /\
        String.length s = List.length (measurements self) /\
        int_of_str s 2 = to_decimal self /\
        to_decimal self = Ok (bits_value (measurements self))) /\
    (forall n : nat,
        to_decimal {| measurements := 1 :: repeat 0 n; counts := counts self |}
        = Ok (2 ^ Z.of_nat n)).
Proof.
  intros self Hne Hb. split.
  - exists (bit_string (measurements self)).
    rewrite (to_decimal_bits self Hne Hb).
    repeat split.
    + apply to_binary_string_bits; assumption.
    + apply bit_string_length.
    + apply int_of_str_bits; assumption.
  - intros n. rewrite to_decimal_bits.
    + cbn [measurements]. f_equal. apply bits_value_one_zeros.
    + cbn [measurements]. discriminate.
    + cbn [measurements]. apply BitSequence_one_zeros.
Qed.

Lemma to_decimal_round_trip_witness :
  exists s,
    to_binary_string {| measurements := [1; 0; 1]; counts := [] |} = Ok s /\
    s = bit_string [1; 0; 1] /\
    String.length s = 3%nat /\
    int_of_str s 2 = to_decimal {| measurements := [1; 0; 1]; counts := [] |} /\
    to_decimal {| measurements := [1; 0; 1]; counts := [] |} = Ok 5.
Proof.
  apply (proj1 (to_decimal_round_trip
                  {| measurements := [1; 0; 1]; counts := [] |}
                  ltac:(discriminate)
                  ltac:(repeat (constructor; [lia|]); constructor))).
Defined.

(** ** The normalised float *)

Lemma BitSequence_firstn (n : nat) :
  forall l, BitSequence l -> BitSequence (firstn n l).
Proof.
  induction n as [|n IH]; intros l Hl; [constructor|].
  destruct Hl as [|b l Hb Hl]; [constructor|].
  cbn [firstn]. constructor; [assumption|]. apply IH. assumption.
Qed.

Lemma BitSequence_zeros (k : nat) : BitSequence (repeat 0 k).
Proof. induction k; constructor; [left; reflexivity|assumption]. Qed.

Lemma first_32_bits (l : list Z) : BitSequence l -> BitSequence (first_32 l).
Proof.
  intros Hl. unfold first_32. apply BitSequence_firstn.
  apply Forall_app. split; [assumption|apply BitSequence_zeros].
Qed.

Lemma first_32_length (l : list Z) : List.length (first_32 l) = 32%nat.
Proof.
  unfold first_32. rewrite length_firstn, length_app, repeat_length. lia.
Qed.

Lemma first_32_long (l : list Z) :
  (32 <= List.length l)%nat -> first_32 l = firstn 32 l.
Proof.
  intros Hl. unfold first_32.
  replace (32 - List.length l)%nat with 0%nat by lia.
  cbn [repeat]. rewrite app_nil_r. reflexivity.
Qed.

Lemma first_32_value (l : list Z) :
  BitSequence l -> 0 <= bits_value (first_32 l) < 2 ^ 32.
Proof.
  intros Hl.
  pose proof (bits_value_bounds _ (first_32_bits l Hl)) as H.
  unfold len in H. rewrite first_32_length in H. exact H.
Qed.

Lemma to_float_bits (self : QRNG) :
  measurements self <> [] -> BitSequence (measurements self) ->
  to_float self
  = int_truediv (bits_value (first_32 (measurements self))) (2 ^ 32).
Proof.
  intros Hne Hb. unfold to_float.
  rewrite (to_binary_string_bits self Hne Hb). cbn [bind].
  rewrite padded_bits.
  rewrite int_of_str_bits; [reflexivity| |apply first_32_bits; assumption].
  intros E. pose proof (first_32_length (measurements self)) as H.
  rewrite E in H. discriminate.
Qed.

Lemma binary_to_float_bits (l : list Z) :
  BitSequence l ->
  binary_to_float (bit_string l)
  = int_truediv (bits_value (first_32 l)) (2 ^ 32).
Proof.
  intros Hb. unfold binary_to_float. rewrite padded_bits.
  rewrite int_of_str_bits; [reflexivity| |apply first_32_bits; assumption].
  intros E. pose proof (first_32_length l) as H.
  rewrite E in H. discriminate.
Qed.

(** The double [d / 2 ** 32] for [0 <= d < 2 ** 32]: exact, and in
    [[0, 1)]. *)
Lemma int_truediv_pow32_value (d : Z) :
  0 <= d < 2 ^ 32 ->
  exists f q,
    int_truediv d (2 ^ 32) = Ok f /\
    F.to_Q f = Some q /\ Qeq q (d # 4294967296) /\
    F.leb F.zero f = true /\ F.ltb f F.one = true.
Proof.
  intros Hd. destruct (Z.eq_dec d 0) as [->|Hne].
  - exists F.zero, (0 # 1)%Q. repeat split; reflexivity.
  - destruct (int_truediv_pow32 d ltac:(lia)) as (m & Hm & Hf).
    pose proof (Zdigits2_pos d ltac:(lia)) as Hd1.
    assert (Hd2 : Zdigits2 d <= 32) by (apply Zdigits2_le_of_lt; lia).
    eexists. eexists. split; [exact Hf|].
    split; [reflexivity|]. split; [|split].
    + unfold Qeq. cbn [Qnum Qden].
      replace (Z.max (Zdigits2 d - 85) 0) with 0 by lia.
      replace (Z.max (- (Zdigits2 d - 85)) 0) with (85 - Zdigits2 d) by lia.
      rewrite Z2Pos.id by (apply Z.pow_pos_nonneg; lia).
      rewrite Hm. change (Zpos 4294967296) with (2 ^ 32).
      change (2 ^ 0) with 1. rewrite !Z.mul_1_l, Z.mul_1_r.
      rewrite <- !Z.mul_assoc, <- Z.pow_add_r by lia.
      do 2 f_equal. lia.
    + reflexivity.
    + unfold F.ltb, SFltb, SFcompare, F.one.
      destruct (Z.compare_spec (Zdigits2 d - 85) (-52)) as [E|E|E];
        try lia; reflexivity.
Qed.

(** C4: on a non-empty bit sequence the binary string, padded on the right
    with the digit 0 to 32 characters and cut after 32, spells the first 32
    bits; [to_float] (and [binary_to_float] on the binary string) returns
    the double that is exactly their value, first bit most significant,
    divided by 2^32; it lies in [[0, 1)]; and two sequences of at least 32
    bits with the same first 32 bits give the same float. *)
Theorem to_float_first_32_bits :
  forall self : QRNG,
    measurements self <> [] -> BitSequence (measurements self) ->
    (prefix_slice 32 (ljust 32 "0" (bit_string (measurements self)))
     = bit_string (first_32 (measurements self)) /\
     List.length (first_32 (measurements self)) = 32%nat) /\
    (exists f q,
        to_float self = Ok f /\
        binary_to_float (bit_string (measurements self)) = Ok f /\
        F.to_Q f = Some q /\
        Qeq q (bits_value (first_32 (measurements self)) # 4294967296) /\
        F.leb F.zero f = true /\ F.ltb f F.one = true) /\
    (forall other : QRNG,
        BitSequence (measurements other) ->
        (32 <= List.length (measurements self))%nat ->
        (32 <= List.length (measurements other))%nat ->
        firstn 32 (measurements other) = firstn 32 (measurements self) ->
        to_float other = to_float self).
Proof.
  intros self Hne Hb. split; [|split].
  - split; [apply padded_bits|apply first_32_length].
  - destruct (int_truediv_pow32_value _ (first_32_value _ Hb))
      as (f & q & Hf & Hq & Hq' & H0 & H1).
    exists f, q.
    rewrite to_float_bits, binary_to_float_bits by assumption.
    repeat split; assumption.
  - intros other Hbo Hl Hlo Heq.
    assert (Hneo : measurements other <> [])
      by (intros E; rewrite E in Hlo; simpl in Hlo; lia).
    rewrite !to_float_bits by assumption.
    rewrite !first_32_long by assumption. rewrite Heq. reflexivity.
Qed.

Lemma to_float_first_32_bits_witness :
  exists f q,
    to_float {| measurements := [1; 1]; counts := [] |} = Ok f /\
    binary_to_float (bit_string [1; 1]) = Ok f /\
    F.to_Q f = Some q /\
    Qeq q (bits_value (first_32 [1; 1]) # 4294967296) /\
    F.leb F.zero f = true /\ F.ltb f F.one = true.
Proof.
  apply (proj1 (proj2 (to_float_first_32_bits
                         {| measurements := [1; 1]; counts := [] |}
                         ltac:(discriminate)
                         ltac:(repeat (constructor; [lia|]); constructor)))).
Defined.

(** * Empty sequences *)

(** C9, as the code has it: on an empty sequence the four encoders and
    [get_statistics] raise [ValueError], and [entropy_test] raises
    [ZeroDivisionError]. *)
Theorem empty_sequence_errors :
  forall (log2 : F.float -> F.float) (self : QRNG),
    measurements self = [] ->
    to_binary_string self = Raise ValueError /\
    to_decimal self = Raise ValueError /\
    to_hex self = Raise ValueError /\
    to_float self = Raise ValueError /\
    get_statistics log2 self = Raise ValueError /\
    entropy_test log2 (measurements self) = Raise ZeroDivisionError.
Proof.
  intros log2 self H.
  unfold to_hex, to_float, to_decimal, to_binary_string, get_statistics.
  rewrite H. repeat split.
Qed.

Lemma empty_sequence_errors_witness :
  to_binary_string init = Raise ValueError /\
  to_decimal init = Raise ValueError /\
  to_hex init = Raise ValueError /\
  to_float init = Raise ValueError /\
  get_statistics log2_floor init = Raise ValueError /\
  entropy_test log2_floor (measurements init) = Raise ZeroDivisionError.
Proof. apply (empty_sequence_errors log2_floor init eq_refl). Defined.

(** C9 fails as stated: on the empty sequence [to_binary_string] raises
    [ValueError], which is not [EmptySequenceError]. *)
Lemma to_binary_string_empty_value_error :
  to_binary_string init = Raise ValueError /\
  to_binary_string init <> Raise EmptySequenceError.
Proof. split; [reflexivity|discriminate]. Qed.

(** * Probabilities and entropy *)

Lemma int_truediv_pos (a b k : Z) :
  0 < a -> 0 < b ->
  -1020 <= Zdigits2 a - Zdigits2 b -> Zdigits2 a - Zdigits2 b + 1 <= k <= 971 ->
  exists m e,
    int_truediv a b = Ok (S754_finite false m e) /\
    Zdigits2 a - Zdigits2 b <= Zdigits2 (Zpos m) + e <= k + 1.
Proof.
  intros Ha Hb Hlo Hk.
  destruct (int_truediv_below a b k ltac:(lia) ltac:(lia) ltac:(lia))
    as (f & Hf & Hbelow).
  unfold int_truediv in Hf |- *.
  replace (b =? 0) with false in * by (symmetry; apply Z.eqb_neq; lia).
  replace (a =? 0) with false in * by (symmetry; apply Z.eqb_neq; lia).
  replace (a <? 0) with false in * by (symmetry; apply Z.ltb_ge; lia).
  replace (b <? 0) with false in * by (symmetry; apply Z.ltb_ge; lia).
  replace (Z.abs a) with a in * by lia.
  replace (Z.abs b) with b in * by lia.
  change (xorb false false) with false in *.
  rewrite (div_core_exact a 0 b 0 Ha Hb) in Hf |- *.
  rewrite fexp_unfold in Hf |- *.
  set (e' := Z.min (Z.max (Zdigits2 a + 0 - (Zdigits2 b + 0) - 53) (-1074))
                   (0 - 0)) in *.
  set (sh := 0 - 0 - e') in *.
  assert (Hsh : 0 <= sh) by (unfold sh, e'; lia).
  assert (H2sh : 0 < 2 ^ sh) by (apply Z.pow_pos_nonneg; lia).
  pose proof (Zdigits2_pos a Ha) as Hda. pose proof (Zdigits2_pos b Hb) as Hdb.
  pose proof (Zdigits2_bounds a Ha) as [Hla _].
  pose proof (Zdigits2_bounds b Hb) as [_ Hub].
  set (q := a * 2 ^ sh / b) in *.
  assert (Hdq : Zdigits2 a + sh - Zdigits2 b <= Zdigits2 q).
  { assert (Hge : 0 <= Zdigits2 a + sh - Zdigits2 b - 1) by (unfold sh, e'; lia).
    assert (Hq : 2 ^ (Zdigits2 a + sh - Zdigits2 b - 1) <= q).
    { unfold q. apply Z.div_le_lower_bound; [lia|].
      assert (H1 : 2 ^ (Zdigits2 a - 1) * 2 ^ sh <= a * 2 ^ sh) by nia.
      rewrite <- Z.pow_add_r in H1 by lia.
      assert (H2 : b * 2 ^ (Zdigits2 a + sh - Zdigits2 b - 1)
                   <= 2 ^ Zdigits2 b * 2 ^ (Zdigits2 a + sh - Zdigits2 b - 1)).
      { apply Z.mul_le_mono_nonneg_r; [apply Z.pow_nonneg|]; lia. }
      rewrite <- Z.pow_add_r in H2 by lia.
      replace (Zdigits2 b + (Zdigits2 a + sh - Zdigits2 b - 1))
        with (Zdigits2 a - 1 + sh) in H2 by lia.
      lia. }
    apply Zdigits2_ge_of_le in Hq; lia. }
  assert (Hq0 : 0 < q).
  { destruct (Z.eq_dec q 0) as [E|E].
    - rewrite E in Hdq. simpl in Hdq. unfold sh, e' in Hdq. lia.
    - pose proof (Z.div_pos (a * 2 ^ sh) b ltac:(nia) Hb). fold q in H. lia. }
  pose proof (binary_round_aux_lower false q e'
                (new_location b ((a * 2 ^ sh) mod b)) Hq0
                ltac:(unfold sh in Hdq; lia)) as Hlow.
  destruct (binary_round_aux F.prec F.emax false q e'
              (new_location b ((a * 2 ^ sh) mod b))) as [s|s| |s m e];
    try contradiction; try discriminate.
  injection Hf as <-. destruct Hlow as [-> Hlow].
  exists m, e. split; [reflexivity|].
  unfold F.below in Hbelow. unfold sh in Hdq. lia.
Qed.

(** A probability [count / total] is zero or a positive double of
    magnitude between [2 ^ -64] and [2 ^ 2]. *)
Lemma probability_shape (c n : Z) :
  0 <= c <= n -> 0 < n <= sys_maxsize ->
  exists p,
    int_truediv c n = Ok p /\
    (c = 0 /\ p = F.zero \/
     0 < c /\ exists m e, p = S754_finite false m e /\
                -1074 < Zdigits2 (Zpos m) + e <= 2).
Proof.
  intros Hc Hn. destruct (Z.eq_dec c 0) as [->|Hne].
  - exists F.zero. split; [apply int_truediv_zero_l; lia|]. left. tauto.
  - pose proof (Zdigits2_maxsize n ltac:(lia)) as Hdn.
    pose proof (Zdigits2_pos c ltac:(lia)) as Hdc.
    pose proof (Zdigits2_mono c n ltac:(lia)) as Hmono.
    destruct (int_truediv_pos c n 1 ltac:(lia) ltac:(lia) ltac:(lia) ltac:(lia))
      as (m & e & Hp & Hmag).
    eexists. split; [exact Hp|]. right. split; [lia|].
    exists m, e. split; [reflexivity|lia].
Qed.

Lemma entropy_term_below (log2 : F.float -> F.float) (m : positive) (e : Z) :
  log2_spec log2 -> -1074 < Zdigits2 (Zpos m) + e <= 2 ->
  F.below 15
    (F.mul (S754_finite false m e) (np_log2 log2 (S754_finite false m e))).
Proof.
  intros [_ Hlog] Hmag. cbn [np_log2].
  apply (mul_below (S754_finite false m e) _ 2 12); try lia.
  - unfold F.below. lia.
  - apply Hlog. exact Hmag.
Qed.

Lemma shannon_entropy_below (log2 : F.float -> F.float) (p0 p1 : F.float) :
  log2_spec log2 ->
  (p0 = F.zero \/
   exists m e, p0 = S754_finite false m e /\
     -1074 < Zdigits2 (Zpos m) + e <= 2) ->
  (p1 = F.zero \/
   exists m e, p1 = S754_finite false m e /\
     -1074 < Zdigits2 (Zpos m) + e <= 2) ->
  F.below 19 (shannon_entropy_of log2 p0 p1).
Proof.
  intros Hspec H0 H1. unfold shannon_entropy_of.
  assert (Hfirst :
    F.below 17
      (if float_gt p0 F.zero
       then F.sub F.zero (F.mul p0 (np_log2 log2 p0)) else F.zero)).
  { destruct H0 as [->|(m & e & -> & Hmag)]; [exact I|].
    change (float_gt (S754_finite false m e) F.zero) with true. cbv iota.
    pose proof (entropy_term_below log2 m e Hspec Hmag) as Ht.
    apply (sub_below F.zero _ 15 15 I Ht). lia. }
  destruct H1 as [->|(m & e & -> & Hmag)].
  - change (float_gt F.zero F.zero) with false. cbv iota.
    eapply below_weaken; [exact Hfirst|lia].
  - change (float_gt (S754_finite false m e) F.zero) with true. cbv iota.
    pose proof (entropy_term_below log2 m e Hspec Hmag) as Ht.
    apply (sub_below _ _ 17 15 Hfirst Ht). lia.
Qed.

Lemma div_one_below (x : F.float) (k : Z) :
  F.below k x -> -1074 <= k <= 971 -> F.below (k + 1) (F.div x F.one).
Proof.
  intros Hx Hk.
  replace (k + 1) with (k - 1 + 2) by lia.
  apply div_below; try assumption; try reflexivity; try lia.
  unfold F.above, F.one. change (Zdigits2 (Zpos 4503599627370496)) with 53. lia.
Qed.

Lemma entropy_test_unfold (log2 : F.float -> F.float) (l : list Z)
    (p0 p1 : F.float) :
  int_truediv (count 0 l) (len l) = Ok p0 ->
  int_truediv (count 1 l) (len l) = Ok p1 ->
  exists r,
    entropy_test log2 l = Ok r /\
    Entropy.shannon_entropy r = shannon_entropy_of log2 p0 p1 /\
    Entropy.entropy_ratio r = F.div (shannon_entropy_of log2 p0 p1) F.one.
Proof.
  intros H0 H1. unfold entropy_test. rewrite H0, H1. cbn [bind].
  eexists. split; [reflexivity|]. split; reflexivity.
Qed.

Lemma get_statistics_unfold (log2 : F.float -> F.float) (self : QRNG)
    (p0 p1 : F.float) :
  measurements self <> [] ->
  int_truediv (count 0 (measurements self)) (len (measurements self)) = Ok p0 ->
  int_truediv (count 1 (measurements self)) (len (measurements self)) = Ok p1 ->
  exists st,
    get_statistics log2 self = Ok st /\
    Statistics.shannon_entropy st = shannon_entropy_of log2 p0 p1 /\
    Statistics.entropy_ratio st = F.div (shannon_entropy_of log2 p0 p1) F.one.
Proof.
  intros Hne H0 H1. unfold get_statistics.
  destruct (measurements self) as [|x ms] eqn:E; [congruence|].
  rewrite H0, H1. cbn [bind].
  eexists. split; [reflexivity|]. split; reflexivity.
Qed.

Lemma entropy_single_valued (log2 : F.float -> F.float) (s : bool) :
  log2_spec log2 ->
  F.is_zero (shannon_entropy_of log2 F.one (S754_zero s)) = true /\
  F.is_zero (shannon_entropy_of log2 (S754_zero s) F.one) = true /\
  F.is_zero (F.div (shannon_entropy_of log2 F.one (S754_zero s)) F.one) = true /\
  F.is_zero (F.div (shannon_entropy_of log2 (S754_zero s) F.one) F.one) = true.
Proof.
  intros [Hone _]. unfold shannon_entropy_of.
  replace (float_gt (S754_zero s) F.zero) with false by (destruct s; reflexivity).
  change (float_gt F.one F.zero) with true. cbv iota.
  change (np_log2 log2 F.one) with (log2 F.one).
  destruct (log2 F.one) as [[]|[]| |]; try discriminate; repeat split.
Qed.

Lemma log2_floor_spec : log2_spec log2_floor.
Proof.
  split; [reflexivity|].
  intros m e Hmag. unfold log2_floor, nearest.
  apply (binary_normalize_below _ 0 false 11); [|lia].
  rewrite <- Zdigits2_abs.
  assert (Zdigits2 (Z.abs (Zdigits2 (Zpos m) + e - 1)) <= 11)
    by (apply Zdigits2_le_of_lt; lia).
  lia.
Qed.

Lemma entropy_finite (log2 : F.float -> F.float) (l : list Z) :
  log2_spec log2 -> 0 < len l <= sys_maxsize ->
  exists p0 p1,
    int_truediv (count 0 l) (len l) = Ok p0 /\
    int_truediv (count 1 l) (len l) = Ok p1 /\
    F.is_finite (shannon_entropy_of log2 p0 p1) = true /\
    F.is_finite (F.div (shannon_entropy_of log2 p0 p1) F.one) = true.
Proof.
  intros Hspec Hl.
  destruct (probability_shape (count 0 l) (len l) (count_bounds 0 l) Hl)
    as (p0 & H0 & S0).
  destruct (probability_shape (count 1 l) (len l) (count_bounds 1 l) Hl)
    as (p1 & H1 & S1).
  exists p0, p1. split; [exact H0|]. split; [exact H1|].
  assert (Hb : F.below 19 (shannon_entropy_of log2 p0 p1)).
  { apply shannon_entropy_below; [assumption| |].
    - destruct S0 as [[_ ->]|[_ H]]; [left; reflexivity|right; exact H].
    - destruct S1 as [[_ ->]|[_ H]]; [left; reflexivity|right; exact H]. }
  split.
  - eapply below_finite; exact Hb.
  - eapply below_finite. apply div_one_below; [exact Hb|lia].
Qed.

Lemma single_valued_probabilities (l : list Z) :
  0 < len l -> BitSequence l -> count 0 l = 0 \/ count 1 l = 0 ->
  (int_truediv (count 0 l) (len l) = Ok F.one /\
   int_truediv (count 1 l) (len l) = Ok F.zero) \/
  (int_truediv (count 0 l) (len l) = Ok F.zero /\
   int_truediv (count 1 l) (len l) = Ok F.one).
Proof.
  intros Hl Hb Hc. pose proof (BitSequence_counts l Hb) as Hsum.
  destruct Hc as [Hc|Hc]; [right|left].
  - assert (H1 : count 1 l = len l) by lia. rewrite Hc, H1.
    split; [apply int_truediv_zero_l|apply int_truediv_self]; assumption.
  - assert (H0 : count 0 l = len l) by lia. rewrite Hc, H0.
    split; [apply int_truediv_self|apply int_truediv_zero_l]; assumption.
Qed.

(** The code's entropy is the formula at the two probabilities. *)
Lemma shannon_entropy_formula (log2 : F.float -> F.float)
    (p0 p1 : F.float) :
  F.is_inf p0 = false -> F.is_inf p1 = false ->
  shannon_entropy_of log2 p0 p1 = entropy_formula log2 [p0; p1].
Proof.
  intros H0 H1. unfold shannon_entropy_of, entropy_formula.
  destruct p0 as [[]|[]| |[] m0 e0]; try discriminate;
    destruct p1 as [[]|[]| |[] m1 e1]; try discriminate; reflexivity.
Qed.

Lemma probability_not_inf (c n : Z) (p : F.float) :
  0 <= c <= n -> 0 < n <= sys_maxsize ->
  int_truediv c n = Ok p -> F.is_inf p = false.
Proof.
  intros Hc Hn Hp.
  destruct (probability_shape c n Hc Hn) as (p' & Hp' & S).
  rewrite Hp in Hp'. injection Hp' as <-.
  destruct S as [[_ ->]|[_ (m & e & -> & _)]]; reflexivity.
Qed.

(** C6: the entropy is the sum of -p * log2(p) over the outcomes with
    p > 0, an outcome of probability zero adding nothing: the entropy that
    [entropy_test] and [get_statistics] return is that sum at the two
    probabilities count / total.  On a non-empty sequence they raise
    nothing and return a finite entropy and a finite entropy ratio; on a
    single-valued bit sequence the entropy is zero. *)
Theorem shannon_entropy_is_finite :
  forall log2 : F.float -> F.float,
    log2_spec log2 ->
    (forall (p : F.float) (s : bool),
        shannon_entropy_of log2 (S754_zero s) p
        = (if float_gt p F.zero
           then F.sub F.zero (F.mul p (np_log2 log2 p)) else F.zero) /\
        shannon_entropy_of log2 p (S754_zero s)
        = (if float_gt p F.zero
           then F.sub F.zero (F.mul p (np_log2 log2 p)) else F.zero)) /\
    (forall l : list Z,
        0 < len l <= sys_maxsize ->
        exists r st p0 p1,
          int_truediv (count 0 l) (len l) = Ok p0 /\
          int_truediv (count 1 l) (len l) = Ok p1 /\
          entropy_test log2 l = Ok r /\
          get_statistics log2 {| measurements := l; counts := [] |} = Ok st /\
          Entropy.shannon_entropy r = entropy_formula log2 [p0; p1] /\
          Entropy.entropy_ratio r
          = F.div (entropy_formula log2 [p0; p1]) F.one /\
          F.is_finite (Entropy.shannon_entropy r) = true /\
          F.is_finite (Entropy.entropy_ratio r) = true /\
          Statistics.shannon_entropy st = Entropy.shannon_entropy r /\
          Statistics.entropy_ratio st = Entropy.entropy_ratio r) /\
    (forall l : list Z,
        0 < len l -> BitSequence l -> count 0 l = 0 \/ count 1 l = 0 ->
        exists r,
          entropy_test log2 l = Ok r /\
          F.is_zero (Entropy.shannon_entropy r) = true /\
          F.is_zero (Entropy.entropy_ratio r) = true).
Proof.
  intros log2 Hspec. split; [|split].
  - intros p s. unfold shannon_entropy_of.
    replace (float_gt (S754_zero s) F.zero) with false
      by (destruct s; reflexivity).
    split; reflexivity.
  - intros l Hl.
    destruct (entropy_finite log2 l Hspec Hl) as (p0 & p1 & H0 & H1 & Hf & Hr).
    destruct (entropy_test_unfold log2 l p0 p1 H0 H1) as (r & Hr1 & Hr2 & Hr3).
    destruct (get_statistics_unfold log2 {| measurements := l; counts := [] |}
                p0 p1) as (st & Hs1 & Hs2 & Hs3); try assumption.
    { cbn [measurements]. intros ->. unfold len in Hl. simpl in Hl. lia. }
    pose proof (shannon_entropy_formula log2 p0 p1
                  (probability_not_inf _ _ _ (count_bounds 0 l) Hl H0)
                  (probability_not_inf _ _ _ (count_bounds 1 l) Hl H1)) as Hform.
    exists r, st, p0, p1. rewrite Hr2, Hr3, Hs2, Hs3, <- Hform.
    repeat split; assumption.
  - intros l Hl Hb Hc.
    destruct (entropy_single_valued log2 false Hspec) as (E1 & E2 & E3 & E4).
    destruct (single_valued_probabilities l Hl Hb Hc) as [[H0 H1]|[H0 H1]];
      destruct (entropy_test_unfold log2 l _ _ H0 H1) as (r & Hr1 & Hr2 & Hr3);
      exists r; rewrite Hr2, Hr3; repeat split; assumption.
Qed.

Lemma shannon_entropy_is_finite_witness :
  exists r st p0 p1,
    int_truediv (count 0 [0; 1; 1]) (len [0; 1; 1]) = Ok p0 /\
    int_truediv (count 1 [0; 1; 1]) (len [0; 1; 1]) = Ok p1 /\
    entropy_test log2_floor [0; 1; 1] = Ok r /\
    get_statistics log2_floor {| measurements := [0; 1; 1]; counts := [] |}
      = Ok st /\
    Entropy.shannon_entropy r = entropy_formula log2_floor [p0; p1] /\
    Entropy.entropy_ratio r
    = F.div (entropy_formula log2_floor [p0; p1]) F.one /\
    F.is_finite (Entropy.shannon_entropy r) = true /\
    F.is_finite (Entropy.entropy_ratio r) = true /\
    Statistics.shannon_entropy st = Entropy.shannon_entropy r /\
    Statistics.entropy_ratio st = Entropy.entropy_ratio r.
Proof.
  apply (proj1 (proj2 (shannon_entropy_is_finite log2_floor log2_floor_spec))).
  vm_compute. split; [reflexivity|discriminate].
Defined.

(** * The bits expanded from the outcome counts *)

Lemma changes_repeat (b : Z) (n : nat) : changes (repeat b n) = 0.
Proof.
  induction n as [|n IH]; [reflexivity|].
  destruct n as [|n]; [reflexivity|].
  change (repeat b (S (S n))) with (b :: b :: repeat b n).
  rewrite changes_cons2, Z.eqb_refl. exact IH.
Qed.

Lemma changes_cons_repeat (b : Z) (n : nat) (l : list Z) :
  changes (b :: repeat b n ++ l) = changes (b :: l).
Proof.
  induction n as [|n IH]; [reflexivity|].
  cbn [repeat app]. rewrite changes_cons2, Z.eqb_refl. exact IH.
Qed.

Lemma changes_two_blocks (b b' : Z) (n m : nat) :
  0 <= changes (repeat b n ++ repeat b' m) <= 1.
Proof.
  destruct n as [|n].
  - cbn [repeat app]. rewrite changes_repeat. lia.
  - cbn [repeat app]. rewrite changes_cons_repeat.
    destruct m as [|m]; [simpl; lia|].
    cbn [repeat]. rewrite changes_cons2.
    change (b' :: repeat b' m) with (repeat b' (S m)).
    rewrite changes_repeat. destruct (b =? b'); lia.
Qed.

Lemma generate_random_bits_of (self : QRNG) (job_counts : counts_dict)
    (ms : list Z) :
  extend_from_counts job_counts [] = Ok ms ->
  generate_random_bits self job_counts
  = ({| measurements := ms; counts := job_counts |}, Ok ms).
Proof. intros H. unfold generate_random_bits. rewrite H. reflexivity. Qed.

Lemma one_qubit_counts (job_counts : counts_dict) :
  NoDup (map fst job_counts) ->
  (forall k, In k (map fst job_counts) -> k = "0"%string \/ k = "1"%string) ->
  exists (b : Z) (n0 n1 : nat),
    (b = 0 \/ b = 1) /\
    extend_from_counts job_counts [] = Ok (repeat b n0 ++ repeat (1 - b) n1)%list.
Proof.
  intros Hnd Hk.
  destruct job_counts as [|[k1 c1] [|[k2 c2] [|[k3 c3] rest]]].
  - exists 0, 0%nat, 0%nat. split; [left|]; reflexivity.
  - destruct (Hk k1 (or_introl eq_refl)) as [-> | ->].
    + exists 0, (Z.to_nat c1), 0%nat. split; [left; reflexivity|].
      cbn. rewrite app_nil_r. reflexivity.
    + exists 1, (Z.to_nat c1), 0%nat. split; [right; reflexivity|].
      cbn. rewrite app_nil_r. reflexivity.
  - cbn [map fst] in Hnd, Hk.
    apply NoDup_cons_iff in Hnd. destruct Hnd as [Hn1 _].
    destruct (Hk k1 (or_introl eq_refl)) as [-> | ->];
      destruct (Hk k2 (or_intror (or_introl eq_refl))) as [-> | ->];
      try (exfalso; apply Hn1; left; reflexivity).
    + exists 0, (Z.to_nat c1), (Z.to_nat c2). split; [left|]; reflexivity.
    + exists 1, (Z.to_nat c1), (Z.to_nat c2). split; [right|]; reflexivity.
  - exfalso. cbn [map fst] in Hnd, Hk.
    apply NoDup_cons_iff in Hnd. destruct Hnd as [Hn1 Hnd].
    apply NoDup_cons_iff in Hnd. destruct Hnd as [Hn2 _].
    destruct (Hk k1 (or_introl eq_refl)) as [-> | ->];
      destruct (Hk k2 (or_intror (or_introl eq_refl))) as [-> | ->];
      destruct (Hk k3 (or_intror (or_intror (or_introl eq_refl)))) as [-> | ->];
      first [ apply Hn1; left; reflexivity
            | apply Hn1; right; left; reflexivity
            | apply Hn2; left; reflexivity ].
Qed.

(** C10: the outcome counts of the one-qubit circuit have distinct keys
    among "0" and "1"; the list [generate_random_bits] returns and stores is
    then a block of one bit value followed by a block of the other, at most
    two runs, whatever the order of the measurements was. *)
Theorem generate_random_bits_two_blocks :
  forall (self : QRNG) (job_counts : counts_dict),
    NoDup (map fst job_counts) ->
    (forall k, In k (map fst job_counts) -> k = "0"%string \/ k = "1"%string) ->
    exists (b : Z) (n0 n1 : nat),
      (b = 0 \/ b = 1) /\
      snd (generate_random_bits self job_counts)
      = Ok (repeat b n0 ++ repeat (1 - b) n1)%list /\
      measurements (fst (generate_random_bits self job_counts))
      = (repeat b n0 ++ repeat (1 - b) n1)%list /\
      count_runs (repeat b n0 ++ repeat (1 - b) n1) <= 2.
Proof.
  intros self job_counts Hnd Hk.
  destruct (one_qubit_counts job_counts Hnd Hk) as (b & n0 & n1 & Hb & He).
  exists b, n0, n1. rewrite (generate_random_bits_of self _ _ He).
  repeat split; try assumption.
  rewrite count_runs_changes.
  pose proof (changes_two_blocks b (1 - b) n0 n1). lia.
Qed.

Lemma generate_random_bits_two_blocks_witness :
  exists (b : Z) (n0 n1 : nat),
    (b = 0 \/ b = 1) /\
    snd (generate_random_bits init [("1"%string, 2); ("0"%string, 3)])
    = Ok (repeat b n0 ++ repeat (1 - b) n1)%list /\
    measurements
      (fst (generate_random_bits init [("1"%string, 2); ("0"%string, 3)]))
    = (repeat b n0 ++ repeat (1 - b) n1)%list /\
    count_runs (repeat b n0 ++ repeat (1 - b) n1) <= 2.
Proof.
  apply (generate_random_bits_two_blocks init
           [("1"%string, 2); ("0"%string, 3)]).
  - repeat constructor; cbn; intuition discriminate.
  - cbn. intuition.
Defined.

(** * The converters *)

Lemma parse_digits_app (base : Z) (s1 s2 : string) :
  forall acc,
    parse_digits base acc (s1 ++ s2)
    = (v <- parse_digits base acc s1 ;; parse_digits base v s2).
Proof.
  induction s1 as [|c s1 IH]; intros acc; cbn [append parse_digits bind].
  - reflexivity.
  - destruct (digit_value c) as [d|]; [|reflexivity].
    destruct (d <? base); [apply IH|reflexivity].
Qed.

Lemma binary_digits_head (p : positive) :
  exists rest, binary_digits p = String "1" rest.
Proof.
  induction p as [p [r IH]|p [r IH]|]; cbn [binary_digits].
  - rewrite IH. eexists. reflexivity.
  - rewrite IH. eexists. reflexivity.
  - eexists. reflexivity.
Qed.

Lemma parse_binary_digits (p : positive) :
  parse_digits 2 0 (binary_digits p) = Ok (Zpos p).
Proof.
  induction p as [p IH|p IH|]; cbn [binary_digits].
  - rewrite parse_digits_app, IH. reflexivity.
  - rewrite parse_digits_app, IH. reflexivity.
  - reflexivity.
Qed.

Lemma int_of_str_binary_digits (p : positive) :
  int_of_str (binary_digits p) 2 = Ok (Zpos p).
Proof.
  destruct (binary_digits_head p) as [r Hr].
  unfold int_of_str. rewrite <- parse_binary_digits. rewrite Hr. reflexivity.
Qed.

Lemma decimal_to_binary_cases (z : Z) :
  decimal_to_binary z =
    match z with
    | Z0 => "0"
    | Zpos p => binary_digits p
    | Zneg p => String "b" (binary_digits p)
    end.
Proof. destruct z; reflexivity. Qed.

(** X1: [decimal_to_binary] followed by [binary_to_decimal] gives back
    every non-negative integer. *)
Theorem decimal_to_binary_round_trip :
  forall n : Z, 0 <= n -> binary_to_decimal (decimal_to_binary n) = Ok n.
Proof.
  intros [|p|p] Hn; [reflexivity| |lia].
  rewrite decimal_to_binary_cases. apply int_of_str_binary_digits.
Qed.

Lemma decimal_to_binary_round_trip_witness :
  binary_to_decimal (decimal_to_binary 10) = Ok 10.
Proof. apply (decimal_to_binary_round_trip 10). lia. Defined.

(** X2: on a negative integer [decimal_to_binary] cuts [bin]'s text after
    its sign and zero: the result is the letter b followed by the digits of
    the absolute value, a text [binary_to_decimal] rejects with
    [ValueError]. *)
Theorem decimal_to_binary_negative :
  forall n : Z, n < 0 ->
    decimal_to_binary n = String "b" (decimal_to_binary (- n)) /\
    binary_to_decimal (decimal_to_binary n) = Raise ValueError.
Proof.
  intros [|p|p] Hn; [lia|lia|]. split; reflexivity.
Qed.

Lemma decimal_to_binary_negative_witness :
  decimal_to_binary (-5) = String "b" (decimal_to_binary (- -5)) /\
  binary_to_decimal (decimal_to_binary (-5)) = Raise ValueError.
Proof. apply (decimal_to_binary_negative (-5)). lia. Defined.

Lemma strip_zeros_bits (l : list Z) :
  BitSequence l -> BitSequence (strip_zeros l).
Proof.
  induction 1 as [|b l Hb Hl IH]; [constructor|].
  destruct Hb as [-> | ->]; cbn [strip_zeros]; [exact IH|].
  constructor; [right; reflexivity|exact Hl].
Qed.

Lemma strip_zeros_value (l : list Z) :
  bits_value (strip_zeros l) = bits_value l.
Proof.
  induction l as [|b l IH]; [reflexivity|].
  destruct b as [|p|p]; try reflexivity. exact IH.
Qed.

Lemma strip_zeros_head (l : list Z) :
  BitSequence l -> strip_zeros l = [] \/ exists t, strip_zeros l = 1 :: t.
Proof.
  induction 1 as [|b l Hb Hl IH]; [left; reflexivity|].
  destruct Hb as [-> | ->]; cbn [strip_zeros]; [exact IH|].
  right. eexists. reflexivity.
Qed.

Lemma binary_digits_fold (t : list Z) :
  BitSequence t ->
  forall p, exists q,
    fold_left (fun acc b => 2 * acc + b) t (Zpos p) = Zpos q /\
    binary_digits q = binary_digits p ++ bit_string t.
Proof.
  induction 1 as [|b t Hb Ht IH]; intros p.
  - exists p. split; [reflexivity|]. cbn. 
    induction (binary_digits p) as [|c s IHs]; cbn; [reflexivity|].
    rewrite <- IHs. reflexivity.
  - cbn [fold_left].
    assert (Hstep : exists p', 2 * Zpos p + b = Zpos p' /\
              binary_digits p' = binary_digits p ++ String (bit_char b) "").
    { destruct Hb as [-> | ->].
      - exists (p~0)%positive. split; reflexivity.
      - exists (p~1)%positive. split; reflexivity. }
    destruct Hstep as (p' & -> & Hp').
    destruct (IH p') as (q & Hq & Hd). exists q. split; [exact Hq|].
    rewrite Hd, Hp'. unfold bit_string. cbn [map string_of_list_ascii].
    clear. induction (binary_digits p) as [|c s IHs]; cbn; [reflexivity|].
    rewrite IHs. reflexivity.
Qed.

Lemma decimal_to_binary_bits (l : list Z) :
  BitSequence l ->
  decimal_to_binary (bits_value l) =
    match strip_zeros l with
    | [] => "0"
    | l' => bit_string l'
    end.
Proof.
  intros Hl. rewrite <- strip_zeros_value.
  pose proof (strip_zeros_bits l Hl) as Hs.
  destruct (strip_zeros_head l Hl) as [-> | [t Ht]]; [reflexivity|].
  rewrite Ht in *. apply Forall_inv_tail in Hs.
  unfold bits_value. cbn [fold_left].
  destruct (binary_digits_fold t Hs 1) as (q & Hq & Hd).
  change (2 * 0 + 1) with (Zpos 1). rewrite Hq, decimal_to_binary_cases, Hd.
  reflexivity.
Qed.

(** X3: [binary_to_decimal] followed by [decimal_to_binary] gives back a
    binary numeral without its leading zeros, and the text 0 when it has
    no other digit: the length of the numeral is lost. *)
Theorem binary_to_decimal_drops_leading_zeros :
  forall l : list Z,
    l <> [] -> BitSequence l ->
    exists d,
      binary_to_decimal (bit_string l) = Ok d /\
      decimal_to_binary d =
        match strip_zeros l with
        | [] => "0"
        | l' => bit_string l'
        end.
Proof.
  intros l Hne Hl. exists (bits_value l). split.
  - apply int_of_str_bits; assumption.
  - apply decimal_to_binary_bits. exact Hl.
Qed.

Lemma binary_to_decimal_drops_leading_zeros_witness :
  exists d,
    binary_to_decimal (bit_string [0; 0; 1; 0]) = Ok d /\
    decimal_to_binary d = "10".
Proof.
  apply (binary_to_decimal_drops_leading_zeros [0; 0; 1; 0]).
  - discriminate.
  - repeat (constructor; [lia|]). constructor.
Defined.

Lemma parse_numeral_digit (base acc d : Z) (c : ascii) (rest : string) :
  Ascii.eqb c "_" = false -> digit_value c = Some d -> (d <? base) = true ->
  forall u,
    parse_numeral base acc u (String c rest)
    = parse_numeral base (base * acc + d) false rest.
Proof.
  intros Hc Hd Hb u. cbn [parse_numeral]. unfold is_digit_of.
  rewrite Hc, Hd, Hb. reflexivity.
Qed.

Ltac parse_digit_step :=
  match goal with
  | |- parse_numeral ?b ?a ?u (String ?c ?s) = _ =>
      let d := eval vm_compute in (digit_value c) in
      match d with
      | Some ?k =>
          rewrite (parse_numeral_digit b a k c s eq_refl eq_refl eq_refl u)
      end
  end.

Lemma parse_hex_digits (u : Hexadecimal.uint) :
  forall acc,
    parse_numeral 16 acc false (HexadecimalString.NilEmpty.string_of_uint u)
    = Ok (acc * 16 ^ Z.of_N (HexadecimalPos.Unsigned.usize u)
          + Z.of_N (HexadecimalPos.Unsigned.of_lu (Hexadecimal.rev u))).
Proof.
  induction u; intros acc;
    try (cbn [HexadecimalString.NilEmpty.string_of_uint];
         unfold Hexadecimal.rev; cbn [Hexadecimal.revapp];
         rewrite HexadecimalPos.Unsigned.of_lu_revapp;
         cbn [HexadecimalPos.Unsigned.usize HexadecimalPos.Unsigned.of_lu];
         parse_digit_step; rewrite IHu; f_equal;
         repeat (rewrite N2Z.inj_add || rewrite N2Z.inj_mul
                 || rewrite N2Z.inj_pow || rewrite N2Z.inj_succ);
         rewrite Z.pow_succ_r by apply N2Z.is_nonneg;
         cbn [Z.of_N]; unfold Hexadecimal.rev; ring).
  cbn. f_equal. ring.
Qed.

Lemma hex_digits_head (p : positive) :
  exists c rest,
    HexadecimalString.NilZero.string_of_uint (Pos.to_hex_uint p)
    = String c rest /\
    HexadecimalString.NilEmpty.string_of_uint (Pos.to_hex_uint p)
    = String c rest /\
    Ascii.eqb c "_" = false /\ is_space c = false /\
    Ascii.eqb c "-" = false /\ Ascii.eqb c "+" = false /\
    is_digit_of 16 c = true.
Proof.
  pose proof (HexadecimalPos.Unsigned.to_uint_nonnil p) as Hn.
  destruct (Pos.to_hex_uint p); try contradiction;
    eexists; eexists; repeat split; reflexivity.
Qed.

Lemma parse_hex_positive (p : positive) :
  parse_numeral 16 0 false
    (HexadecimalString.NilEmpty.string_of_uint (Pos.to_hex_uint p))
  = Ok (Zpos p).
Proof.
  rewrite parse_hex_digits.
  rewrite <- HexadecimalPos.Unsigned.of_uint_alt,
    HexadecimalPos.Unsigned.of_to. reflexivity.
Qed.

Lemma int_of_text_prefixed (c0 c1 c : ascii) (rest : string) (base : Z) :
  is_space c0 = false -> Ascii.eqb c0 "-" = false -> Ascii.eqb c0 "+" = false ->
  strip_base_prefix base (String c0 (String c1 (String c rest)))
  = String c rest ->
  is_digit_of base c = true ->
  int_of_text (String c0 (String c1 (String c rest))) base
  = parse_numeral base 0 false (String c rest) /\
  int_of_text (String "-" (String c0 (String c1 (String c rest)))) base
  = (v <- parse_numeral base 0 false (String c rest) ;; Ok (- v)).
Proof.
  intros Hs Hm Hp Hx Hd. unfold int_of_text. split.
  - cbn [lstrip]. rewrite Hs, Hm, Hp. cbn [orb]. rewrite Hx, Hd.
    destruct (parse_numeral base 0 false (String c rest)); reflexivity.
  - cbn [lstrip]. change (is_space "-") with false. cbv iota.
    change (Ascii.eqb "-" "-") with true. cbn [orb]. cbv iota.
    rewrite Hx, Hd. reflexivity.
Qed.

Lemma int_of_text_hex (z : Z) : int_of_text (hex z) 16 = Ok z.
Proof.
  destruct z as [|p|p]; [reflexivity| |];
    unfold hex; cbn [Z.ltb Z.compare Z.abs Z.to_hex_int];
    cbn [HexadecimalString.NilZero.string_of_int];
    destruct (hex_digits_head p)
      as (c & rest & H0 & H1 & Hu & Hs & Hm & Hp & Hd);
    pose proof (parse_hex_positive p) as Hv; rewrite H1 in Hv;
    rewrite H0; cbn [append];
    assert (Hx : strip_base_prefix 16 (String "0" (String "x" (String c rest)))
                 = String c rest)
      by (cbn [strip_base_prefix]; rewrite Hu; reflexivity);
    destruct (int_of_text_prefixed "0" "x" c rest 16
                eq_refl eq_refl eq_refl Hx Hd) as [Hpos Hneg].
  - rewrite Hpos. exact Hv.
  - rewrite Hneg, Hv. reflexivity.
Qed.


(** X4: on a non-empty bit sequence [to_hex] and [binary_to_hex] print the
    same numeral, and [hex_to_binary] turns it back into the bits without
    their leading zeros (the text 0 when every bit is zero). *)
Theorem to_hex_then_hex_to_binary :
  forall self : QRNG,
    measurements self <> [] -> BitSequence (measurements self) ->
    exists h,
      to_hex self = Ok h /\
      binary_to_hex (bit_string (measurements self)) = Ok h /\
      hex_to_binary h =
        Ok match strip_zeros (measurements self) with
           | [] => "0"
           | l' => bit_string l'
           end.
Proof.
  intros self Hne Hl. exists (hex (bits_value (measurements self))).
  repeat split.
  - unfold to_hex. rewrite to_decimal_bits by assumption. reflexivity.
  - unfold binary_to_hex. rewrite int_of_str_bits by assumption. reflexivity.
  - unfold hex_to_binary. rewrite int_of_text_hex. cbn [bind].
    f_equal. apply decimal_to_binary_bits. exact Hl.
Qed.

Lemma to_hex_then_hex_to_binary_witness :
  exists h,
    to_hex {| measurements := [0; 1; 1; 0; 1]; counts := [] |} = Ok h /\
    binary_to_hex (bit_string [0; 1; 1; 0; 1]) = Ok h /\
    hex_to_binary h = Ok "1101".
Proof.
  apply (to_hex_then_hex_to_binary
           {| measurements := [0; 1; 1; 0; 1]; counts := [] |}).
  - discriminate.
  - repeat (constructor; [lia|]). constructor.
Defined.

(** * The file writers *)

Lemma bits_value_app (l1 l2 : list Z) :
  bits_value (l1 ++ l2) = bits_value l1 * 2 ^ len l2 + bits_value l2.
Proof.
  unfold bits_value at 1. rewrite fold_left_app.
  apply fold_bits_acc.
Qed.

Lemma bits_value_zeros (k : nat) : bits_value (repeat 0 k) = 0.
Proof.
  induction k as [|k IH]; [reflexivity|].
  change (repeat 0 (S k)) with ([0] ++ repeat 0 k)%list.
  rewrite bits_value_app, IH. reflexivity.
Qed.

Lemma bits_value_pad (l : list Z) (k : nat) :
  bits_value (l ++ repeat 0 k) = bits_value l * 2 ^ Z.of_nat k.
Proof.
  rewrite bits_value_app, bits_value_zeros. unfold len.
  rewrite repeat_length. ring.
Qed.

Lemma bits_value_leading_zeros (l : list Z) (k : nat) :
  bits_value (repeat 0 k ++ l) = bits_value l.
Proof. rewrite bits_value_app, bits_value_zeros. ring. Qed.

Lemma ljust_bits (l : list Z) (w : nat) :
  ljust w "0" (bit_string l)
  = bit_string (l ++ repeat 0 (w - List.length l)).
Proof.
  unfold ljust. rewrite bit_string_app, bit_string_zeros, bit_string_length.
  reflexivity.
Qed.

Lemma BitSequence_app (l1 l2 : list Z) :
  BitSequence l1 -> BitSequence l2 -> BitSequence (l1 ++ l2).
Proof. intros H1 H2. apply Forall_app. split; assumption. Qed.

Lemma parse_numeral_bits (l : list Z) :
  BitSequence l ->
  forall acc,
    parse_numeral 2 acc false (bit_string l)
    = Ok (fold_left (fun a b => 2 * a + b) l acc).
Proof.
  induction 1 as [|b l Hb Hl IH]; intros acc; [reflexivity|].
  unfold bit_string. cbn [map string_of_list_ascii fold_left].
  rewrite (parse_numeral_digit 2 acc b (bit_char b)).
  - apply IH.
  - destruct Hb as [-> | ->]; reflexivity.
  - apply digit_value_bit. exact Hb.
  - destruct Hb as [-> | ->]; reflexivity.
Qed.

Lemma int_of_text_bits (l : list Z) :
  l <> [] -> BitSequence l -> int_of_text (bit_string l) 2 = Ok (bits_value l).
Proof.
  intros Hne Hl. destruct l as [|b l]; [contradiction|].
  pose proof (parse_numeral_bits (b :: l) Hl 0) as Hv.
  inversion Hl as [|? ? Hb Hl']; subst.
  unfold int_of_text.
  assert (Hsp : lstrip (bit_string (b :: l)) = bit_string (b :: l))
    by (destruct Hb as [-> | ->]; reflexivity).
  rewrite Hsp.
  assert (Hsg : match bit_string (b :: l) with
                | String c rest =>
                    if Ascii.eqb c "-" || Ascii.eqb c "+" then rest
                    else bit_string (b :: l)
                | EmptyString => bit_string (b :: l)
                end = bit_string (b :: l))
    by (destruct Hb as [-> | ->]; reflexivity).
  rewrite Hsg.
  assert (Hng : match bit_string (b :: l) with
                | String c _ => Ascii.eqb c "-"
                | EmptyString => false
                end = false)
    by (destruct Hb as [-> | ->]; reflexivity).
  rewrite Hng.
  assert (Hpx : strip_base_prefix 2 (bit_string (b :: l)) = bit_string (b :: l)).
  { destruct Hl' as [|b' l' Hb' _];
      [destruct Hb as [-> | ->]; reflexivity|].
    destruct Hb as [-> | ->]; destruct Hb' as [-> | ->]; reflexivity. }
  rewrite Hpx, Hv.
  destruct Hb as [-> | ->]; reflexivity.
Qed.

Lemma save_as_hex_file_bits (os_write : os_write_t) (l : list Z)
    (filename : string) (fs : file_system) :
  l <> [] -> BitSequence l ->
  save_as_hex_file os_write l filename fs
  = os_write fs filename
      (suffix_slice 2
         (hex (bits_value l
               * 2 ^ Z.of_nat ((List.length l + 3) / 4 * 4 - List.length l)))).
Proof.
  intros Hne Hl. unfold save_as_hex_file.
  rewrite (join_bits l Hl), ljust_bits, bit_string_length.
  rewrite int_of_text_bits.
  - rewrite bits_value_pad. reflexivity.
  - destruct l; [contradiction|discriminate].
  - apply BitSequence_app; [exact Hl|apply BitSequence_zeros].
Qed.

Lemma hex_nonneg (v : Z) :
  0 <= v -> hex v = String "0" (String "x" (suffix_slice 2 (hex v))).
Proof. destruct v as [|p|p]; intros Hv; [reflexivity|reflexivity|lia]. Qed.

(** X5: [save_as_hex_file] on an empty list raises [ValueError] before it
    opens the file: the files are as they were, whatever the operating
    system would have answered.  On a non-empty bit sequence it asks the
    operating system once, to open the named file and write one text, and
    ends as that request ends, with its files and its exception if it
    raised; the text is [hex]'s numeral, without its prefix, of the bits
    followed by the fewest zero bits that make their number a multiple of
    four.  Where the request is answered as a successful write, the named
    file holds the text and no other file is touched. *)
Theorem save_as_hex_file_text :
  forall (os_write : os_write_t) (filename : string) (fs : file_system),
    save_as_hex_file os_write [] filename fs = (fs, Raise ValueError) /\
    forall l : list Z,
      l <> [] -> BitSequence l ->
      exists (t : string) (pad : nat),
        (pad < 4)%nat /\
        Nat.modulo (List.length l + pad) 4 = 0%nat /\
        hex (bits_value l * 2 ^ Z.of_nat pad) = String "0" (String "x" t) /\
        save_as_hex_file os_write l filename fs = os_write fs filename t /\
        (os_write fs filename t = (write_file fs filename t, Ok tt) ->
         snd (save_as_hex_file os_write l filename fs) = Ok tt /\
         fst (save_as_hex_file os_write l filename fs) filename = Some t /\
         (forall name, name <> filename ->
            fst (save_as_hex_file os_write l filename fs) name = fs name)).
Proof.
  intros os_write filename fs. split; [reflexivity|].
  intros l Hne Hl.
  set (pad := ((List.length l + 3) / 4 * 4 - List.length l)%nat).
  exists (suffix_slice 2 (hex (bits_value l * 2 ^ Z.of_nat pad))), pad.
  pose proof (Nat.div_mod_eq (List.length l + 3) 4) as Hdm.
  pose proof (Nat.mod_upper_bound (List.length l + 3) 4 ltac:(lia)) as Hub.
  pose proof (save_as_hex_file_bits os_write l filename fs Hne Hl) as Hsave.
  fold pad in Hsave.
  split; [subst pad; lia|]. split.
  { subst pad.
    replace (List.length l + ((List.length l + 3) / 4 * 4 - List.length l))%nat
      with ((List.length l + 3) / 4 * 4)%nat by lia.
    apply Nat.Div0.mod_mul. }
  split.
  { apply hex_nonneg. pose proof (bits_value_bounds l Hl).
    apply Z.mul_nonneg_nonneg; [lia|]. apply Z.pow_nonneg. lia. }
  split; [exact Hsave|].
  intros Hos. rewrite Hsave, Hos. cbn [fst snd].
  split; [reflexivity|]. split.
  - unfold write_file. rewrite String.eqb_refl. reflexivity.
  - intros name Hn. unfold write_file.
    destruct (String.eqb_spec name filename); [contradiction|reflexivity].
Qed.

Lemma save_as_hex_file_text_witness :
  exists (t : string) (pad : nat),
    (pad < 4)%nat /\
    Nat.modulo (List.length [1; 0; 1; 1; 1] + pad) 4 = 0%nat /\
    hex (bits_value [1; 0; 1; 1; 1] * 2 ^ Z.of_nat pad)
    = String "0" (String "x" t) /\
    save_as_hex_file os_write_named [1; 0; 1; 1; 1] "out.hex" (fun _ => None)
    = os_write_named (fun _ => None) "out.hex" t /\
    (os_write_named (fun _ => None) "out.hex" t
     = (write_file (fun _ => None) "out.hex" t, Ok tt) ->
     snd (save_as_hex_file os_write_named [1; 0; 1; 1; 1] "out.hex"
            (fun _ => None)) = Ok tt /\
     fst (save_as_hex_file os_write_named [1; 0; 1; 1; 1] "out.hex"
            (fun _ => None)) "out.hex" = Some t /\
     (forall name, name <> "out.hex" ->
        fst (save_as_hex_file os_write_named [1; 0; 1; 1; 1] "out.hex"
               (fun _ => None)) name = None)).
Proof.
  apply (proj2 (save_as_hex_file_text os_write_named "out.hex"
                  (fun _ => None))
           [1; 0; 1; 1; 1]).
  - discriminate.
  - repeat (constructor; [lia|]). constructor.
Defined.

(** X6: the text [save_as_hex_file] writes does not show leading zero
    bits that fill whole hexadecimal digits: a bit sequence and the same
    sequence after any number of groups of four zeros give the same
    file. *)
Theorem save_as_hex_file_drops_leading_zeros :
  forall (os_write : os_write_t) (l : list Z) (k : nat) (filename : string)
         (fs : file_system),
    l <> [] -> BitSequence l ->
    save_as_hex_file os_write (repeat 0 (4 * k) ++ l) filename fs
    = save_as_hex_file os_write l filename fs.
Proof.
  intros os_write l k filename fs Hne Hl.
  rewrite (save_as_hex_file_bits os_write l) by assumption.
  rewrite save_as_hex_file_bits.
  - rewrite bits_value_leading_zeros, length_app, repeat_length.
    replace ((4 * k + List.length l + 3) / 4 * 4 - (4 * k + List.length l))%nat
      with ((List.length l + 3) / 4 * 4 - List.length l)%nat; [reflexivity|].
    replace (4 * k + List.length l + 3)%nat
      with (List.length l + 3 + k * 4)%nat by lia.
    rewrite Nat.div_add by lia. lia.
  - destruct l; [contradiction|]. destruct (4 * k)%nat; discriminate.
  - apply BitSequence_app; [apply BitSequence_zeros|exact Hl].
Qed.

Lemma save_as_hex_file_drops_leading_zeros_witness :
  save_as_hex_file os_write_named (repeat 0 (4 * 1) ++ [1; 1]) "out.hex"
    (fun _ => None)
  = save_as_hex_file os_write_named [1; 1] "out.hex" (fun _ => None).
Proof.
  apply (save_as_hex_file_drops_leading_zeros os_write_named [1; 1] 1).
  - discriminate.
  - repeat (constructor; [lia|]). constructor.
Defined.

(** * Quotients of counts *)

(** The quotient of two integers, the dividend below the divisor, rounds
    to a double that is below one, or to one. *)
Lemma round_below_one (q e' : Z) (l : location) :
  0 <= q -> e' <= -53 -> q < 2 ^ (- e') ->
  match binary_round_aux F.prec F.emax false q e' l with
  | S754_zero s => s = false
  | S754_finite s m e =>
      s = false /\
      ((e < -52 /\ Zdigits2 (Zpos m) + e <= 0) \/
       (e = -52 /\ Zpos m = 2 ^ 52))
  | _ => False
  end.
Proof.
  intros Hq He Hlt.
  destruct (binary_round_aux_spec false q e' l Hq)
    as (mr & e1 & e2 & He1 & Hmr & He2 & ->).
  rewrite fexp_unfold in He1, He2.
  assert (Hdq : Zdigits2 q + e' <= 0).
  { pose proof (Zdigits2_le_of_lt q (- e') Hq ltac:(lia) Hlt). lia. }
  assert (He1' : e' <= e1 <= -53) by lia.
  assert (Hp : 0 < 2 ^ (e1 - e')) by (apply Z.pow_pos_nonneg; lia).
  assert (Hq1 : q / 2 ^ (e1 - e') < 2 ^ (- e1)).
  { apply Z.div_lt_upper_bound; [exact Hp|].
    rewrite <- Z.pow_add_r by lia.
    replace (e1 - e' + - e1) with (- e') by lia. exact Hlt. }
  assert (Hq1' : 0 <= q / 2 ^ (e1 - e')) by (apply Z.div_pos; lia).
  assert (Hmr' : 0 <= mr <= 2 ^ (- e1)) by lia.
  assert (Hdm : Zdigits2 mr <= - e1 + 1).
  { apply Zdigits2_le_of_lt; [lia|lia|].
    rewrite Z.pow_add_r by lia. change (2 ^ 1) with 2.
    assert (0 < 2 ^ (- e1)) by (apply Z.pow_pos_nonneg; lia). lia. }
  assert (He2' : e1 <= e2 <= -52) by lia.
  assert (Hp2 : 0 < 2 ^ (e2 - e1)) by (apply Z.pow_pos_nonneg; lia).
  destruct (mr / 2 ^ (e2 - e1)) as [|m|m] eqn:Hm.
  - reflexivity.
  - replace (e2 <=? F.emax - F.prec) with true
      by (symmetry; apply Z.leb_le; unfold F.emax, F.prec; lia).
    split; [reflexivity|].
    destruct (Z.eq_dec e2 (-52)) as [E|E]; [right|left].
    + split; [exact E|].
      assert (Hd1 : Zdigits2 mr + e1 = 1) by lia.
      assert (Hmr2 : mr = 2 ^ (- e1)).
      { assert (0 < mr).
        { destruct (Z.eq_dec mr 0) as [Z0|Z0]; [|lia].
          rewrite Z0 in Hd1. cbn in Hd1. lia. }
        pose proof (Zdigits2_bounds mr H) as [Hlo _].
        replace (Zdigits2 mr - 1) with (- e1) in Hlo by lia. lia. }
      rewrite Hmr2, E in Hm. rewrite <- Hm.
      rewrite <- Z.pow_sub_r by lia. f_equal. lia.
    + split; [lia|].
      assert (Hlt1 : mr < 2 ^ (- e1)).
      { destruct (Z.eq_dec mr (2 ^ (- e1))) as [Heq|Hne]; [|lia].
        pose proof (Zdigits2_ge_of_le mr (- e1) ltac:(lia) ltac:(lia)). lia. }
      assert (Hm2 : Zpos m < 2 ^ (- e2)).
      { rewrite <- Hm. apply Z.div_lt_upper_bound; [exact Hp2|].
        rewrite <- Z.pow_add_r by lia.
        replace (e2 - e1 + - e2) with (- e1) by lia. exact Hlt1. }
      pose proof (Zdigits2_le_of_lt (Zpos m) (- e2) ltac:(lia) ltac:(lia) Hm2).
      lia.
  - exfalso. pose proof (Z.div_pos mr (2 ^ (e2 - e1)) ltac:(lia) Hp2). lia.
Qed.

Lemma int_truediv_unit (c n : Z) :
  0 <= c <= n -> 0 < n ->
  exists p,
    int_truediv c n = Ok p /\
    F.leb F.zero p = true /\ F.leb p F.one = true.
Proof.
  intros Hc Hn.
  destruct (Z.eq_dec c 0) as [->|Hc0].
  { exists F.zero. rewrite int_truediv_zero_l by exact Hn.
    repeat split; reflexivity. }
  destruct (Z.eq_dec c n) as [->|Hcn].
  { exists F.one. rewrite int_truediv_self by exact Hn.
    repeat split; reflexivity. }
  assert (Hc1 : 0 < c) by lia.
  unfold int_truediv.
  replace (n =? 0) with false by (symmetry; apply Z.eqb_neq; lia).
  replace (c =? 0) with false by (symmetry; apply Z.eqb_neq; lia).
  replace (c <? 0) with false by (symmetry; apply Z.ltb_ge; lia).
  replace (n <? 0) with false by (symmetry; apply Z.ltb_ge; lia).
  replace (Z.abs c) with c by lia.
  replace (Z.abs n) with n by lia.
  change (xorb false false) with false.
  rewrite (div_core_exact c 0 n 0 Hc1 Hn), fexp_unfold.
  set (e' := Z.min (Z.max (Zdigits2 c + 0 - (Zdigits2 n + 0) - 53) (-1074))
                   (0 - 0)).
  pose proof (Zdigits2_mono c n ltac:(lia)) as Hd.
  assert (He : e' <= -53) by (unfold e'; lia).
  replace (0 - 0 - e') with (- e') by lia.
  assert (Hp : 0 < 2 ^ (- e')) by (apply Z.pow_pos_nonneg; lia).
  pose proof (round_below_one (c * 2 ^ (- e') / n) e'
                (new_location n ((c * 2 ^ (- e')) mod n))
                ltac:(apply Z.div_pos; nia) He
                ltac:(apply Z.div_lt_upper_bound; nia)) as Hr.
  destruct (binary_round_aux F.prec F.emax false (c * 2 ^ (- e') / n) e'
              (new_location n ((c * 2 ^ (- e')) mod n))) as [s|s| |s m e];
    try contradiction.
  - subst s. eexists. repeat split; reflexivity.
  - destruct Hr as [-> Hr]. eexists. split; [reflexivity|]. split; [reflexivity|].
    unfold F.leb, SFleb, SFcompare, F.one.
    destruct Hr as [[Hlt _] | [-> Hm]].
    + destruct (Z.compare_spec e (-52)) as [E|E|E]; try lia; reflexivity.
    + assert (m = 4503599627370496%positive) as ->
        by (apply Pos2Z.inj; rewrite Hm; reflexivity).
      reflexivity.
Qed.

(** * Statistics of the measurements *)

(** X7: on every non-empty list [get_statistics] returns; the two counts
    lie between zero and the total, the two probabilities are doubles
    between 0.0 and 1.0, and on a bit sequence the counts add up to the
    total. *)
Theorem get_statistics_counts_and_probabilities :
  forall (log2 : F.float -> F.float) (self : QRNG),
    measurements self <> [] ->
    exists st,
      get_statistics log2 self = Ok st /\
      Statistics.total_measurements st = len (measurements self) /\
      0 <= Statistics.count_0 st <= Statistics.total_measurements st /\
      0 <= Statistics.count_1 st <= Statistics.total_measurements st /\
      F.leb F.zero (Statistics.probability_0 st) = true /\
      F.leb (Statistics.probability_0 st) F.one = true /\
      F.leb F.zero (Statistics.probability_1 st) = true /\
      F.leb (Statistics.probability_1 st) F.one = true /\
      (BitSequence (measurements self) ->
       Statistics.count_0 st + Statistics.count_1 st
       = Statistics.total_measurements st).
Proof.
  intros log2 self Hne.
  assert (Hlen : 0 < len (measurements self)).
  { destruct (measurements self); [contradiction|]. unfold len. cbn. lia. }
  destruct (int_truediv_unit (count 0 (measurements self))
              (len (measurements self)) (count_bounds _ _) Hlen)
    as (p0 & Hp0 & H0a & H0b).
  destruct (int_truediv_unit (count 1 (measurements self))
              (len (measurements self)) (count_bounds _ _) Hlen)
    as (p1 & Hp1 & H1a & H1b).
  unfold get_statistics.
  destruct (measurements self) as [|b l] eqn:Hm; [contradiction|].
  rewrite Hp0, Hp1. cbn [bind]. eexists. split; [reflexivity|].
  cbn [Statistics.total_measurements Statistics.count_0 Statistics.count_1
       Statistics.probability_0 Statistics.probability_1].
  repeat split; try assumption; try apply count_bounds.
  apply BitSequence_counts.
Qed.

Lemma get_statistics_counts_and_probabilities_witness :
  exists st,
    get_statistics log2_floor {| measurements := [0; 1; 1]; counts := [] |}
    = Ok st /\
    Statistics.total_measurements st = 3 /\
    0 <= Statistics.count_0 st <= Statistics.total_measurements st /\
    0 <= Statistics.count_1 st <= Statistics.total_measurements st /\
    F.leb F.zero (Statistics.probability_0 st) = true /\
    F.leb (Statistics.probability_0 st) F.one = true /\
    F.leb F.zero (Statistics.probability_1 st) = true /\
    F.leb (Statistics.probability_1 st) F.one = true /\
    (BitSequence [0; 1; 1] ->
     Statistics.count_0 st + Statistics.count_1 st
     = Statistics.total_measurements st).
Proof.
  apply (get_statistics_counts_and_probabilities log2_floor
           {| measurements := [0; 1; 1]; counts := [] |}).
  discriminate.
Defined.

Lemma Zdigits2_double (c : Z) : 0 < c -> Zdigits2 (2 * c) = Zdigits2 c + 1.
Proof.
  intros Hc. rewrite Z.mul_comm. change 2 with (2 ^ 1) at 1.
  apply Zdigits2_mul_pow2; lia.
Qed.

Lemma int_truediv_half (c : Z) : 0 < c -> int_truediv c (2 * c) = Ok F.half.
Proof.
  intros Hc. unfold int_truediv.
  replace (2 * c =? 0) with false by (symmetry; apply Z.eqb_neq; lia).
  replace (c =? 0) with false by (symmetry; apply Z.eqb_neq; lia).
  replace (c <? 0) with false by (symmetry; apply Z.ltb_ge; lia).
  replace (2 * c <? 0) with false by (symmetry; apply Z.ltb_ge; lia).
  replace (Z.abs c) with c by lia.
  replace (Z.abs (2 * c)) with (2 * c) by lia.
  rewrite (div_core_exact c 0 (2 * c) 0 Hc ltac:(lia)).
  rewrite Zdigits2_double by exact Hc.
  replace (Zdigits2 c + 0 - (Zdigits2 c + 1 + 0)) with (-1) by lia.
  change (Z.min (fexp F.prec F.emax (-1)) (0 - 0)) with (-54).
  change (0 - 0 - -54) with 54.
  replace (c * 2 ^ 54) with (2 ^ 53 * (2 * c))
    by (change (2 ^ 54) with (2 ^ 53 * 2); ring).
  rewrite Z.div_mul, Z.mod_mul by lia.
  rewrite new_location_zero. reflexivity.
Qed.

Lemma balanced_probabilities (l : list Z) :
  0 < len l -> BitSequence l -> count 0 l = count 1 l ->
  int_truediv (count 0 l) (len l) = Ok F.half /\
  int_truediv (count 1 l) (len l) = Ok F.half.
Proof.
  intros Hlen Hl Hc. pose proof (BitSequence_counts l Hl) as Hs.
  rewrite <- Hc. replace (len l) with (2 * count 0 l) by lia.
  split; apply int_truediv_half; lia.
Qed.

Lemma balanced_entropy (log2 : F.float -> F.float) :
  log2_half_spec log2 ->
  shannon_entropy_of log2 F.half F.half = F.one.
Proof.
  intros Hlog. unfold shannon_entropy_of.
  change (float_gt F.half F.zero) with true. cbv iota.
  change (np_log2 log2 F.half) with (log2 F.half). rewrite Hlog.
  reflexivity.
Qed.

Lemma log2_floor_half : log2_half_spec log2_floor.
Proof. reflexivity. Qed.

(** X8: when [numpy.log2] is exact at one half, a bit sequence with as
    many zeros as ones has probabilities 0.5 and 0.5 and a Shannon entropy
    of exactly 1.0 in both [entropy_test] and [get_statistics]; its quality
    is 'Excellent', in the test and on the line [generate_command]
    prints. *)
Theorem balanced_sequence_entropy_is_one :
  forall log2 : F.float -> F.float,
    log2_half_spec log2 ->
    forall l : list Z,
      0 < len l -> BitSequence l -> count 0 l = count 1 l ->
      exists r st,
        entropy_test log2 l = Ok r /\
        Entropy.shannon_entropy r = F.one /\
        Entropy.entropy_ratio r = F.one /\
        Entropy.quality r = "Excellent" /\
        get_statistics log2 {| measurements := l; counts := [] |} = Ok st /\
        Statistics.probability_0 st = F.half /\
        Statistics.probability_1 st = F.half /\
        Statistics.shannon_entropy st = F.one /\
        quality_label (Statistics.entropy_ratio st) = "Excellent".
Proof.
  intros log2 Hlog l Hlen Hl Hc.
  destruct (balanced_probabilities l Hlen Hl Hc) as [Hp0 Hp1].
  pose proof (balanced_entropy log2 Hlog) as He.
  unfold entropy_test, get_statistics. cbn [measurements].
  destruct l as [|b l]; [unfold len in Hlen; cbn in Hlen; lia|].
  rewrite Hp0, Hp1. cbn [bind]. eexists. eexists.
  split; [reflexivity|].
  cbn [Entropy.shannon_entropy Entropy.entropy_ratio Entropy.quality
       Statistics.probability_0 Statistics.probability_1
       Statistics.shannon_entropy Statistics.entropy_ratio].
  rewrite He. repeat split; reflexivity.
Qed.

Lemma balanced_sequence_entropy_is_one_witness :
  exists r st,
    entropy_test log2_floor [0; 1; 1; 0] = Ok r /\
    Entropy.shannon_entropy r = F.one /\
    Entropy.entropy_ratio r = F.one /\
    Entropy.quality r = "Excellent" /\
    get_statistics log2_floor {| measurements := [0; 1; 1; 0]; counts := [] |}
    = Ok st /\
    Statistics.probability_0 st = F.half /\
    Statistics.probability_1 st = F.half /\
    Statistics.shannon_entropy st = F.one /\
    quality_label (Statistics.entropy_ratio st) = "Excellent".
Proof.
  apply (balanced_sequence_entropy_is_one log2_floor log2_floor_half
           [0; 1; 1; 0]).
  - reflexivity.
  - repeat (constructor; [lia|]). constructor.
  - reflexivity.
Defined.

Lemma zero_not_above (x c : F.float) :
  F.is_zero x = true -> F.ltb F.zero c = true -> float_gt x c = false.
Proof.
  intros Hx Hc. destruct x as [s| | |]; try discriminate.
  destruct c as [s'|[|]| |[|] m e]; try discriminate; destruct s; reflexivity.
Qed.

Lemma single_valued_ratio (log2 : F.float -> F.float) (l : list Z) :
  log2_spec log2 ->
  0 < len l -> BitSequence l -> count 0 l = 0 \/ count 1 l = 0 ->
  exists p0 p1,
    int_truediv (count 0 l) (len l) = Ok p0 /\
    int_truediv (count 1 l) (len l) = Ok p1 /\
    F.is_zero (F.div (shannon_entropy_of log2 p0 p1) F.one) = true.
Proof.
  intros Hlog Hlen Hl Hc.
  destruct (entropy_single_valued log2 false Hlog) as (_ & _ & Ha & Hb).
  destruct (single_valued_probabilities l Hlen Hl Hc) as [[H0 H1] | [H0 H1]].
  - exists F.one, F.zero. repeat split; assumption.
  - exists F.zero, F.one. repeat split; assumption.
Qed.

(** X9: when [numpy.log2] is zero at 1.0, a bit sequence that holds one
    value only gets the quality 'Poor', from [entropy_test] and on the line
    [generate_command] prints from [get_statistics]. *)
Theorem single_valued_quality_is_poor :
  forall log2 : F.float -> F.float,
    log2_spec log2 ->
    forall l : list Z,
      0 < len l -> BitSequence l -> count 0 l = 0 \/ count 1 l = 0 ->
      exists r st,
        entropy_test log2 l = Ok r /\
        Entropy.quality r = "Poor" /\
        get_statistics log2 {| measurements := l; counts := [] |} = Ok st /\
        quality_label (Statistics.entropy_ratio st) = "Poor".
Proof.
  intros log2 Hlog l Hlen Hl Hc.
  destruct (single_valued_ratio log2 l Hlog Hlen Hl Hc)
    as (p0 & p1 & Hp0 & Hp1 & Hz).
  unfold entropy_test, get_statistics. cbn [measurements].
  destruct l as [|b l]; [unfold len in Hlen; cbn in Hlen; lia|].
  rewrite Hp0, Hp1. cbn [bind]. eexists. eexists.
  split; [reflexivity|]. split.
  { cbn [Entropy.quality].
    rewrite !(zero_not_above _ _ Hz) by reflexivity. reflexivity. }
  split; [reflexivity|].
  cbn [Statistics.entropy_ratio]. unfold quality_label.
  rewrite !(zero_not_above _ _ Hz) by reflexivity. reflexivity.
Qed.

Lemma single_valued_quality_is_poor_witness :
  exists r st,
    entropy_test log2_floor [1; 1; 1] = Ok r /\
    Entropy.quality r = "Poor" /\
    get_statistics log2_floor {| measurements := [1; 1; 1]; counts := [] |}
    = Ok st /\
    quality_label (Statistics.entropy_ratio st) = "Poor".
Proof.
  apply (single_valued_quality_is_poor log2_floor log2_floor_spec [1; 1; 1]).
  - reflexivity.
  - repeat (constructor; [lia|]). constructor.
  - left. reflexivity.
Defined.

(** * The analyze command *)

Lemma valid_half :
  F.valid F.half = true /\ F.ltb F.zero F.half = true /\
  F.ltb F.half F.one = true.
Proof. repeat split; reflexivity. Qed.

Lemma entropy_test_returns (log2 : F.float -> F.float) (l : list Z) :
  0 < len l -> exists r, entropy_test log2 l = Ok r.
Proof.
  intros Hlen.
  destruct (int_truediv_unit (count 0 l) (len l) (count_bounds _ _) Hlen)
    as (p0 & Hp0 & _).
  destruct (int_truediv_unit (count 1 l) (len l) (count_bounds _ _) Hlen)
    as (p1 & Hp1 & _).
  unfold entropy_test. rewrite Hp0, Hp1. cbn [bind]. eexists. reflexivity.
Qed.

Lemma BitSequence_two_blocks (b : Z) (n0 n1 : nat) :
  b = 0 \/ b = 1 -> BitSequence (repeat b n0 ++ repeat (1 - b) n1).
Proof.
  intros Hb. apply BitSequence_app; apply Forall_forall; intros x Hx;
    apply repeat_spec in Hx; lia.
Qed.

Lemma analyze_command_of (chi2_cdf pow2 norm_cdf log2 : F.float -> F.float)
    (job_counts : counts_dict) (ms : list Z) :
  extend_from_counts job_counts [] = Ok ms ->
  analyze_command chi2_cdf pow2 norm_cdf log2 job_counts =
    (chi_square <- chi_square_test chi2_cdf pow2 ms F.half ;;
     runs <- runs_test norm_cdf ms ;;
     entropy <- entropy_test log2 ms ;;
     Ok (overall_assessment chi_square runs entropy)).
Proof.
  intros He. unfold analyze_command.
  rewrite (generate_random_bits_of init _ _ He). reflexivity.
Qed.

Lemma chi_square_test_returns (chi2_cdf pow2 : F.float -> F.float)
    (l : list Z) :
  pow2_spec pow2 -> 0 < len l <= sys_maxsize ->
  exists r, chi_square_test chi2_cdf pow2 l F.half = Ok r.
Proof.
  intros Hpow Hlen. destruct valid_half as (Hv & H0 & H1).
  pose proof (chi_square_statistic_ok pow2 l F.half Hpow Hlen Hv H0 H1) as Hs.
  eexists. apply (chi_square_test_of_statistic chi2_cdf pow2 _ _ _ Hs).
Qed.

Lemma runs_test_returns (norm_cdf : F.float -> F.float) (l : list Z) :
  2 <= len l <= sys_maxsize -> exists r, runs_test norm_cdf l = Ok r.
Proof.
  intros Hlen. destruct (runs_statistic_returns l Hlen) as (q & v & r & _ & Hs).
  eexists. apply (runs_test_of_statistic norm_cdf _ _ _ _ Hs).
Qed.

(** X10: [analyze_command] on the counts of a one-qubit job, the C
    library's [pow] returning no infinity below [2 ^ 480].  When the job
    has one measurement the chi-square test returns a result and the runs
    test, which comes next, raises [ZeroDivisionError]: the command stops
    with that exception.  When it has two or more the command raises
    nothing and prints an assessment. *)
Theorem analyze_command_needs_two_measurements :
  forall (chi2_cdf pow2 norm_cdf log2 : F.float -> F.float)
         (job_counts : counts_dict),
    pow2_spec pow2 ->
    NoDup (map fst job_counts) ->
    (forall k, In k (map fst job_counts) -> k = "0" \/ k = "1") ->
    exists ms,
      snd (generate_random_bits init job_counts) = Ok ms /\
      BitSequence ms /\
      (len ms = 1 ->
       (exists c, chi_square_test chi2_cdf pow2 ms F.half = Ok c) /\
       runs_test norm_cdf ms = Raise ZeroDivisionError /\
       analyze_command chi2_cdf pow2 norm_cdf log2 job_counts
       = Raise ZeroDivisionError) /\
      (2 <= len ms <= sys_maxsize ->
       exists assessment,
         analyze_command chi2_cdf pow2 norm_cdf log2 job_counts
         = Ok assessment).
Proof.
  intros chi2_cdf pow2 norm_cdf log2 job_counts Hpow Hnd Hk.
  destruct (one_qubit_counts job_counts Hnd Hk) as (b & n0 & n1 & Hb & He).
  pose proof (BitSequence_two_blocks b n0 n1 Hb) as Hbits.
  set (ms := (repeat b n0 ++ repeat (1 - b) n1)%list) in *.
  exists ms. rewrite (generate_random_bits_of init _ _ He).
  rewrite (analyze_command_of chi2_cdf pow2 norm_cdf log2 _ _ He).
  split; [reflexivity|]. split; [exact Hbits|]. split.
  - intros Hlen.
    pose proof (runs_test_raises norm_cdf ms ZeroDivisionError
                  (runs_statistic_short ms ltac:(lia))) as Hruns.
    destruct (chi_square_test_returns chi2_cdf pow2 ms Hpow
                ltac:(unfold sys_maxsize; lia)) as [c Hc].
    split; [exists c; exact Hc|]. split; [exact Hruns|].
    rewrite Hc, Hruns. reflexivity.
  - intros Hlen.
    destruct (chi_square_test_returns chi2_cdf pow2 ms Hpow ltac:(lia))
      as [c ->].
    destruct (runs_test_returns norm_cdf ms Hlen) as [r ->].
    destruct (entropy_test_returns log2 ms ltac:(lia)) as [e ->].
    eexists. reflexivity.
Qed.

Lemma analyze_command_needs_two_measurements_witness :
  exists ms,
    snd (generate_random_bits init [("0", 1)]) = Ok ms /\
    BitSequence ms /\
    (len ms = 1 ->
     (exists c, chi_square_test chi2_cdf_step pow2_nearest ms F.half = Ok c) /\
     runs_test norm_cdf_step ms = Raise ZeroDivisionError /\
     analyze_command chi2_cdf_step pow2_nearest norm_cdf_step log2_floor
       [("0", 1)]
     = Raise ZeroDivisionError) /\
    (2 <= len ms <= sys_maxsize ->
     exists assessment,
       analyze_command chi2_cdf_step pow2_nearest norm_cdf_step log2_floor
         [("0", 1)]
       = Ok assessment).
Proof.
  apply (analyze_command_needs_two_measurements
           chi2_cdf_step pow2_nearest norm_cdf_step log2_floor [("0", 1)]).
  - exact pow2_nearest_spec.
  - repeat constructor; cbn; intuition discriminate.
  - cbn. intuition.
Defined.

(** X11: when [norm.cdf] answers NaN with NaN and the C library's [pow]
    returns no infinity below [2 ^ 480], [analyze_command] on a job whose
    measurements (two or more) all have one value prints 'NEEDS
    IMPROVEMENT': the z-score of the runs test is NaN, which fails the
    test whatever the two other tests say. *)
Theorem analyze_command_single_valued :
  forall (chi2_cdf pow2 norm_cdf log2 : F.float -> F.float)
         (job_counts : counts_dict) (ms : list Z),
    pow2_spec pow2 ->
    norm_cdf S754_nan = S754_nan ->
    snd (generate_random_bits init job_counts) = Ok ms ->
    2 <= len ms <= sys_maxsize -> BitSequence ms ->
    count 0 ms = 0 \/ count 1 ms = 0 ->
    analyze_command chi2_cdf pow2 norm_cdf log2 job_counts
    = Ok "NEEDS IMPROVEMENT".
Proof.
  intros chi2_cdf pow2 norm_cdf log2 job_counts ms Hpow Hnan Hg Hlen Hbits Hc.
  assert (He : extend_from_counts job_counts [] = Ok ms).
  { unfold generate_random_bits in Hg.
    destruct (extend_from_counts job_counts []); cbn in Hg; congruence. }
  rewrite (analyze_command_of chi2_cdf pow2 norm_cdf log2 _ _ He).
  destruct (chi_square_test_returns chi2_cdf pow2 ms Hpow ltac:(lia))
    as [c ->].
  rewrite (runs_test_of_statistic norm_cdf _ _ _ _
             (runs_statistic_single_valued ms ltac:(lia) Hbits Hc)).
  destruct (entropy_test_returns log2 ms ltac:(lia)) as [e ->].
  cbn [bind]. unfold overall_assessment.
  cbn [Runs.passes_test F.abs SFabs]. rewrite Hnan.
  change (float_gt (F.mul F.two (F.sub F.one S754_nan)) F.c0_05) with false.
  rewrite Bool.andb_false_r. reflexivity.
Qed.

Lemma analyze_command_single_valued_witness :
  analyze_command chi2_cdf_step pow2_nearest norm_cdf_step log2_floor
    [("1", 3)]
  = Ok "NEEDS IMPROVEMENT".
Proof.
  apply (analyze_command_single_valued chi2_cdf_step pow2_nearest
           norm_cdf_step log2_floor [("1", 3)] [1; 1; 1]).
  - exact pow2_nearest_spec.
  - reflexivity.
  - reflexivity.
  - unfold len, sys_maxsize. cbn. lia.
  - repeat (constructor; [lia|]). constructor.
  - left. reflexivity.
Defined.

(** * What the encoders keep of a bit sequence *)

Lemma bits_value_cons (b : Z) (l : list Z) :
  bits_value (b :: l) = b * 2 ^ len l + bits_value l.
Proof.
  change (b :: l) with ([b] ++ l)%list. rewrite bits_value_app.
  unfold bits_value at 1. cbn [fold_left]. ring.
Qed.

Lemma bits_value_inj (l1 : list Z) :
  forall l2,
    BitSequence l1 -> BitSequence l2 -> List.length l1 = List.length l2 ->
    bits_value l1 = bits_value l2 -> l1 = l2.
Proof.
  induction l1 as [|b1 l1 IH]; intros [|b2 l2] H1 H2 Hlen Hv;
    try discriminate; [reflexivity|].
  inversion H1 as [|? ? Hb1 Hl1]; subst.
  inversion H2 as [|? ? Hb2 Hl2]; subst.
  injection Hlen as Hlen.
  rewrite !bits_value_cons in Hv.
  pose proof (bits_value_bounds l1 Hl1) as B1.
  pose proof (bits_value_bounds l2 Hl2) as B2.
  unfold len in *. rewrite Hlen in Hv, B1.
  set (P := 2 ^ Z.of_nat (List.length l2)) in *.
  assert (HP : 0 < P) by (apply Z.pow_pos_nonneg; lia).
  assert (b1 = b2) by (destruct Hb1, Hb2; subst; nia).
  subst b2. f_equal. apply IH; try assumption. lia.
Qed.

Lemma hex_inj (a b : Z) : hex a = hex b -> a = b.
Proof.
  intros H. pose proof (int_of_text_hex a) as Ha.
  rewrite H, int_of_text_hex in Ha. congruence.
Qed.

(** X12: a bit sequence of known length can be read back from its decimal
    value and from its hexadecimal text: two non-empty bit sequences of
    the same length with the same [to_decimal], or the same [to_hex], are
    the same sequence.  The length is needed: zeros put in front change
    neither result. *)
Theorem to_decimal_determines_bits :
  forall self other : QRNG,
    measurements self <> [] -> BitSequence (measurements self) ->
    BitSequence (measurements other) ->
    (List.length (measurements self) = List.length (measurements other) ->
     to_decimal self = to_decimal other \/ to_hex self = to_hex other ->
     measurements self = measurements other) /\
    (forall k : nat,
       to_decimal {| measurements := repeat 0 k ++ measurements self;
                     counts := counts self |}
       = to_decimal self /\
       to_hex {| measurements := repeat 0 k ++ measurements self;
                 counts := counts self |}
       = to_hex self).
Proof.
  intros self other Hne Hs Ho. split.
  - intros Hlen Heq.
    assert (Hne' : measurements other <> []).
    { destruct (measurements self); [contradiction|].
      destruct (measurements other); discriminate. }
    apply bits_value_inj; try assumption.
    unfold to_hex in Heq.
    rewrite !to_decimal_bits in Heq by assumption. cbn [bind] in Heq.
    destruct Heq as [Heq | Heq]; injection Heq as Heq;
      [exact Heq|apply hex_inj; exact Heq].
  - intros k.
    assert (Hd : to_decimal {| measurements := repeat 0 k ++ measurements self;
                               counts := counts self |}
                 = to_decimal self).
    { rewrite !to_decimal_bits; cbn [measurements]; try assumption.
      - rewrite bits_value_leading_zeros. reflexivity.
      - destruct (measurements self); [contradiction|].
        destruct k; discriminate.
      - apply BitSequence_app; [apply BitSequence_zeros|exact Hs]. }
    split; [exact Hd|]. unfold to_hex. rewrite Hd. reflexivity.
Qed.

Lemma to_decimal_determines_bits_witness :
  (List.length [1; 0; 1] = List.length [1; 0; 1] ->
   to_decimal {| measurements := [1; 0; 1]; counts := [] |}
   = to_decimal {| measurements := [1; 0; 1]; counts := [] |} \/
   to_hex {| measurements := [1; 0; 1]; counts := [] |}
   = to_hex {| measurements := [1; 0; 1]; counts := [] |} ->
   [1; 0; 1] = [1; 0; 1]) /\
  (forall k : nat,
     to_decimal {| measurements := repeat 0 k ++ [1; 0; 1]; counts := [] |}
     = to_decimal {| measurements := [1; 0; 1]; counts := [] |} /\
     to_hex {| measurements := repeat 0 k ++ [1; 0; 1]; counts := [] |}
     = to_hex {| measurements := [1; 0; 1]; counts := [] |}).
Proof.
  apply (to_decimal_determines_bits
           {| measurements := [1; 0; 1]; counts := [] |}
           {| measurements := [1; 0; 1]; counts := [] |}).
  - discriminate.
  - repeat (constructor; [lia|]). constructor.
  - repeat (constructor; [lia|]). constructor.
Defined.

Lemma first_32_short (l : list Z) :
  (List.length l <= 32)%nat ->
  first_32 l = (l ++ repeat 0 (32 - List.length l))%list.
Proof.
  intros Hlen. unfold first_32. apply firstn_all2.
  rewrite length_app, repeat_length. lia.
Qed.

Lemma first_32_short_value (l : list Z) :
  (List.length l <= 32)%nat ->
  bits_value (first_32 l) = bits_value l * 2 ^ (32 - len l).
Proof.
  intros Hlen. rewrite first_32_short, bits_value_pad by exact Hlen.
  unfold len. do 2 f_equal. lia.
Qed.

(** X13: on a non-empty bit sequence of at most 32 bits [to_float] is
    exactly [to_decimal] divided by two to the number of bits. *)
Theorem to_float_of_short_sequence :
  forall self : QRNG,
    measurements self <> [] -> BitSequence (measurements self) ->
    (List.length (measurements self) <= 32)%nat ->
    exists f q d,
      to_float self = Ok f /\ to_decimal self = Ok d /\
      F.to_Q f = Some q /\
      Qeq q (d # Z.to_pos (2 ^ len (measurements self))).
Proof.
  intros self Hne Hl Hlen.
  destruct (int_truediv_pow32_value (bits_value (first_32 (measurements self)))
              (first_32_value _ Hl)) as (f & q & Hf & Hq & He & _).
  exists f, q, (bits_value (measurements self)).
  rewrite to_float_bits, to_decimal_bits by assumption.
  repeat split; try assumption.
  rewrite He, first_32_short_value by exact Hlen.
  unfold Qeq. cbn [Qnum Qden].
  assert (Hn : 0 <= len (measurements self) <= 32) by (unfold len; lia).
  rewrite Z2Pos.id by (apply Z.pow_pos_nonneg; lia).
  change (Z.pos 4294967296) with (2 ^ 32).
  rewrite <- !Z.mul_assoc, <- Z.pow_add_r by lia.
  do 2 f_equal. lia.
Qed.

Lemma to_float_of_short_sequence_witness :
  exists f q d,
    to_float {| measurements := [1; 1; 0]; counts := [] |} = Ok f /\
    to_decimal {| measurements := [1; 1; 0]; counts := [] |} = Ok d /\
    F.to_Q f = Some q /\
    Qeq q (d # Z.to_pos (2 ^ len [1; 1; 0])).
Proof.
  apply (to_float_of_short_sequence
           {| measurements := [1; 1; 0]; counts := [] |}).
  - discriminate.
  - repeat (constructor; [lia|]). constructor.
  - cbn. lia.
Defined.

(** X14: [to_float] tells two non-empty bit sequences apart exactly when
    their first 32 bits differ (a shorter sequence counted with zeros
    after it): no two such 32-bit prefixes share a double. *)
Theorem to_float_determines_first_32_bits :
  forall self other : QRNG,
    measurements self <> [] -> BitSequence (measurements self) ->
    measurements other <> [] -> BitSequence (measurements other) ->
    (to_float self = to_float other <->
     first_32 (measurements self) = first_32 (measurements other)).
Proof.
  intros self other Hne1 Hl1 Hne2 Hl2.
  rewrite !to_float_bits by assumption. split.
  - intros Heq.
    destruct (int_truediv_pow32_value _ (first_32_value _ Hl1))
      as (f1 & q1 & Hf1 & Hq1 & He1 & _).
    destruct (int_truediv_pow32_value _ (first_32_value _ Hl2))
      as (f2 & q2 & Hf2 & Hq2 & He2 & _).
    rewrite Hf1, Hf2 in Heq. injection Heq as <-.
    rewrite Hq1 in Hq2. injection Hq2 as <-.
    rewrite He1 in He2. unfold Qeq in He2. cbn [Qnum Qden] in He2.
    apply bits_value_inj.
    + apply first_32_bits. exact Hl1.
    + apply first_32_bits. exact Hl2.
    + rewrite !first_32_length. reflexivity.
    + lia.
  - intros ->. reflexivity.
Qed.

Lemma to_float_determines_first_32_bits_witness :
  to_float {| measurements := [1; 0]; counts := [] |}
  = to_float {| measurements := [1; 0; 0]; counts := [] |} <->
  first_32 [1; 0] = first_32 [1; 0; 0].
Proof.
  apply (to_float_determines_first_32_bits
           {| measurements := [1; 0]; counts := [] |}
           {| measurements := [1; 0; 0]; counts := [] |}).
  - discriminate.
  - repeat (constructor; [lia|]). constructor.
  - discriminate.
  - repeat (constructor; [lia|]). constructor.
Defined.

(** * What the tests see of the order of the measurements *)

Lemma Permutation_count (x : Z) (l l' : list Z) :
  Permutation l l' -> count x l = count x l'.
Proof.
  intros Hp. unfold count. f_equal.
  apply (proj1 (Permutation_count_occ Z.eq_dec l l') Hp).
Qed.

Lemma Permutation_len (l l' : list Z) : Permutation l l' -> len l = len l'.
Proof. intros Hp. unfold len. f_equal. apply Permutation_length. exact Hp. Qed.

(** X15: the chi-square test, the entropy test and [get_statistics] look
    at the measurements through the two counts and the length only: they
    give the same result, or raise the same exception, on any two lists
    that are rearrangements of each other. *)
Theorem counting_tests_ignore_order :
  forall (chi2_cdf pow2 log2 : F.float -> F.float) (l l' : list Z)
         (expected_prob : F.float) (c c' : counts_dict),
    Permutation l l' ->
    chi_square_test chi2_cdf pow2 l expected_prob
    = chi_square_test chi2_cdf pow2 l' expected_prob /\
    entropy_test log2 l = entropy_test log2 l' /\
    get_statistics log2 {| measurements := l; counts := c |}
    = get_statistics log2 {| measurements := l'; counts := c' |}.
Proof.
  intros chi2_cdf pow2 log2 l l' p c c' Hp.
  pose proof (Permutation_count 0 l l' Hp) as H0.
  pose proof (Permutation_count 1 l l' Hp) as H1.
  pose proof (Permutation_len l l' Hp) as Hn.
  repeat split.
  - unfold chi_square_test, chi_square_statistic_of.
    rewrite H0, H1, Hn. reflexivity.
  - unfold entropy_test. rewrite H0, H1, Hn. reflexivity.
  - unfold get_statistics. cbn [measurements].
    destruct l as [|x l].
    + apply Permutation_nil in Hp. subst l'. reflexivity.
    + destruct l' as [|x' l'].
      * apply Permutation_sym, Permutation_nil in Hp. discriminate.
      * rewrite H0, H1, Hn. reflexivity.
Qed.

Lemma counting_tests_ignore_order_witness :
  chi_square_test chi2_cdf_step pow2_nearest [0; 1; 1] F.half
  = chi_square_test chi2_cdf_step pow2_nearest [1; 0; 1] F.half /\
  entropy_test log2_floor [0; 1; 1] = entropy_test log2_floor [1; 0; 1] /\
  get_statistics log2_floor {| measurements := [0; 1; 1]; counts := [] |}
  = get_statistics log2_floor {| measurements := [1; 0; 1]; counts := [] |}.
Proof.
  apply (counting_tests_ignore_order chi2_cdf_step pow2_nearest log2_floor
           [0; 1; 1] [1; 0; 1] F.half [] []).
  apply perm_swap.
Defined.

Lemma changes_snoc (l : list Z) :
  forall x y,
    changes (x :: l ++ [y])
    = changes (x :: l) + (if last (x :: l) 0 =? y then 0 else 1).
Proof.
  induction l as [|z l IH]; intros x y.
  - cbn. lia.
  - change ((z :: l) ++ [y])%list with (z :: l ++ [y])%list.
    rewrite !changes_cons2, IH.
    change (last (x :: z :: l) 0) with (last (z :: l) 0). lia.
Qed.

Lemma last_rev_cons (x : Z) (l : list Z) : last (rev (x :: l)) 0 = x.
Proof. cbn [rev]. apply last_last. Qed.

Lemma changes_rev (l : list Z) : changes (rev l) = changes l.
Proof.
  induction l as [|x l IH]; [reflexivity|].
  destruct l as [|y l]; [reflexivity|].
  rewrite changes_cons2, <- IH.
  change (rev (x :: y :: l)) with (rev (y :: l) ++ [x])%list.
  destruct (rev (y :: l)) as [|z r] eqn:Hr.
  - apply (f_equal (@List.length Z)) in Hr.
    rewrite length_rev in Hr. discriminate.
  - change ((z :: r) ++ [x])%list with (z :: r ++ [x])%list.
    rewrite changes_snoc, <- Hr, last_rev_cons, Z.eqb_sym. lia.
Qed.

Lemma changes_flip (l : list Z) :
  changes (map (fun b => 1 - b) l) = changes l.
Proof.
  induction l as [|x l IH]; [reflexivity|].
  destruct l as [|y l]; [reflexivity|].
  change (map (fun b => 1 - b) (x :: y :: l))
    with (1 - x :: map (fun b => 1 - b) (y :: l)) in *.
  change (map (fun b => 1 - b) (y :: l))
    with (1 - y :: map (fun b => 1 - b) l) in *.
  rewrite !changes_cons2, IH.
  destruct (Z.eqb_spec (1 - x) (1 - y)), (Z.eqb_spec x y); lia.
Qed.

Lemma count_flip (l : list Z) :
  BitSequence l ->
  count 0 (map (fun b => 1 - b) l) = count 1 l /\
  count 1 (map (fun b => 1 - b) l) = count 0 l.
Proof.
  induction 1 as [|b l Hb Hl [IH0 IH1]]; [split; reflexivity|].
  cbn [map]. rewrite !count_cons, IH0, IH1.
  destruct Hb as [-> | ->]; split; reflexivity.
Qed.

(** X16: the runs test reads a sequence the same in both directions and
    does not tell the two bit values apart: the reversed list, and the
    bit sequence with every bit flipped, get the result of the list
    itself. *)
Theorem runs_test_reversal_and_flip :
  forall (norm_cdf : F.float -> F.float) (l : list Z),
    runs_test norm_cdf (rev l) = runs_test norm_cdf l /\
    (BitSequence l ->
     runs_test norm_cdf (map (fun b => 1 - b) l) = runs_test norm_cdf l).
Proof.
  intros norm_cdf l. split.
  - unfold runs_test, runs_statistic.
    rewrite count_runs_changes, changes_rev, <- count_runs_changes.
    unfold count, len. rewrite !count_occ_rev, length_rev. reflexivity.
  - intros Hl. destruct (count_flip l Hl) as [H0 H1].
    unfold runs_test, runs_statistic.
    rewrite count_runs_changes, changes_flip, <- count_runs_changes.
    rewrite H0, H1. unfold len. rewrite length_map.
    replace (2 * count 1 l * count 0 l) with (2 * count 0 l * count 1 l)
      by ring.
    reflexivity.
Qed.

Lemma runs_test_reversal_and_flip_witness :
  runs_test norm_cdf_step (rev [0; 0; 1]) = runs_test norm_cdf_step [0; 0; 1] /\
  (BitSequence [0; 0; 1] ->
   runs_test norm_cdf_step (map (fun b => 1 - b) [0; 0; 1])
   = runs_test norm_cdf_step [0; 0; 1]).
Proof. apply (runs_test_reversal_and_flip norm_cdf_step [0; 0; 1]). Defined.

Lemma add_comm (x y : F.float) : F.add x y = F.add y x.
Proof.
  unfold F.add, SFadd.
  destruct x as [[|]|[|]| |sx mx ex], y as [[|]|[|]| |sy my ey];
    try reflexivity.
  rewrite (Z.min_comm ey ex), Z.add_comm. reflexivity.
Qed.

(** With a non-zero expected count the statistic does not depend on which
    class comes first. *)
Lemma chi_square_statistic_swap (pow2 : F.float -> F.float) (l l' : list Z)
    (p : F.float) :
  len l' = len l -> count 0 l' = count 1 l -> count 1 l' = count 0 l ->
  F.is_zero (F.mul (nearest (len l)) p) = false ->
  chi_square_statistic_of pow2 l' p = chi_square_statistic_of pow2 l p.
Proof.
  intros Hlen Hc0 Hc1 Hnz. unfold chi_square_statistic_of.
  rewrite Hlen, Hc0, Hc1.
  destruct (float_of_int (len l)) as [t|e0] eqn:Et; cbn [bind];
    [|reflexivity].
  apply float_of_int_nearest in Et. subst t.
  destruct (chi_square_term pow2 (count 0 l) _) as [t0|e0] eqn:E0;
    destruct (chi_square_term pow2 (count 1 l) _) as [t1|e1] eqn:E1;
    cbn [bind]; try reflexivity.
  - rewrite add_comm. reflexivity.
  - apply chi_square_term_exn in E0. apply chi_square_term_exn in E1.
    destruct E0 as [->|[_ E0]]; [|congruence].
    destruct E1 as [->|[_ E1]]; [reflexivity|congruence].
Qed.

(** X17: for an expected probability strictly between 0 and 1 the
    chi-square test does not tell the two bit values apart: a bit sequence
    and the sequence with every bit flipped get the same statistic,
    p-value and verdict. *)
Theorem chi_square_test_flip :
  forall (chi2_cdf pow2 : F.float -> F.float) (l : list Z)
         (expected_prob : F.float),
    0 < len l <= sys_maxsize -> BitSequence l ->
    F.valid expected_prob = true ->
    F.ltb F.zero expected_prob = true ->
    F.ltb expected_prob F.one = true ->
    chi_square_test chi2_cdf pow2 (map (fun b => 1 - b) l) expected_prob
    = chi_square_test chi2_cdf pow2 l expected_prob.
Proof.
  intros chi2_cdf pow2 l p Hlen Hl Hv H0 H1.
  destruct (count_flip l Hl) as [Hc0 Hc1].
  assert (Hlen' : len (map (fun b => 1 - b) l) = len l)
    by (unfold len; rewrite length_map; reflexivity).
  assert (Hnz : F.is_zero (F.mul (nearest (len l)) p) = false).
  { destruct (F.is_zero (F.mul (nearest (len l)) p)) eqn:E; [|reflexivity].
    apply (expected_count_zero_iff l p ltac:(lia) Hv) in E.
    destruct E as [[E _]|E]; [lia|].
    destruct p; discriminate. }
  unfold chi_square_test.
  rewrite (chi_square_statistic_swap pow2 l _ p Hlen' Hc0 Hc1 Hnz).
  reflexivity.
Qed.

Lemma chi_square_test_flip_witness :
  chi_square_test chi2_cdf_step pow2_nearest (map (fun b => 1 - b) [0; 0; 1])
    F.half
  = chi_square_test chi2_cdf_step pow2_nearest [0; 0; 1] F.half.
Proof.
  apply (chi_square_test_flip chi2_cdf_step pow2_nearest [0; 0; 1] F.half).
  - unfold len, sys_maxsize. cbn. lia.
  - repeat (constructor; [lia|]). constructor.
  - reflexivity.
  - reflexivity.
  - reflexivity.
Defined.

(** * Exact cases of the chi-square statistic *)

Lemma nearest_small (c : Z) :
  0 < c < 2 ^ 53 ->
  exists m : positive,
    Zpos m = c * 2 ^ (53 - Zdigits2 c) /\
    Zdigits2 (Zpos m) = 53 /\
    nearest c = S754_finite false m (Zdigits2 c - 53).
Proof.
  intros Hc. destruct c as [|p|p]; try lia.
  assert (Hd : Zdigits2 (Zpos p) <= 53) by (apply Zdigits2_le_of_lt; lia).
  pose proof (Zdigits2_pos (Zpos p) ltac:(lia)) as Hd1.
  destruct (binary_round_exact false p 0 Hd ltac:(lia)) as (m & Hm & Hr).
  exists m. split; [exact Hm|]. split.
  - rewrite Hm, Zdigits2_mul_pow2 by lia. lia.
  - unfold nearest, binary_normalize. rewrite Hr. f_equal; lia.
Qed.

Lemma mul_half_exact (m : positive) (e : Z) :
  Zdigits2 (Zpos m) = 53 -> -1073 <= e <= 972 ->
  F.mul (S754_finite false m e) F.half = S754_finite false m (e - 1).
Proof.
  intros Hd He. unfold F.mul, F.half, SFmul.
  change (xorb false false) with false.
  rewrite Pos2Z.inj_mul.
  change (Zpos 4503599627370496) with (2 ^ 52).
  rewrite binary_round_aux_exact by lia.
  f_equal. lia.
Qed.

Lemma sub_self (s : bool) (m : positive) (e : Z) :
  F.sub (S754_finite s m e) (S754_finite s m e) = F.zero.
Proof.
  unfold F.sub, SFsub. rewrite Z.min_id.
  unfold shl_align. rewrite Z.sub_diag. reflexivity.
Qed.

Lemma half_of_double (c : Z) :
  0 < c -> 2 * c < 2 ^ 53 ->
  exists m e,
    nearest c = S754_finite false m e /\
    F.mul (nearest (2 * c)) F.half = S754_finite false m e.
Proof.
  intros Hc H2.
  destruct (nearest_small c ltac:(lia)) as (m & Hm & Hd & Hn).
  destruct (nearest_small (2 * c) ltac:(lia)) as (m' & Hm' & Hd' & Hn').
  pose proof (Zdigits2_pos c Hc) as Hp.
  assert (Hdc : Zdigits2 (2 * c) <= 53) by (apply Zdigits2_le_of_lt; lia).
  rewrite Zdigits2_double in * by exact Hc.
  assert (m' = m) as ->.
  { apply Pos2Z.inj. rewrite Hm, Hm'.
    replace (53 - Zdigits2 c) with (1 + (53 - (Zdigits2 c + 1))) by lia.
    rewrite Z.pow_add_r by lia. change (2 ^ 1) with 2. ring. }
  exists m, (Zdigits2 c - 53). split; [exact Hn|].
  rewrite Hn', mul_half_exact by lia. f_equal. lia.
Qed.

Lemma float_of_int_ok (c : Z) :
  0 <= c <= sys_maxsize -> float_of_int c = Ok (nearest c).
Proof.
  intros Hc.
  destruct (float_of_int_below c 63 (Zdigits2_maxsize c Hc) ltac:(lia))
    as (f & Hf & _).
  rewrite Hf. f_equal. apply float_of_int_nearest. exact Hf.
Qed.

(** No difference, no call of [pow]: the square of zero is CPython's. *)
Lemma chi_square_statistic_balanced (pow2 : F.float -> F.float)
    (l : list Z) :
  BitSequence l -> 0 < len l < 2 ^ 53 -> count 0 l = count 1 l ->
  chi_square_statistic_of pow2 l F.half = Ok F.zero.
Proof.
  intros Hl Hlen Hc. pose proof (BitSequence_counts l Hl) as Hs.
  unfold chi_square_statistic_of. rewrite <- Hc.
  replace (len l) with (2 * count 0 l) by lia.
  destruct (half_of_double (count 0 l) ltac:(lia) ltac:(lia))
    as (m & e & Hn & Hm).
  rewrite float_of_int_ok by (unfold sys_maxsize; lia).
  cbn [bind]. rewrite Hm.
  unfold chi_square_term.
  rewrite float_of_int_ok by (unfold sys_maxsize; lia).
  cbn [bind]. rewrite Hn, sub_self. reflexivity.
Qed.

(** X18: when [chi2.cdf] is zero at zero, a bit sequence of fewer than
    [2 ^ 53] bits with as many zeros as ones gets, for the expected
    probability 0.5, the chi-square statistic 0.0 exactly, the p-value 1.0
    and a passed test. *)
Theorem chi_square_test_balanced :
  forall (chi2_cdf pow2 : F.float -> F.float) (l : list Z),
    F.is_zero (chi2_cdf F.zero) = true ->
    BitSequence l -> 0 < len l < 2 ^ 53 -> count 0 l = count 1 l ->
    exists r,
      chi_square_test chi2_cdf pow2 l F.half = Ok r /\
      ChiSquare.chi_square_statistic r = F.zero /\
      ChiSquare.p_value r = F.one /\
      ChiSquare.passes_test r = true /\
      ChiSquare.interpretation r = "Random".
Proof.
  intros chi2_cdf pow2 l Hz Hl Hlen Hc.
  pose proof (chi_square_statistic_balanced pow2 l Hl Hlen Hc) as Hs.
  eexists.
  split; [apply (chi_square_test_of_statistic chi2_cdf pow2 _ _ _ Hs)|].
  cbn [ChiSquare.chi_square_statistic ChiSquare.p_value
       ChiSquare.passes_test ChiSquare.interpretation].
  rewrite (sub_one_zero _ Hz). repeat split.
Qed.

Lemma chi_square_test_balanced_witness :
  exists r,
    chi_square_test chi2_cdf_step pow2_nearest [1; 0; 0; 1] F.half = Ok r /\
    ChiSquare.chi_square_statistic r = F.zero /\
    ChiSquare.p_value r = F.one /\
    ChiSquare.passes_test r = true /\
    ChiSquare.interpretation r = "Random".
Proof.
  apply (chi_square_test_balanced chi2_cdf_step pow2_nearest [1; 0; 0; 1]).
  - reflexivity.
  - repeat (constructor; [lia|]). constructor.
  - unfold len. cbn. lia.
  - reflexivity.
Defined.

Lemma binary_round_scaled (s : bool) (m m' : positive) (e n : Z) :
  Zdigits2 (Zpos m) = 53 -> 0 <= n -> Zpos m' = Zpos m * 2 ^ n ->
  -1074 <= e + n <= 971 ->
  binary_round F.prec F.emax s m' e = S754_finite s m (e + n).
Proof.
  intros Hd Hn Hm He. unfold binary_round.
  change (Zpos (digits2_pos m')) with (Zdigits2 (Zpos m')).
  rewrite Hm, Zdigits2_mul_pow2, Hd, fexp_unfold by lia.
  unfold shl_align.
  replace (Z.max (53 + n + e - 53) (-1074) - e) with n by lia.
  destruct n as [|p|p]; try lia; rewrite Hm;
    apply binary_round_aux_exact; lia.
Qed.

Lemma sub_double_half (m : positive) (k : Z) :
  Zdigits2 (Zpos m) = 53 -> -1073 <= k <= 971 ->
  F.sub (S754_finite false m k) (S754_finite false m (k - 1))
  = S754_finite false m (k - 1).
Proof.
  intros Hd Hk. unfold F.sub, SFsub.
  replace (Z.min k (k - 1)) with (k - 1) by lia.
  unfold shl_align. rewrite Z.sub_diag.
  replace (k - 1 - k) with (-1) by lia.
  cbn [fst Pos.iter cond_Zopp].
  rewrite Pos2Z.inj_xO.
  replace (2 * Zpos m - Zpos m) with (Zpos m) by lia.
  cbn [binary_normalize].
  rewrite (binary_round_scaled false m m (k - 1) 0) by lia.
  f_equal. lia.
Qed.

Lemma add_self (m : positive) (e : Z) :
  Zdigits2 (Zpos m) = 53 -> -1075 <= e <= 970 ->
  F.add (S754_finite false m e) (S754_finite false m e)
  = S754_finite false m (e + 1).
Proof.
  intros Hd He. unfold F.add, SFadd. rewrite Z.min_id.
  unfold shl_align. rewrite Z.sub_diag. cbn [fst cond_Zopp].
  rewrite Pos2Z.add_pos_pos, Pos.add_diag.
  cbn [binary_normalize].
  apply (binary_round_scaled false m (m~0) e 1); lia.
Qed.

Lemma mul_exact (s1 s2 : bool) (m1 m2 mz : positive) (e1 e2 n : Z) :
  Zdigits2 (Zpos mz) = 53 -> 0 <= n ->
  Zpos m1 * Zpos m2 = Zpos mz * 2 ^ n ->
  -1074 <= e1 + e2 + n <= 971 ->
  F.mul (S754_finite s1 m1 e1) (S754_finite s2 m2 e2)
  = S754_finite (xorb s1 s2) mz (e1 + e2 + n).
Proof.
  intros Hd Hn Hm He. unfold F.mul, SFmul.
  rewrite Pos2Z.inj_mul, Hm. apply binary_round_aux_exact; lia.
Qed.

Lemma div_exact (m1 m2 mz : positive) (e1 e2 n : Z) :
  Zdigits2 (Zpos m1) = 53 -> Zdigits2 (Zpos m2) = 53 ->
  Zdigits2 (Zpos mz) = 53 -> 0 <= n ->
  Zpos m1 * 2 ^ 53 = Zpos mz * 2 ^ n * Zpos m2 ->
  -1021 <= e1 - e2 -> e1 - e2 - 53 + n <= 971 ->
  F.div (S754_finite false m1 e1) (S754_finite false m2 e2)
  = S754_finite false mz (e1 - e2 - 53 + n).
Proof.
  intros H1 H2 Hz Hn Hq Hlo Hhi. unfold F.div, SFdiv.
  rewrite (div_core_exact (Zpos m1) e1 (Zpos m2) e2) by lia.
  rewrite H1, H2, fexp_unfold.
  replace (Z.min (Z.max (53 + e1 - (53 + e2) - 53) (-1074)) (e1 - e2))
    with (e1 - e2 - 53) by lia.
  replace (e1 - e2 - (e1 - e2 - 53)) with 53 by lia.
  rewrite Hq, Z.div_mul, Z.mod_mul by lia.
  rewrite new_location_zero. change (xorb false false) with false.
  apply binary_round_aux_exact; lia.
Qed.

(** Where the square of a double is a double, [**] returns it. *)
Lemma square_exact (pow2 : F.float -> F.float) (s : bool)
    (m mz : positive) (e n : Z) :
  pow2_spec pow2 ->
  Zdigits2 (Zpos mz) = 53 -> 0 <= n ->
  Zpos m * Zpos m = Zpos mz * 2 ^ n ->
  -1074 <= e + e + n <= 971 ->
  square pow2 (S754_finite s m e) = S754_finite false mz (e + e + n).
Proof.
  intros [Hexact _] Hd Hn Hm He.
  pose proof (mul_exact false false m m mz e e n Hd Hn Hm He) as Hmul.
  change (xorb false false) with false in Hmul.
  unfold square. cbn [F.abs SFabs].
  destruct (SFeqb (S754_finite false m e) F.one) eqn:E.
  - unfold SFeqb, SFcompare, F.one in E.
    destruct (Z.compare_spec e (-52)) as [He52|He52|He52]; try discriminate.
    rewrite pos_compare_cont_eq in E.
    destruct (Z.compare_spec (Zpos m) 4503599627370496) as [Hm52|Hm52|Hm52];
      try discriminate.
    injection Hm52 as ->. subst e. rewrite <- Hmul. reflexivity.
  - rewrite <- Hmul.
    apply (Hexact (S754_finite false m e)
             (Qmake (1 * Zpos m * 2 ^ Z.max e 0)
                    (Z.to_pos (2 ^ Z.max (- e) 0)))
             (Qmake (1 * Zpos mz * 2 ^ Z.max (e + e + n) 0)
                    (Z.to_pos (2 ^ Z.max (- (e + e + n)) 0)))).
    + reflexivity.
    + rewrite Hmul. reflexivity.
    + unfold Qeq, Qmult. cbn [Qnum Qden].
      rewrite Pos2Z.inj_mul.
      rewrite !Z2Pos.id by (apply Z.pow_pos_nonneg; lia).
      set (a := Z.max e 0). set (b := Z.max (- e) 0).
      set (A := Z.max (e + e + n) 0). set (B := Z.max (- (e + e + n)) 0).
      assert (Hp : 2 ^ A * (2 ^ b * 2 ^ b) = 2 ^ n * (2 ^ a * 2 ^ a) * 2 ^ B).
      { rewrite <- !Z.pow_add_r by lia. f_equal. lia. }
      replace (1 * Zpos mz * 2 ^ A * (2 ^ b * 2 ^ b))
        with (Zpos mz * (2 ^ A * (2 ^ b * 2 ^ b))) by ring.
      rewrite Hp.
      replace (1 * Zpos m * 2 ^ a * (1 * Zpos m * 2 ^ a) * 2 ^ B)
        with (Zpos m * Zpos m * (2 ^ a * 2 ^ a) * 2 ^ B) by ring.
      rewrite Hm. ring.
Qed.

Lemma single_valued_term (pow2 : F.float -> F.float) (n : Z) (m : positive)
    (s : bool) :
  pow2_spec pow2 ->
  0 < n < 2 ^ 26 -> Zpos m = n * 2 ^ (53 - Zdigits2 n) ->
  F.div (square pow2 (S754_finite s m (Zdigits2 n - 54)))
        (S754_finite false m (Zdigits2 n - 54))
  = S754_finite false m (Zdigits2 n - 54).
Proof.
  intros Hspec Hn Hm.
  pose proof (Zdigits2_pos n ltac:(lia)) as Hd1.
  assert (Hd26 : Zdigits2 n <= 26) by (apply Zdigits2_le_of_lt; lia).
  assert (Hd : Zdigits2 (Zpos m) = 53)
    by (rewrite Hm, Zdigits2_mul_pow2 by lia; lia).
  assert (Hsq : 0 < n * n < 2 ^ 52).
  { change (2 ^ 52) with (2 ^ 26 * 2 ^ 26). nia. }
  set (D := Zdigits2 (n * n)).
  pose proof (Zdigits2_pos (n * n) ltac:(lia)) as HD1. fold D in HD1.
  assert (HD52 : D <= 52) by (apply Zdigits2_le_of_lt; lia).
  pose proof (Zdigits2_mul_le n n ltac:(lia) ltac:(lia)) as HDle.
  pose proof (Zdigits2_mul_ge n n ltac:(lia) ltac:(lia)) as HDge.
  fold D in HDle, HDge.
  assert (Hp : 0 < n * n * 2 ^ (53 - D)).
  { apply Z.mul_pos_pos; [lia|apply Z.pow_pos_nonneg; lia]. }
  destruct (n * n * 2 ^ (53 - D)) as [|mz|mz] eqn:Hmz; try lia.
  assert (Hdz : Zdigits2 (Zpos mz) = 53).
  { rewrite <- Hmz, Zdigits2_mul_pow2 by lia. fold D. lia. }
  assert (Hpow : forall a b, 0 <= a -> 0 <= b ->
            n * n * 2 ^ a * 2 ^ b = n * n * 2 ^ (a + b))
    by (intros a b Ha Hb; rewrite Z.pow_add_r by lia; ring).
  assert (Hmm : Zpos m * Zpos m = Zpos mz * 2 ^ (53 - 2 * Zdigits2 n + D)).
  { rewrite <- Hmz, Hm, Hpow by lia.
    replace (n * 2 ^ (53 - Zdigits2 n) * (n * 2 ^ (53 - Zdigits2 n)))
      with (n * n * 2 ^ (53 - Zdigits2 n) * 2 ^ (53 - Zdigits2 n)) by ring.
    rewrite Hpow by lia. do 2 f_equal. lia. }
  assert (Hdv : Zpos mz * 2 ^ 53
                = Zpos m * 2 ^ (2 * Zdigits2 n - D) * Zpos m).
  { rewrite <- Hmz, Hm, Hpow by lia.
    replace (n * 2 ^ (53 - Zdigits2 n) * 2 ^ (2 * Zdigits2 n - D)
             * (n * 2 ^ (53 - Zdigits2 n)))
      with (n * n * 2 ^ (53 - Zdigits2 n) * 2 ^ (2 * Zdigits2 n - D)
            * 2 ^ (53 - Zdigits2 n)) by ring.
    rewrite !Hpow by lia. do 2 f_equal. lia. }
  rewrite (square_exact pow2 s m mz (Zdigits2 n - 54)
             (53 - 2 * Zdigits2 n + D)
             Hspec Hdz ltac:(lia) Hmm ltac:(lia)).
  rewrite (div_exact mz m m
             (Zdigits2 n - 54 + (Zdigits2 n - 54) + (53 - 2 * Zdigits2 n + D))
             (Zdigits2 n - 54) (2 * Zdigits2 n - D)
             Hdz Hd Hd ltac:(lia) Hdv ltac:(lia) ltac:(lia)).
  f_equal. lia.
Qed.

Lemma chi_square_formula_single_valued (pow2 : F.float -> F.float)
    (l : list Z) :
  pow2_spec pow2 ->
  BitSequence l -> 0 < len l < 2 ^ 26 -> count 0 l = 0 \/ count 1 l = 0 ->
  chi_square_formula pow2 l F.half = nearest (len l).
Proof.
  intros Hpow Hl Hlen Hc. pose proof (BitSequence_counts l Hl) as Hs.
  set (n := len l) in *.
  destruct (nearest_small n ltac:(lia)) as (m & Hm & Hd & Hn).
  pose proof (Zdigits2_pos n ltac:(lia)) as Hd1.
  assert (Hd26 : Zdigits2 n <= 26) by (apply Zdigits2_le_of_lt; lia).
  unfold chi_square_formula. fold n. rewrite Hn.
  rewrite mul_half_exact by lia.
  replace (Zdigits2 n - 53 - 1) with (Zdigits2 n - 54) by lia.
  assert (Hfull : F.sub (S754_finite false m (Zdigits2 n - 53))
                        (S754_finite false m (Zdigits2 n - 54))
                  = S754_finite false m (Zdigits2 n - 54)).
  { replace (Zdigits2 n - 54) with (Zdigits2 n - 53 - 1) by lia.
    apply sub_double_half; lia. }
  assert (Hnone : F.sub (nearest 0) (S754_finite false m (Zdigits2 n - 54))
                  = S754_finite true m (Zdigits2 n - 54)) by reflexivity.
  assert (Hsum : F.add (S754_finite false m (Zdigits2 n - 54))
                       (S754_finite false m (Zdigits2 n - 54))
                 = S754_finite false m (Zdigits2 n - 53)).
  { rewrite add_self by lia. f_equal. lia. }
  destruct Hc as [Hc | Hc]; rewrite Hc;
    [replace (count 1 l) with n by lia | replace (count 0 l) with n by lia];
    rewrite Hn, Hfull, Hnone, !(single_valued_term pow2)
      by (try exact Hm; try exact Hpow; lia);
    exact Hsum.
Qed.

Lemma five_le_nearest (n : Z) : 5 <= n < 2 ^ 53 -> F.leb F.five (nearest n) = true.
Proof.
  intros Hn. destruct (nearest_small n ltac:(lia)) as (m & Hm & Hd & ->).
  assert (H3 : 3 <= Zdigits2 n).
  { apply (Zdigits2_ge_of_le n 2); [lia|]. change (2 ^ 2) with 4. lia. }
  unfold F.leb, SFleb, SFcompare, F.five.
  destruct (Z.compare_spec (-50) (Zdigits2 n - 53)) as [E|E|E];
    try lia; try reflexivity.
  unfold Pos.compare. rewrite pos_compare_cont_eq, Hm.
  replace (53 - Zdigits2 n) with 50 by lia.
  change (Zpos 5629499534213120) with (5 * 2 ^ 50).
  destruct (Z.compare_spec (5 * 2 ^ 50) (n * 2 ^ 50)) as [E'|E'|E'];
    try reflexivity. lia.
Qed.

(** X19: for the expected probability 0.5, a bit sequence of fewer than
    [2 ^ 26] measurements that all have one value gets a chi-square
    statistic equal to its length, exactly, the C library's [pow]
    returning the exact square where that is a double; when [chi2.cdf] is
    at least 0.97 from 5 on, five or more such measurements fail the
    test. *)
Theorem chi_square_test_single_valued :
  forall (chi2_cdf pow2 : F.float -> F.float) (l : list Z),
    chi2_cdf_spec chi2_cdf -> pow2_spec pow2 ->
    BitSequence l -> 0 < len l < 2 ^ 26 ->
    count 0 l = 0 \/ count 1 l = 0 ->
    exists r,
      chi_square_test chi2_cdf pow2 l F.half = Ok r /\
      ChiSquare.chi_square_statistic r = nearest (len l) /\
      (5 <= len l ->
       ChiSquare.passes_test r = false /\
       ChiSquare.interpretation r = "Not random").
Proof.
  intros chi2_cdf pow2 l [_ Hlarge] Hpow Hl Hlen Hc.
  destruct valid_half as (Hv & H0 & H1).
  pose proof (chi_square_statistic_ok pow2 l F.half Hpow
                ltac:(unfold sys_maxsize; lia) Hv H0 H1) as Hs.
  rewrite (chi_square_formula_single_valued pow2 l Hpow Hl Hlen Hc) in Hs.
  eexists.
  split; [apply (chi_square_test_of_statistic chi2_cdf pow2 _ _ _ Hs)|].
  cbn [ChiSquare.chi_square_statistic ChiSquare.passes_test
       ChiSquare.interpretation].
  split; [reflexivity|]. intros H5.
  destruct (Hlarge (nearest (len l)) (five_le_nearest (len l) ltac:(lia)))
    as (Hcv & Hcl & Hcu).
  rewrite (chi_p_value_small _ Hcv Hcl Hcu). split; reflexivity.
Qed.

Lemma chi_square_test_single_valued_witness :
  exists r,
    chi_square_test chi2_cdf_step pow2_nearest [1; 1; 1; 1; 1; 1] F.half
    = Ok r /\
    ChiSquare.chi_square_statistic r = nearest (len [1; 1; 1; 1; 1; 1]) /\
    (5 <= len [1; 1; 1; 1; 1; 1] ->
     ChiSquare.passes_test r = false /\
     ChiSquare.interpretation r = "Not random").
Proof.
  apply (chi_square_test_single_valued chi2_cdf_step pow2_nearest
           [1; 1; 1; 1; 1; 1]).
  - exact chi2_cdf_step_spec.
  - exact pow2_nearest_spec.
  - repeat (constructor; [lia|]). constructor.
  - unfold len. cbn. lia.
  - left. reflexivity.
Defined.

(** * The classical comparison *)

Lemma len_map_seq (f : nat -> Z) (n : Z) :
  len (map f (seq 0 (Z.to_nat n))) = Z.max 0 n.
Proof. unfold len. rewrite length_map, length_seq. lia. Qed.

Lemma BitSequence_map_seq (f : nat -> Z) (k : nat) :
  (forall i, f i = 0 \/ f i = 1) -> BitSequence (map f (seq 0 k)).
Proof.
  intros Hf. apply Forall_forall. intros x Hx.
  apply in_map_iff in Hx. destruct Hx as (i & <- & _). apply Hf.
Qed.

(** X20: [compare_with_classical_random] raises [ZeroDivisionError] for
    zero samples.  For a negative number it draws nothing and returns zero
    counts and zero probabilities.  For a positive number it returns
    counts between zero and the number of samples and probabilities
    between 0.0 and 1.0; the counts add up to the number of samples when
    every draw is 0 or 1. *)
Theorem compare_with_classical_random_cases :
  forall (randint : nat -> Z) (num_samples : Z),
    (num_samples = 0 ->
     compare_with_classical_random randint num_samples
     = Raise ZeroDivisionError) /\
    (num_samples < 0 ->
     exists r,
       compare_with_classical_random randint num_samples = Ok r /\
       Classical.count_0 r = 0 /\ Classical.count_1 r = 0 /\
       F.is_zero (Classical.probability_0 r) = true /\
       F.is_zero (Classical.probability_1 r) = true) /\
    (0 < num_samples ->
     exists r,
       compare_with_classical_random randint num_samples = Ok r /\
       0 <= Classical.count_0 r <= num_samples /\
       0 <= Classical.count_1 r <= num_samples /\
       F.leb F.zero (Classical.probability_0 r) = true /\
       F.leb (Classical.probability_0 r) F.one = true /\
       F.leb F.zero (Classical.probability_1 r) = true /\
       F.leb (Classical.probability_1 r) F.one = true /\
       ((forall i, randint i = 0 \/ randint i = 1) ->
        Classical.count_0 r + Classical.count_1 r = num_samples)).
Proof.
  intros randint n. split; [|split].
  - intros ->. reflexivity.
  - intros Hn. unfold compare_with_classical_random.
    replace (Z.to_nat n) with 0%nat by lia. cbn [seq map].
    change (count 0 []) with 0. change (count 1 []) with 0.
    unfold int_truediv.
    replace (n =? 0) with false by (symmetry; apply Z.eqb_neq; lia).
    cbn [Z.eqb bind]. eexists. split; [reflexivity|].
    repeat split; reflexivity.
  - intros Hn. unfold compare_with_classical_random.
    set (bits := map randint (seq 0 (Z.to_nat n))).
    assert (Hlen : len bits = n) by (unfold bits; rewrite len_map_seq; lia).
    pose proof (count_bounds 0 bits) as H0.
    pose proof (count_bounds 1 bits) as H1.
    rewrite Hlen in H0, H1.
    destruct (int_truediv_unit (count 0 bits) n H0 Hn)
      as (p0 & Hp0 & H0a & H0b).
    destruct (int_truediv_unit (count 1 bits) n H1 Hn)
      as (p1 & Hp1 & H1a & H1b).
    rewrite Hp0, Hp1. cbn [bind]. eexists. split; [reflexivity|].
    cbn [Classical.count_0 Classical.count_1 Classical.probability_0
         Classical.probability_1].
    repeat split; try assumption; try lia.
    intros Hbits. rewrite <- Hlen. apply BitSequence_counts.
    apply BitSequence_map_seq. exact Hbits.
Qed.

Lemma compare_with_classical_random_cases_witness :
  compare_with_classical_random (fun i => Z.of_nat (Nat.modulo i 2)) 0
  = Raise ZeroDivisionError /\
  exists r,
    compare_with_classical_random (fun i => Z.of_nat (Nat.modulo i 2)) 5
    = Ok r /\
    0 <= Classical.count_0 r <= 5 /\
    0 <= Classical.count_1 r <= 5 /\
    F.leb F.zero (Classical.probability_0 r) = true /\
    F.leb (Classical.probability_0 r) F.one = true /\
    F.leb F.zero (Classical.probability_1 r) = true /\
    F.leb (Classical.probability_1 r) F.one = true /\
    ((forall i, Z.of_nat (Nat.modulo i 2) = 0 \/ Z.of_nat (Nat.modulo i 2) = 1) ->
     Classical.count_0 r + Classical.count_1 r = 5).
Proof.
  split.
  - apply (proj1 (compare_with_classical_random_cases
                    (fun i => Z.of_nat (Nat.modulo i 2)) 0)).
    reflexivity.
  - apply (proj2 (proj2 (compare_with_classical_random_cases
                           (fun i => Z.of_nat (Nat.modulo i 2)) 5))).
    lia.
Defined.

(** * The running average of the bit sequence plot *)

Lemma sum_acc (l : list Z) :
  forall acc, fold_left Z.add l acc = acc + sum l.
Proof.
  unfold sum. induction l as [|x l IH]; intros acc; cbn [fold_left]; [lia|].
  rewrite IH, (IH (0 + x)). lia.
Qed.

Lemma sum_bits (l : list Z) : BitSequence l -> 0 <= sum l <= len l.
Proof.
  induction 1 as [|b l Hb Hl IH]; [unfold sum, len; cbn; lia|].
  unfold sum. cbn [fold_left]. rewrite sum_acc.
  unfold len in *. cbn [List.length]. lia.
Qed.

Lemma BitSequence_skipn (n : nat) :
  forall l, BitSequence l -> BitSequence (skipn n l).
Proof.
  induction n as [|n IH]; intros l Hl; [exact Hl|].
  destruct l as [|x l]; [constructor|].
  cbn [skipn]. apply IH. exact (Forall_inv_tail Hl).
Qed.

Lemma slice_window (l : list Z) (i : nat) (w : Z) :
  0 <= w -> Z.of_nat i + w <= len l ->
  slice l (Z.of_nat i) (Z.of_nat i + w)
  = firstn (Z.to_nat w) (skipn i l) /\
  len (firstn (Z.to_nat w) (skipn i l)) = w.
Proof.
  intros Hw Hi. unfold slice.
  replace (Z.of_nat i <? 0) with false by (symmetry; apply Z.ltb_ge; lia).
  replace (Z.of_nat i + w <? 0) with false by (symmetry; apply Z.ltb_ge; lia).
  rewrite !Z.min_l by lia.
  replace (Z.of_nat i + w - Z.of_nat i) with w by lia.
  rewrite Nat2Z.id. split; [reflexivity|].
  unfold len in *. rewrite length_firstn, length_skipn. lia.
Qed.

Lemma running_avg_loop_spec (l : list Z) (w : Z) :
  BitSequence l -> 1 <= w ->
  forall indices acc,
    (forall i, In i indices -> Z.of_nat i + w <= len l) ->
    exists avgs,
      running_avg_loop l w indices acc = Ok (acc ++ avgs)%list /\
      Forall2
        (fun i a =>
           int_truediv (sum (firstn (Z.to_nat w) (skipn i l))) w = Ok a /\
           F.leb F.zero a = true /\ F.leb a F.one = true)
        indices avgs.
Proof.
  intros Hl Hw indices.
  induction indices as [|i rest IH]; intros acc Hin.
  - exists []. rewrite app_nil_r. split; [reflexivity|constructor].
  - destruct (slice_window l i w ltac:(lia) (Hin i (or_introl eq_refl)))
      as [Hs Hlen].
    pose proof (sum_bits _ (BitSequence_firstn (Z.to_nat w) _
                              (BitSequence_skipn i l Hl))) as Hsum.
    rewrite Hlen in Hsum.
    destruct (int_truediv_unit _ w Hsum ltac:(lia)) as (a & Ha & Ha0 & Ha1).
    destruct (IH (acc ++ [a])%list (fun j Hj => Hin j (or_intror Hj)))
      as (avgs & Hr & Hf).
    exists (a :: avgs). cbn [running_avg_loop].
    rewrite Hs, Hlen, Ha. cbn [bind]. rewrite Hr, <- app_assoc.
    split; [reflexivity|]. constructor; [|exact Hf].
    repeat split; assumption.
Qed.

(** X21: the running average of [plot_bit_sequence] over a bit sequence,
    for a window of at least one and at most all of the measurements:
    nothing is raised, there is one average per position of the window
    ([len(measurements) - window_size + 1] of them), each is the sum of
    the window's bits divided by [window_size], and each is a double
    between 0.0 and 1.0. *)
Theorem running_avg_of_bits :
  forall (l : list Z) (window_size : Z),
    BitSequence l -> 1 <= window_size <= len l ->
    exists avgs,
      running_avg l window_size = Ok avgs /\
      len avgs = len l - window_size + 1 /\
      Forall2
        (fun i a =>
           int_truediv (sum (firstn (Z.to_nat window_size) (skipn i l)))
             window_size = Ok a /\
           F.leb F.zero a = true /\ F.leb a F.one = true)
        (seq 0 (Z.to_nat (len l - window_size + 1))) avgs.
Proof.
  intros l w Hl Hw. unfold running_avg.
  destruct (running_avg_loop_spec l w Hl ltac:(lia)
              (seq 0 (Z.to_nat (len l - w + 1))) [])
    as (avgs & Hr & Hf).
  - intros i Hi. apply in_seq in Hi. lia.
  - exists avgs. split; [exact Hr|]. split; [|exact Hf].
    apply Forall2_length in Hf. rewrite length_seq in Hf.
    unfold len in *. lia.
Qed.

Lemma running_avg_of_bits_witness :
  exists avgs,
    running_avg [0; 1; 1; 0] 2 = Ok avgs /\
    len avgs = len [0; 1; 1; 0] - 2 + 1 /\
    Forall2
      (fun i a =>
         int_truediv (sum (firstn (Z.to_nat 2) (skipn i [0; 1; 1; 0]))) 2
         = Ok a /\
         F.leb F.zero a = true /\ F.leb a F.one = true)
      (seq 0 (Z.to_nat (len [0; 1; 1; 0] - 2 + 1))) avgs.
Proof.
  apply (running_avg_of_bits [0; 1; 1; 0] 2).
  - repeat (constructor; [lia|]). constructor.
  - unfold len. cbn. lia.
Defined.

(** X22: the edges of the window size.  A window of zero measurements
    makes the running average divide zero by zero: [ZeroDivisionError],
    whatever the measurements are.  A window longer than the list gives no
    average at all and raises nothing. *)
Theorem running_avg_window_edges :
  forall (l : list Z) (window_size : Z),
    (window_size = 0 -> running_avg l window_size = Raise ZeroDivisionError) /\
    (len l < window_size -> running_avg l window_size = Ok []).
Proof.
  intros l w. split.
  - intros ->. unfold running_avg.
    replace (Z.to_nat (len l - 0 + 1)) with (S (List.length l))
      by (unfold len; lia).
    cbn [seq running_avg_loop].
    unfold slice. cbn [Z.of_nat Z.add Z.ltb Z.compare].
    rewrite Z.min_l by apply len_nonneg. reflexivity.
  - intros Hw. unfold running_avg.
    replace (Z.to_nat (len l - w + 1)) with 0%nat by lia. reflexivity.
Qed.

Lemma running_avg_window_edges_witness :
  running_avg [0; 1; 1] 0 = Raise ZeroDivisionError /\
  running_avg [0; 1; 1] 100 = Ok [].
Proof.
  split.
  - apply (proj1 (running_avg_window_edges [0; 1; 1] 0)). reflexivity.
  - apply (proj2 (running_avg_window_edges [0; 1; 1] 100)).
    unfold len. cbn. lia.
Defined.

(** * From the counts of a job to the statistics *)

Lemma get_count_absent (key : string) (d : counts_dict) :
  ~ In key (map fst d) -> get_count key d = 0.
Proof.
  induction d as [|[k v] d IH]; intros Hn; [reflexivity|].
  cbn [get_count]. cbn [map fst In] in Hn.
  destruct (String.eqb_spec k key) as [E|E]; [tauto|].
  apply IH. tauto.
Qed.

Lemma count_app (x : Z) (l1 l2 : list Z) :
  count x (l1 ++ l2) = count x l1 + count x l2.
Proof. unfold count. rewrite count_occ_app. lia. Qed.

Lemma count_replicate (x y n : Z) :
  0 <= n -> count x (replicate y n) = if y =? x then n else 0.
Proof.
  intros Hn. unfold count, replicate.
  destruct (Z.eqb_spec y x) as [E|E].
  - rewrite count_occ_repeat_eq by congruence. lia.
  - rewrite count_occ_repeat_neq by congruence. reflexivity.
Qed.

Lemma len_app (l1 l2 : list Z) : len (l1 ++ l2) = len l1 + len l2.
Proof. unfold len. rewrite length_app. lia. Qed.

Lemma len_replicate (y n : Z) : 0 <= n -> len (replicate y n) = n.
Proof. intros Hn. unfold len, replicate. rewrite repeat_length. lia. Qed.

Lemma extend_from_counts_counts (items : counts_dict) :
  NoDup (map fst items) ->
  (forall k, In k (map fst items) -> k = "0" \/ k = "1") ->
  (forall k v, In (k, v) items -> 0 <= v) ->
  forall acc,
    exists ms,
      extend_from_counts items acc = Ok ms /\
      count 0 ms = count 0 acc + get_count "0" items /\
      count 1 ms = count 1 acc + get_count "1" items /\
      len ms = len acc + get_count "0" items + get_count "1" items.
Proof.
  induction items as [|[k v] rest IH]; intros Hnd Hk Hv acc.
  - exists acc. cbn [extend_from_counts get_count].
    repeat split; lia.
  - cbn [map fst] in Hnd, Hk. apply NoDup_cons_iff in Hnd.
    destruct Hnd as [Hnin Hnd].
    assert (Hv0 : 0 <= v) by (apply (Hv k); left; reflexivity).
    assert (Hk' : forall k0, In k0 (map fst rest) -> k0 = "0" \/ k0 = "1")
      by (intros k0 H0; apply Hk; right; exact H0).
    assert (Hv' : forall k0 v0, In (k0, v0) rest -> 0 <= v0)
      by (intros k0 v0 H0; apply (Hv k0); right; exact H0).
    destruct (Hk k (or_introl eq_refl)) as [-> | ->].
    + destruct (IH Hnd Hk' Hv' (acc ++ replicate 0 v)%list)
        as (ms & He & H0 & H1 & Hl).
      exists ms. cbn [extend_from_counts get_count].
      change (int_of_str "0" 10) with (Ok 0). cbn [bind].
      rewrite He. split; [reflexivity|].
      rewrite count_app, count_replicate in H0, H1 by exact Hv0.
      rewrite len_app, len_replicate in Hl by exact Hv0.
      rewrite (get_count_absent "0" rest Hnin) in H0, Hl.
      cbn [String.eqb Ascii.eqb Bool.eqb andb Z.eqb Pos.eqb] in *.
      repeat split; lia.
    + destruct (IH Hnd Hk' Hv' (acc ++ replicate 1 v)%list)
        as (ms & He & H0 & H1 & Hl).
      exists ms. cbn [extend_from_counts get_count].
      change (int_of_str "1" 10) with (Ok 1). cbn [bind].
      rewrite He. split; [reflexivity|].
      rewrite count_app, count_replicate in H0, H1 by exact Hv0.
      rewrite len_app, len_replicate in Hl by exact Hv0.
      rewrite (get_count_absent "1" rest Hnin) in H1, Hl.
      cbn [String.eqb Ascii.eqb Bool.eqb andb Z.eqb Pos.eqb] in *.
      repeat split; lia.
Qed.

(** X23: the statistics of a generator are those of the job it ran.  For
    the counts of a one-qubit job (distinct keys among 0 and 1,
    non-negative counts, at least one shot) [generate_random_bits]
    followed by [get_statistics] returns the job's count of 0 as
    [count_0], its count of 1 as [count_1], and their sum as
    [total_measurements]. *)
Theorem get_statistics_after_generate :
  forall (log2 : F.float -> F.float) (self : QRNG) (job_counts : counts_dict),
    NoDup (map fst job_counts) ->
    (forall k, In k (map fst job_counts) -> k = "0" \/ k = "1") ->
    (forall k v, In (k, v) job_counts -> 0 <= v) ->
    0 < get_count "0" job_counts + get_count "1" job_counts ->
    exists ms st,
      snd (generate_random_bits self job_counts) = Ok ms /\
      len ms = get_count "0" job_counts + get_count "1" job_counts /\
      get_statistics log2 (fst (generate_random_bits self job_counts))
      = Ok st /\
      Statistics.count_0 st = get_count "0" job_counts /\
      Statistics.count_1 st = get_count "1" job_counts /\
      Statistics.total_measurements st
      = get_count "0" job_counts + get_count "1" job_counts.
Proof.
  intros log2 self d Hnd Hk Hv Hpos.
  destruct (extend_from_counts_counts d Hnd Hk Hv [])
    as (ms & He & H0 & H1 & Hl).
  change (count 0 []) with 0 in H0. change (count 1 []) with 0 in H1.
  change (len []) with 0 in Hl.
  rewrite (generate_random_bits_of self d ms He). cbn [fst snd].
  assert (Hlen : 0 < len ms) by lia.
  destruct (int_truediv_unit (count 0 ms) (len ms) (count_bounds _ _) Hlen)
    as (p0 & Hp0 & _).
  destruct (int_truediv_unit (count 1 ms) (len ms) (count_bounds _ _) Hlen)
    as (p1 & Hp1 & _).
  unfold get_statistics. cbn [measurements].
  destruct ms as [|b ms]; [unfold len in Hlen; cbn in Hlen; lia|].
  rewrite Hp0, Hp1. cbn [bind].
  exists (b :: ms). eexists. split; [reflexivity|]. split; [lia|].
  split; [reflexivity|].
  cbn [Statistics.count_0 Statistics.count_1 Statistics.total_measurements].
  repeat split; lia.
Qed.

Lemma get_statistics_after_generate_witness :
  exists ms st,
    snd (generate_random_bits init [("1", 2); ("0", 3)]) = Ok ms /\
    len ms = 3 + 2 /\
    get_statistics log2_floor
      (fst (generate_random_bits init [("1", 2); ("0", 3)])) = Ok st /\
    Statistics.count_0 st = 3 /\
    Statistics.count_1 st = 2 /\
    Statistics.total_measurements st = 3 + 2.
Proof.
  apply (get_statistics_after_generate log2_floor init [("1", 2); ("0", 3)]).
  - repeat constructor; cbn; intuition discriminate.
  - cbn. intuition.
  - cbn. intros k v [H | [H | []]]; injection H as _ <-; lia.
  - cbn. lia.
Defined.

(** * The encoders on the output of the generator *)

Lemma extend_from_counts_bits (items : counts_dict) :
  (forall k, In k (map fst items) -> k = "0" \/ k = "1") ->
  forall acc,
    exists tail,
      extend_from_counts items acc = Ok (acc ++ tail)%list /\
      BitSequence tail.
Proof.
  induction items as [|[k v] rest IH]; intros Hk acc.
  - exists []. rewrite app_nil_r. split; [reflexivity|constructor].
  - assert (Hk' : forall k0, In k0 (map fst rest) -> k0 = "0" \/ k0 = "1")
      by (intros k0 H0; apply Hk; right; exact H0).
    destruct (Hk k (or_introl eq_refl)) as [-> | ->].
    + destruct (IH Hk' (acc ++ replicate 0 v)%list) as (tail & He & Ht).
      exists (replicate 0 v ++ tail)%list. cbn [extend_from_counts].
      change (int_of_str "0" 10) with (Ok 0). cbn [bind].
      rewrite He, <- app_assoc. split; [reflexivity|].
      apply BitSequence_app; [apply BitSequence_zeros|exact Ht].
    + destruct (IH Hk' (acc ++ replicate 1 v)%list) as (tail & He & Ht).
      exists (replicate 1 v ++ tail)%list. cbn [extend_from_counts].
      change (int_of_str "1" 10) with (Ok 1). cbn [bind].
      rewrite He, <- app_assoc. split; [reflexivity|].
      apply BitSequence_app; [|exact Ht].
      apply Forall_forall. intros x Hx. apply repeat_spec in Hx. lia.
Qed.

Lemma first_32_block (b : Z) (n : nat) (tail : list Z) :
  (32 <= n)%nat -> first_32 (repeat b n ++ tail) = repeat b 32.
Proof.
  intros Hn. rewrite first_32_long by (rewrite length_app, repeat_length; lia).
  replace n with (32 + (n - 32))%nat by lia.
  rewrite repeat_app, <- app_assoc.
  rewrite firstn_app, repeat_length, Nat.sub_diag.
  rewrite firstn_all2 by (rewrite repeat_length; lia).
  cbn [firstn]. apply app_nil_r.
Qed.

(** X24: [generate_random_bits] lays the measurements out in blocks, and
    [to_float] reads the first 32 bits only.  For a job whose outcomes are
    0 and 1 and whose first outcome has at least 32 shots, [to_float] of
    the generator is therefore fixed by the key of that outcome: 0.0 when
    it is 0, and [1 - 2 ** -32] when it is 1, whatever the counts are. *)
Theorem to_float_after_generate :
  forall (self : QRNG) (key : string) (n : Z) (rest : counts_dict),
    (forall k, In k (map fst ((key, n) :: rest)) -> k = "0" \/ k = "1") ->
    32 <= n ->
    to_float (fst (generate_random_bits self ((key, n) :: rest)))
    = Ok (if String.eqb key "0" then F.zero
          else S754_finite false 9007199252643840 (-53)).
Proof.
  intros self key n rest Hk Hn.
  assert (Hk' : forall k0, In k0 (map fst rest) -> k0 = "0" \/ k0 = "1")
    by (intros k0 H0; apply Hk; right; exact H0).
  assert (Hblock : exists b tail,
             (b = 0 \/ b = 1) /\ BitSequence tail /\
             String.eqb key "0" = (b =? 0) /\
             extend_from_counts ((key, n) :: rest) []
             = Ok (repeat b (Z.to_nat n) ++ tail)%list).
  { destruct (Hk key (or_introl eq_refl)) as [-> | ->].
    - destruct (extend_from_counts_bits rest Hk' (replicate 0 n))
        as (tail & He & Ht).
      exists 0, tail. repeat split; try assumption. left; reflexivity.
    - destruct (extend_from_counts_bits rest Hk' (replicate 1 n))
        as (tail & He & Ht).
      exists 1, tail. repeat split; try assumption. right; reflexivity. }
  destruct Hblock as (b & tail & Hb & Ht & Hkey & He).
  rewrite (generate_random_bits_of self _ _ He). cbn [fst].
  rewrite to_float_bits; cbn [measurements].
  - rewrite first_32_block by lia. rewrite Hkey.
    destruct Hb as [-> | ->]; reflexivity.
  - destruct (Z.to_nat n) eqn:E; [lia|discriminate].
  - apply BitSequence_app; [|exact Ht].
    apply Forall_forall. intros x Hx. apply repeat_spec in Hx. lia.
Qed.

Lemma to_float_after_generate_witness :
  to_float (fst (generate_random_bits init [("1", 40); ("0", 60)]))
  = Ok (S754_finite false 9007199252643840 (-53)).
Proof.
  apply (to_float_after_generate init "1" 40 [("0", 60)]).
  - cbn. intuition.
  - lia.
Defined.

Lemma bits_value_ones (k : nat) : bits_value (repeat 1 k) = 2 ^ Z.of_nat k - 1.
Proof.
  induction k as [|k IH]; [reflexivity|].
  cbn [repeat]. rewrite repeat_cons, bits_value_app, IH.
  change (bits_value [1]) with 1. change (len [1]) with 1.
  rewrite Nat2Z.inj_succ, Z.pow_succ_r by lia. lia.
Qed.

(** X25: the decimal value of a generator after a one-qubit job depends on
    the two counts and on which outcome the job lists first, on nothing
    else: with [a] zeros listed before [b] ones it is [2 ** b - 1], with
    the ones listed first it is [(2 ** b - 1) * 2 ** a]. *)
Theorem to_decimal_after_generate :
  forall (self : QRNG) (a b : Z),
    0 <= a -> 0 <= b -> 0 < a + b ->
    to_decimal (fst (generate_random_bits self [("0", a); ("1", b)]))
    = Ok (2 ^ b - 1) /\
    to_decimal (fst (generate_random_bits self [("1", b); ("0", a)]))
    = Ok ((2 ^ b - 1) * 2 ^ a).
Proof.
  intros self a b Ha Hb Hab. split.
  - rewrite (generate_random_bits_of self _
               (repeat 0 (Z.to_nat a) ++ repeat 1 (Z.to_nat b))%list)
      by reflexivity.
    cbn [fst]. rewrite to_decimal_bits; cbn [measurements].
    + rewrite bits_value_leading_zeros, bits_value_ones, Z2Nat.id by lia.
      reflexivity.
    + destruct (Z.to_nat a) eqn:Ea, (Z.to_nat b) eqn:Eb;
        try discriminate. lia.
    + apply BitSequence_two_blocks with (b := 0). left; reflexivity.
  - rewrite (generate_random_bits_of self _
               (repeat 1 (Z.to_nat b) ++ repeat 0 (Z.to_nat a))%list)
      by reflexivity.
    cbn [fst]. rewrite to_decimal_bits; cbn [measurements].
    + rewrite bits_value_pad, bits_value_ones, !Z2Nat.id by lia.
      reflexivity.
    + destruct (Z.to_nat a) eqn:Ea, (Z.to_nat b) eqn:Eb;
        try discriminate. lia.
    + apply BitSequence_two_blocks with (b := 1). right; reflexivity.
Qed.

Lemma to_decimal_after_generate_witness :
  to_decimal (fst (generate_random_bits init [("0", 3); ("1", 2)])) = Ok 3 /\
  to_decimal (fst (generate_random_bits init [("1", 2); ("0", 3)])) = Ok 24.
Proof. apply (to_decimal_after_generate init 3 2); lia. Defined.

(** * The binary file *)

(** X26: for a bit sequence [save_as_binary_file] asks the operating
    system once, to open the named file and write a text of one character
    per measurement, and ends as that request ends, with its files and its
    exception if it raised.  When the sequence is not empty the text is the
    one [to_binary_string] returns, and [binary_to_decimal] reads it back
    as [to_decimal]'s value; for an empty list the text is empty, where
    [to_binary_string] raises [ValueError].  Where the request is answered
    as a successful write, the named file holds the text. *)
Theorem save_as_binary_file_text :
  forall (os_write : os_write_t) (self : QRNG) (filename : string)
         (fs : file_system),
    BitSequence (measurements self) ->
    exists text,
      save_as_binary_file os_write (measurements self) filename fs
      = os_write fs filename text /\
      String.length text = List.length (measurements self) /\
      (measurements self <> [] ->
       to_binary_string self = Ok text /\
       binary_to_decimal text = to_decimal self) /\
      (measurements self = [] ->
       text = "" /\ to_binary_string self = Raise ValueError) /\
      (os_write fs filename text = (write_file fs filename text, Ok tt) ->
       snd (save_as_binary_file os_write (measurements self) filename fs)
       = Ok tt /\
       fst (save_as_binary_file os_write (measurements self) filename fs)
         filename = Some text).
Proof.
  intros os_write self filename fs Hl.
  exists (bit_string (measurements self)).
  unfold save_as_binary_file.
  rewrite (join_bits _ Hl).
  split; [reflexivity|]. split; [apply bit_string_length|]. split; [|split].
  - intros Hne. split.
    + apply to_binary_string_bits; assumption.
    + unfold binary_to_decimal.
      rewrite int_of_str_bits, to_decimal_bits by assumption. reflexivity.
  - intros He. unfold to_binary_string. rewrite He. split; reflexivity.
  - intros Hos. rewrite Hos. cbn [fst snd]. split; [reflexivity|].
    unfold write_file. rewrite String.eqb_refl. reflexivity.
Qed.

Lemma save_as_binary_file_text_witness :
  exists text,
    save_as_binary_file os_write_named [1; 0; 1] "out.bin" (fun _ => None)
    = os_write_named (fun _ => None) "out.bin" text /\
    String.length text = 3%nat /\
    ([1; 0; 1] <> [] ->
     to_binary_string {| measurements := [1; 0; 1]; counts := [] |} = Ok text /\
     binary_to_decimal text
     = to_decimal {| measurements := [1; 0; 1]; counts := [] |}) /\
    ([1; 0; 1] = [] ->
     text = "" /\
     to_binary_string {| measurements := [1; 0; 1]; counts := [] |}
     = Raise ValueError) /\
    (os_write_named (fun _ => None) "out.bin" text
     = (write_file (fun _ => None) "out.bin" text, Ok tt) ->
     snd (save_as_binary_file os_write_named [1; 0; 1] "out.bin"
            (fun _ => None)) = Ok tt /\
     fst (save_as_binary_file os_write_named [1; 0; 1] "out.bin"
            (fun _ => None)) "out.bin" = Some text).
Proof.
  apply (save_as_binary_file_text os_write_named
           {| measurements := [1; 0; 1]; counts := [] |} "out.bin"
           (fun _ => None)).
  repeat (constructor; [lia|]). constructor.
Defined.

(** * The range of the entropy ratio *)


















